(** * A shallow embedding of the multilayer-perceptron training engine

    Package [neuralnetwork] (Go): activation and loss registries, the
    label binarizer, forward and backward propagation, the SGD and Adam
    optimizers and the stochastic training loop.

    Conventions of the embedding.
    - [float64] is Rocq's primitive binary64 [float]; Go's [==] and [<] on
      floats are [PrimFloat.eqb] and [PrimFloat.ltb].
    - A Go slice of floats is a [list float]; reading or writing outside
      the slice panics, which the embedding writes as [Panic].
    - [blas64.General] is a record whose [Data] is the backing slice.  A
      function that writes through the slice in place returns the updated
      data; the caller stores it back where the Go slice was shared.
    - Slices that alias one backing array (the weight and bias blocks inside
      [packedParameters], the gradient blocks inside [packedGrads], the
      batches and the validation rows inside [X] and [y]) are views: an
      offset and a length into the one list that holds the array.
    - Row and column counts and loop indices are natural numbers (they are
      never negative in [blas64.General]); the [int] hyperparameters that
      the code compares with zero are integers.
    - Output on the console and in the log is not part of the embedding. *)

From Stdlib Require Import ZArith Floats.
From stdpp Require Import base list strings sorting.

Set Default Proof Using "Type".
Local Open Scope nat_scope.

(** ** Panics and loops *)

(** The outcome of a call: it returns, it panics, or it never returns. *)
Inductive result (A : Type) : Type :=
| Ok (a : A)
| Panic (msg : string)
| Diverge.
Arguments Ok {A} a.
Arguments Panic {A} msg.
Arguments Diverge {A}.

Definition bind {A B} (r : result A) (k : A -> result B) : result B :=
  match r with
  | Ok a => k a
  | Panic msg => Panic msg
  | Diverge => Diverge
  end.

Notation "'let*' p ':=' e 'in' k" := (bind e (fun p => k))
  (at level 10, p pattern, e at level 200, k at level 200).

(** [for i := start; i < start+count; i++ { s = body i s }] *)
Fixpoint for_loop {St : Type} (body : nat -> St -> result St)
    (start count : nat) (s : St) : result St :=
  match count with
  | O => Ok s
  | S k =>
      let* s' := body start s in for_loop body (S start) k s'
  end.

Definition for_range {St : Type} (n : nat) (body : nat -> St -> result St)
    (s : St) : result St :=
  for_loop body 0 n s.

(** [for i := hi; i >= 1; i-- { s = body i s }] *)
Fixpoint for_down {St : Type} (body : nat -> St -> result St)
    (hi : nat) (s : St) : result St :=
  match hi with
  | O => Ok s
  | S k => let* s' := body hi s in for_down body k s'
  end.

(** A counting loop whose body may [break]: the body returns the new state
    and whether it broke out. *)
Fixpoint for_break {St : Type} (body : nat -> St -> result (St * bool))
    (start count : nat) (s : St) : result St :=
  match count with
  | O => Ok s
  | S k =>
      let* (s', stop) := body start s in
      if stop : bool then Ok s' else for_break body (S start) k s'
  end.

(** ** Slices *)

Definition load {A} (d : list A) (i : nat) : result A :=
  match d !! i with
  | Some v => Ok v
  | None => Panic "index out of range"
  end.

Definition store {A} (d : list A) (i : nat) (v : A) : result (list A) :=
  if decide (i < length d) then Ok (<[i:=v]> d)
  else Panic "index out of range".

(** [d[pos] = f(d[pos])] *)
Definition update_at (f : float -> float) (pos : nat) (d : list float)
    : result (list float) :=
  let* v := load d pos in store d pos (f v).

(** [s[lo:hi]] for a slice whose capacity is its length. *)
Definition slice {A} (d : list A) (lo hi : nat) : result (list A) :=
  if decide (lo <= hi /\ hi <= length d) then Ok (take (hi - lo) (drop lo d))
  else Panic "slice bounds out of range".

(** Writing the sub-slice that starts at [lo] back into the array it
    aliases. *)
Definition splice {A} (d : list A) (lo : nat) (part : list A) : list A :=
  take lo d ++ part ++ drop (lo + length part) d.

(** [make([]float64, n)] *)
Definition make (n : nat) : list float := replicate n 0%float.

(** ** float64 and strings *)

Module F64.
Local Open Scope float_scope.

(** [float64(n)] for a non-negative [int]. *)
Definition of_nat (n : nat) : float :=
  PrimFloat.of_uint63 (Uint63.of_Z (Z.of_nat n)).

(** [math.Inf(1)], [math.IsNaN], [math.Sqrt], [math.Abs]: IEEE 754 fixes
    them bit for bit. *)
Definition Inf : float := infinity.
Definition IsNaN (x : float) : bool := PrimFloat.is_nan x.
Definition Sqrt (x : float) : float := PrimFloat.sqrt x.
Definition Abs (x : float) : float := PrimFloat.abs x.

(** [math.Nextafter(x, y)] *)
Definition Nextafter (x y : float) : float :=
  if IsNaN x || IsNaN y then nan
  else if x =? y then x
  else if x <? y then PrimFloat.next_up x
  else PrimFloat.next_down x.

(** [int(math.Ceil(x))] for a finite [x] whose ceiling is an [int]; Go
    leaves the conversion of the other values to the implementation (here
    NaN and the infinities give 0). *)
Definition ceil_int (x : float) : Z :=
  match Prim2SF x with
  | S754_finite s m e =>
      let z := if s then Z.neg m else Z.pos m in
      if (0 <=? e)%Z then (z * 2 ^ e)%Z
      else (- ((- z) / 2 ^ (- e)))%Z
  | _ => 0%Z
  end.

(** [x > y], [x >= y], [x <= y] and [x != y] as Go evaluates them. *)
Definition gtb (x y : float) : bool := y <? x.
Definition geb (x y : float) : bool := y <=? x.
Definition neqb (x y : float) : bool := negb (x =? y).
End F64.

(** [strings.EqualFold] on ASCII text (the names compared in this package
    are ASCII; Unicode case folding of other letters is not embedded). *)
Definition lower_ascii (c : Ascii.ascii) : Ascii.ascii :=
  let n := Ascii.nat_of_ascii c in
  if (65 <=? n) && (n <=? 90) then Ascii.ascii_of_nat (n + 32) else c.

Fixpoint lower (s : string) : string :=
  match s with
  | EmptyString => EmptyString
  | String c r => String (lower_ascii c) (lower r)
  end.

Definition EqualFold (s u : string) : bool := String.eqb (lower s) (lower u).

(** ** Matrices *)

Inductive Transpose := NoTrans | Trans.

Record blas64General : Type := mkGeneral {
  Rows : nat;
  Cols : nat;
  Stride : nat;
  Data : list float
}.

Definition with_Data (z : blas64General) (d : list float) : blas64General :=
  {| Rows := Rows z; Cols := Cols z; Stride := Stride z; Data := d |}.

(** A [blas64General] whose [Data] is the sub-slice [mem[vOff : vOff+vLen]]
    of a shared array. *)
Record View : Type := mkView {
  vRows : nat;
  vCols : nat;
  vStride : nat;
  vOff : nat;
  vLen : nat
}.

(** A [[]float64] that is the sub-slice [mem[sOff : sOff+sLen]]. *)
Record Span : Type := mkSpan { sOff : nat; sLen : nat }.

Definition view_matrix (mem : list float) (v : View) : result blas64General :=
  let* d := slice mem (vOff v) (vOff v + vLen v) in
  Ok {| Rows := vRows v; Cols := vCols v; Stride := vStride v; Data := d |}.

Definition span_slice (mem : list float) (s : Span) : result (list float) :=
  slice mem (sOff s) (sOff s + sLen s).

(** The code of the package that is not in the embedded files: the
    mathematical functions of [M64] that IEEE 754 does not fix bit for bit
    ([math.Exp], [math.Log], [math.Log1p], [math.Tanh], [math.Pow]), the
    BLAS kernels [gemm64] and [axpy64], and [General64.Copy].  The embedding
    takes them as operations; each returns what it leaves in the slice it
    writes. *)
Record Externals : Type := mkExternals {
  Exp : float -> float;
  Log : float -> float;
  Log1p : float -> float;
  Tanh : float -> float;
  Pow : float -> float -> float;
  (** [gemm64(tA, tB, alpha, A, B, beta, C)]: the data left in [C]. *)
  gemm64 : Transpose -> Transpose -> float -> blas64General ->
           blas64General -> float -> blas64General -> result (list float);
  (** [axpy64(n, alpha, x, y)]: the data left in [y]. *)
  axpy64 : nat -> float -> list float -> list float -> result (list float);
  (** [dst.Copy(src)]: the data left in the slice [dst] had before the call. *)
  General64_Copy : blas64General -> blas64General -> result (list float)
}.

(** Modelled from the spec: [General64.RowSlice(i, j)], the axis-aligned
    row-range slicing of section 6: rows [i] to [j-1] of the matrix, as a
    view on the same data. *)
Definition RowSlice (z : blas64General) (i j : nat) : result blas64General :=
  if decide (i <= j /\ j <= Rows z) then
    Ok {| Rows := j - i; Cols := Cols z; Stride := Stride z;
          Data := take ((j - i) * Stride z) (drop (i * Stride z) (Data z)) |}
  else Panic "index out of range".

(** Modelled from the spec: [MaxIdx64], the position of the arithmetic
    maximum of a slice, ties broken by the lowest index (section 4.2). *)
Fixpoint MaxIdx64_from (a : list float) (i mi : nat) (best : float) : nat :=
  match a with
  | [] => mi
  | v :: r =>
      if F64.gtb v best then MaxIdx64_from r (S i) i v
      else MaxIdx64_from r (S i) mi best
  end.

(** Modelled from the spec: [MaxIdx64] on a slice; the scan starts at the
    first entry. *)
Definition MaxIdx64 (a : list float) : nat :=
  match a with
  | [] => 0
  | v :: r => MaxIdx64_from r 1 0 v
  end.

(** ** Activation, derivative and loss registries *)

Section Registries.
Context (M64 : Externals).
Local Open Scope float_scope.

(** The two nested loops an elementwise registry entry runs over a matrix,
    [for row, zpos := 0, 0; row < z.Rows; row, zpos = row+1, zpos+z.Stride]
    and inside [for col := 0; col < z.Cols; col++], writing
    [z.Data[zpos+col] = f(z.Data[zpos+col])]; [zpos] is [row * z.Stride]. *)
Definition apply_inplace (f : float -> float) (z : blas64General)
    : result (list float) :=
  for_range (Rows z) (fun row d =>
    for_range (Cols z) (fun col d =>
      update_at f (row * Stride z + col)%nat d) d) (Data z).

Definition softmax_row (z : blas64General) (zpos : nat) (d : list float)
    : result (list float) :=
  let* (d, sum) := for_range (Cols z) (fun col '(d, sum) =>
      let* v := load d (zpos + col)%nat in
      let* d := store d (zpos + col)%nat (Exp M64 v) in
      let* v' := load d (zpos + col)%nat in
      Ok (d, sum + v')) (d, 0) in
  for_range (Cols z) (fun col d =>
    update_at (fun v => v / sum) (zpos + col)%nat d) d.

(** [Activations64[name]]: the entry rewrites [z.Data] in place. *)
Definition Activations64 (name : string)
    : option (blas64General -> result (list float)) :=
  if String.eqb name "identity" then Some (fun z => Ok (Data z))
  else if String.eqb name "logistic" then
    Some (apply_inplace (fun v => 1 / (1 + Exp M64 (- v))))
  else if String.eqb name "tanh" then
    Some (apply_inplace (fun v => Tanh M64 (- v)))
  else if String.eqb name "relu" then
    Some (apply_inplace (fun v => if v <? 0 then 0 else v))
  else if String.eqb name "softmax" then
    Some (fun z =>
      for_range (Rows z) (fun row d =>
        softmax_row z (row * Stride z)%nat d) (Data z))
  else None.

(** The loops of a derivative entry: [Z] is read, [deltas] is written, each
    with its own stride; [g z delta] is the new [delta]. *)
Definition derive_inplace (g : float -> float -> float)
    (Z deltas : blas64General) : result (list float) :=
  for_range (Rows Z) (fun row d =>
    for_range (Cols Z) (fun col d =>
      let* z := load (Data Z) (row * Stride Z + col)%nat in
      update_at (g z) (row * Stride deltas + col)%nat d) d)
    (Data deltas).

(** [Derivatives64[name]]: the entry rewrites [deltas.Data] in place. *)
Definition Derivatives64 (name : string)
    : option (blas64General -> blas64General -> result (list float)) :=
  if String.eqb name "identity" then Some (fun _ deltas => Ok (Data deltas))
  else if String.eqb name "logistic" then
    Some (derive_inplace (fun z delta => delta * (z * (1 - z))))
  else if String.eqb name "tanh" then
    Some (derive_inplace (fun z delta => delta * (1 - z * z)))
  else if String.eqb name "relu" then
    Some (derive_inplace (fun z delta => if z =? 0 then 0 else delta))
  else None.

(** The loops of a loss entry: they run over the rows and columns of [y]
    and fold [term sum yval hval] over the cells. *)
Definition loss_sum (term : float -> float -> float -> float)
    (y h : blas64General) : result float :=
  for_range (Rows y) (fun row sum =>
    for_range (Cols y) (fun col sum =>
      let* hval := load (Data h) (row * Stride h + col)%nat in
      let* yval := load (Data y) (row * Stride y + col)%nat in
      Ok (term sum yval hval)) sum) 0.

Definition clamp_probability (hval : float) : float :=
  let hmin := F64.Nextafter 0 1 in
  let hmax := F64.Nextafter 1 0 in
  if hval <? hmin then hmin
  else if F64.gtb hval hmax then hmax
  else hval.

(** [LossFunctions64[name]] *)
Definition LossFunctions64 (name : string)
    : option (blas64General -> blas64General -> result float) :=
  if String.eqb name "square_loss" then
    Some (fun y h =>
      let* sum := loss_sum (fun sum yval hval =>
                    let e := hval - yval in sum + e * e) y h in
      Ok (sum / 2 / F64.of_nat (Rows h)))
  else if String.eqb name "log_loss" then
    Some (fun y h =>
      let* sum := loss_sum (fun sum yval hval =>
                    let hval := clamp_probability hval in
                    if F64.neqb yval 0 then sum + (- yval) * Log M64 hval
                    else sum) y h in
      Ok (sum / F64.of_nat (Rows h)))
  else if String.eqb name "binary_log_loss" then
    Some (fun y h =>
      let* sum := loss_sum (fun sum yval hval =>
                    let hval := clamp_probability hval in
                    sum + ((- yval) * Log M64 hval
                           - (1 - yval) * Log1p M64 (- hval))) y h in
      Ok (sum / F64.of_nat (Rows h)))
  else None.

(** Calling an entry looked up in a registry; a missing entry is a nil
    function, and calling it panics. *)
Definition call_nil {A} : result A :=
  Panic "invalid memory address or nil pointer dereference".

Definition call_activation (name : string) (z : blas64General)
    : result blas64General :=
  match Activations64 name with
  | Some f => let* d := f z in Ok (with_Data z d)
  | None => call_nil
  end.

Definition call_derivative (name : string) (Z deltas : blas64General)
    : result blas64General :=
  match Derivatives64 name with
  | Some g => let* d := g Z deltas in Ok (with_Data deltas d)
  | None => call_nil
  end.

Definition call_loss (name : string) (y h : blas64General) : result float :=
  match LossFunctions64 name with
  | Some f => f y h
  | None => call_nil
  end.

(** [addIntercepts64(a, b)]: [a.Data[apos+c] += b[c]] *)
Definition addIntercepts64 (a : blas64General) (b : list float)
    : result blas64General :=
  let* d := for_range (Rows a) (fun arow d =>
      for_range (Cols a) (fun c d =>
        let* bc := load b c in
        update_at (fun v => v + bc) (arow * Stride a + c)%nat d) d)
    (Data a) in
  Ok (with_Data a d).

(** [matRowMean64(a, b)]: the column means of [a], written to [b]. *)
Definition matRowMean64 (a : blas64General) (b : list float)
    : result (list float) :=
  let* b := for_range (Cols a) (fun c b => store b c 0) b in
  let* b := for_range (Rows a) (fun arow b =>
      for_range (Cols a) (fun c b =>
        let* v := load (Data a) (arow * Stride a + c)%nat in
        update_at (fun bc => bc + v) c b) b) b in
  for_range (Cols a) (fun c b =>
    update_at (fun bc => bc / F64.of_nat (Rows a)) c b) b.
End Registries.

(** ** Library pieces the binarizer and the training loop rely on *)

(** A Go [map[float64]V]: the keys are compared with [==], so [-0] and [0]
    are one key and a NaN key is never found again. *)
Definition GoMap (V : Type) : Type := list (float * V).

Fixpoint map_lookup {V} (m : GoMap V) (k : float) : option V :=
  match m with
  | [] => None
  | (k', v) :: r => if (k' =? k)%float then Some v else map_lookup r k
  end.

Fixpoint map_store {V} (m : GoMap V) (k : float) (v : V) : GoMap V :=
  match m with
  | [] => [(k, v)]
  | (k', v') :: r =>
      if (k' =? k)%float then (k', v) :: r else (k', v') :: map_store r k v
  end.

(** Go's [sort.Sort] over [Less] and [Swap].  The library runs
    [insertionSort] itself on slices of at most 12 elements; on longer ones
    it reaches the same order whenever [Less] separates any two elements. *)
Section Sort.
Context {St : Type}.
Context (Less : St -> nat -> nat -> result bool).
Context (Swap : St -> nat -> nat -> result St).

(** [for j := i; j > 0 && data.Less(j, j-1); j-- { data.Swap(j, j-1) }] *)
Fixpoint sift (j : nat) (s : St) : result St :=
  match j with
  | O => Ok s
  | S j' =>
      let* lt := Less s j j' in
      if lt : bool then let* s := Swap s j j' in sift j' s else Ok s
  end.

(** [for i := 1; i < n; i++ { ... }] *)
Definition insertionSort (n : nat) (s : St) : result St :=
  for_loop sift 1 (n - 1) s.

Definition sort_Sort (n : nat) (s : St) : result St := insertionSort n s.
End Sort.

(** [Float64Slice]: [Less] puts a NaN before every number. *)
Definition Float64Slice_Less (p : list float) (i j : nat) : result bool :=
  let* pi := load p i in
  let* pj := load p j in
  Ok ((pi <? pj)%float || F64.IsNaN pi && negb (F64.IsNaN pj)).

Definition swap_entries {A} (p : list A) (i j : nat) : result (list A) :=
  let* pi := load p i in
  let* pj := load p j in
  let* p := store p i pj in
  store p j pi.

(** ** Label binarizer *)

Module LabelBinarizer64.
Local Open Scope float_scope.

Record lb : Type := mkLb {
  NegLabel : float;
  PosLabel : float;
  Classes : list (list float)
}.

Definition NewLabelBinarizer64 (NegLabel PosLabel : float) : lb :=
  {| NegLabel := NegLabel; PosLabel := PosLabel; Classes := [] |}.

(** The distinct values of column [j], in the order the rows show them. *)
Definition column_classes (y : blas64General) (j : nat)
    : result (list float) :=
  let* (_, classes) :=
    for_range (Rows y) (fun i '(cmap, classes) =>
      let* yval := load (Data y) (i * Stride y + j)%nat in
      match map_lookup cmap yval with
      | Some _ => Ok (cmap, classes)
      | None => Ok (map_store cmap yval true, classes ++ [yval])
      end) (([] : GoMap bool), []) in
  Ok classes.

(** [Fit]: the classes of every column, sorted. *)
Definition Fit (m : lb) (Y : blas64General) : result lb :=
  let PosLabel' :=
    if PosLabel m =? NegLabel m then PosLabel m + 1 else PosLabel m in
  let* Classes' :=
    for_range (Cols Y) (fun j Classes =>
      let* classes := column_classes Y j in
      let* sorted := sort_Sort Float64Slice_Less swap_entries
                       (length classes) classes in
      store Classes j sorted) (replicate (Cols Y) []) in
  Ok {| NegLabel := NegLabel m; PosLabel := PosLabel'; Classes := Classes' |}.

(** [NOutputs]: the total number of classes. *)
Definition total_classes (Classes : list (list float)) : nat :=
  foldl (fun n classes => n + length classes)%nat 0%nat Classes.

(** The map from a class value to its number, built by
    [for classNo, val := range m.Classes[j] { cmap[val] = classNo }]. *)
Definition class_map (classes : list float) : GoMap nat :=
  foldl (fun cmap '(classNo, val) => map_store cmap val classNo) []
        (imap (fun classNo val => (classNo, val)) classes).

(** [Transform]: the loop over the columns carries [baseCol] and the
    output data.  When the value is not a key of [cmap], [classNo] is the
    zero value of [int] and the branch writes [NegLabel] to column
    [baseCol+0] of the block. *)
Definition Transform (m : lb) (Y : blas64General) : result blas64General :=
  let NSamples := Rows Y in
  let NOutputs := total_classes (Classes m) in
  let Yout := {| Rows := NSamples; Cols := NOutputs; Stride := NOutputs;
                 Data := make (NSamples * NOutputs) |} in
  let* (_, d) :=
    for_range (Cols Y) (fun j '(baseCol, d) =>
      let* classes := load (Classes m) j in
      let cmap := class_map classes in
      let* d := for_range (Rows Y) (fun i d =>
          let* val := load (Data Y) (i * Stride Y + j)%nat in
          match map_lookup cmap val with
          | Some classNo =>
              store d (i * Stride Yout + baseCol + classNo)%nat (PosLabel m)
          | None =>
              store d (i * Stride Yout + baseCol + 0)%nat (NegLabel m)
          end) d in
      Ok ((baseCol + length classes)%nat, d)) (0%nat, Data Yout) in
  Ok (with_Data Yout d).

(** [FitTransform] *)
Definition FitTransform (m : lb) (Y : blas64General)
    : result (lb * blas64General) :=
  let* m := Fit m Y in
  let* Yout := Transform m Y in
  Ok (m, Yout).

(** The loop of [InverseTransform],
    [for j, baseCol := 0, 0; baseCol < y.Cols;
         j, baseCol = j+1, baseCol+len(m.Classes[j])],
    whose body ends with [baseCol += len(m.Classes[j])]: [baseCol] moves
    by the length of the block twice each round.  [rest] is
    [m.Classes[j:]]; the loop ends when [baseCol] reaches [y.Cols] or
    panics when [j] runs past the classes. *)
Fixpoint inverse_columns (y : blas64General) (yoStride : nat)
    (rest : list (list float)) (j baseCol : nat) (d : list float)
    : result (list float) :=
  if decide (baseCol < Cols y) then
    match rest with
    | [] => Panic "index out of range"
    | classes :: rest' =>
        let* d := for_range (Rows y) (fun i d =>
            let* block := slice (Data y) (i * Stride y + baseCol)%nat
                            (i * Stride y + baseCol + length classes)%nat in
            let classNo := MaxIdx64 block in
            let* val := load classes classNo in
            store d (i * yoStride + j)%nat val) d in
        let baseCol := (baseCol + length classes)%nat in
        inverse_columns y yoStride rest' (S j)
          (baseCol + length classes)%nat d
    end
  else Ok d.

(** [InverseTransform] *)
Definition InverseTransform (m : lb) (Y : blas64General)
    : result blas64General :=
  let NSamples := Rows Y in
  let NOutputs := length (Classes m) in
  let Yout := {| Rows := NSamples; Cols := NOutputs; Stride := NOutputs;
                 Data := make (NSamples * NOutputs) |} in
  let* d := inverse_columns Y NOutputs (Classes m) 0 0 (Data Yout) in
  Ok (with_Data Yout d).
End LabelBinarizer64.

(** ** Optimizers

    Both optimizers keep [Params], the slice that is the perceptron's
    [packedParameters]; in the embedding [updateParams] takes that array and
    returns it updated. *)

Module SGDOptimizer64.
Local Open Scope float_scope.

Record opt : Type := mkOpt {
  LearningRateInit : float;
  LearningRate : float;
  PowerT : float;
  LRSchedule : string;
  Momentum : float;
  Nesterov : bool;
  (** [nil] until the first update *)
  velocities : option (list float)
}.

Definition set_LearningRate (o : opt) (lr : float) : opt :=
  {| LearningRateInit := LearningRateInit o; LearningRate := lr;
     PowerT := PowerT o; LRSchedule := LRSchedule o; Momentum := Momentum o;
     Nesterov := Nesterov o; velocities := velocities o |}.

Definition set_velocities (o : opt) (v : list float) : opt :=
  {| LearningRateInit := LearningRateInit o; LearningRate := LearningRate o;
     PowerT := PowerT o; LRSchedule := LRSchedule o; Momentum := Momentum o;
     Nesterov := Nesterov o; velocities := Some v |}.

Definition iterationEnds (M64 : Externals) (o : opt) (timeStep : float) : opt :=
  if EqualFold (LRSchedule o) "invscaling" then
    set_LearningRate o (LearningRateInit o / Pow M64 (timeStep + 1) (PowerT o))
  else o.

(** The result is the decision and the optimizer after the call. *)
Definition triggerStopping (o : opt) (msg : string) (verbose : bool)
    : bool * opt :=
  if negb (EqualFold (LRSchedule o) "adaptive") then (true, o)
  else if LearningRate o <=? 0x1.0c6f7a0b5ed8dp-20 then (true, o)
  else (false, set_LearningRate o (LearningRate o / 5)).

Definition updateParams (o : opt) (grads Params : list float)
    : result (opt * list float) :=
  let vel0 := match velocities o with
              | Some v => v
              | None => make (length grads)
              end in
  let* (vel, Params) :=
    for_range (length grads) (fun i '(vel, Params) =>
      let* vi := load vel i in
      let* gi := load grads i in
      let update := Momentum o * vi - LearningRate o * gi in
      let velocity := update in
      let* vel := store vel i velocity in
      let* Params :=
        if Nesterov o then
          update_at (fun p => p + (Momentum o * velocity - LearningRate o * gi))
                    i Params
        else update_at (fun p => p + update) i Params in
      Ok (vel, Params)) (vel0, Params) in
  Ok (set_velocities o vel, Params).
End SGDOptimizer64.

Module AdamOptimizer64.
Local Open Scope float_scope.

Record opt : Type := mkOpt {
  LearningRateInit : float;
  LearningRate : float;
  Beta1 : float;
  Beta2 : float;
  Epsilon : float;
  t : float;
  ms : list float;
  vs : list float;
  beta1t : float;
  beta2t : float
}.

Definition iterationEnds (o : opt) (timeStep : float) : opt := o.

(** The result is the decision and the optimizer after the call. *)
Definition triggerStopping (o : opt) (msg : string) (verbose : bool)
    : bool * opt :=
  (true, o).

(** The state the loop over the gradients carries: the moments, the running
    products, the learning rate and the parameters. *)
Record loop_state : Type := mkLoop {
  l_ms : list float;
  l_vs : list float;
  l_beta1t : float;
  l_beta2t : float;
  l_LearningRate : float;
  l_Params : list float
}.

(** The body of [for i, grad := range grads]. *)
Definition update_one (o : opt) (i : nat) (grad : float) (s : loop_state)
    : result loop_state :=
  let* mi := load (l_ms s) i in
  let* ms := store (l_ms s) i (Beta1 o * mi + (1 - Beta1 o) * grad) in
  let* vi := load (l_vs s) i in
  let* vs := store (l_vs s) i (Beta2 o * vi + (1 - Beta2 o) * grad * grad) in
  let beta1t := l_beta1t s * Beta1 o in
  let beta2t := l_beta2t s * Beta2 o in
  let LearningRate :=
    LearningRateInit o * F64.Sqrt (1 - beta2t) / (1 - beta1t) in
  let* mi := load ms i in
  let* vi := load vs i in
  let update := - LearningRate * mi / (F64.Sqrt vi + Epsilon o) in
  let* Params := update_at (fun p => p + update) i (l_Params s) in
  Ok {| l_ms := ms; l_vs := vs; l_beta1t := beta1t; l_beta2t := beta2t;
        l_LearningRate := LearningRate; l_Params := Params |}.

Definition updateParams (o : opt) (grads Params : list float)
    : result (opt * list float) :=
  let first := t o =? 0 in
  let s0 := {| l_ms := if first then make (length grads) else ms o;
               l_vs := if first then make (length grads) else vs o;
               l_beta1t := if first then 1 else beta1t o;
               l_beta2t := if first then 1 else beta2t o;
               l_LearningRate := LearningRate o;
               l_Params := Params |} in
  let* s := for_range (length grads) (fun i s =>
      let* grad := load grads i in update_one o i grad s) s0 in
  Ok ({| LearningRateInit := LearningRateInit o;
         LearningRate := l_LearningRate s;
         Beta1 := Beta1 o; Beta2 := Beta2 o; Epsilon := Epsilon o;
         t := t o + 1;
         ms := l_ms s; vs := l_vs s;
         beta1t := l_beta1t s; beta2t := l_beta2t s |},
      l_Params s).
End AdamOptimizer64.

(** [Optimizer64]: the interface and its two implementations. *)
Inductive Optimizer64 : Type :=
| OptSGD (o : SGDOptimizer64.opt)
| OptAdam (o : AdamOptimizer64.opt).

Definition iterationEnds (M64 : Externals) (o : Optimizer64) (timeStep : float)
    : Optimizer64 :=
  match o with
  | OptSGD o => OptSGD (SGDOptimizer64.iterationEnds M64 o timeStep)
  | OptAdam o => OptAdam (AdamOptimizer64.iterationEnds o timeStep)
  end.

Definition triggerStopping (o : Optimizer64) (msg : string) (verbose : bool)
    : bool * Optimizer64 :=
  match o with
  | OptSGD o =>
      let (stop, o) := SGDOptimizer64.triggerStopping o msg verbose in
      (stop, OptSGD o)
  | OptAdam o =>
      let (stop, o) := AdamOptimizer64.triggerStopping o msg verbose in
      (stop, OptAdam o)
  end.

Definition updateParams (o : Optimizer64) (grads Params : list float)
    : result (Optimizer64 * list float) :=
  match o with
  | OptSGD o =>
      let* (o, Params) := SGDOptimizer64.updateParams o grads Params in
      Ok (OptSGD o, Params)
  | OptAdam o =>
      let* (o, Params) := AdamOptimizer64.updateParams o grads Params in
      Ok (OptAdam o, Params)
  end.

(** ** The perceptron

    [Coefs] and [Intercepts] are the views [initialize] cuts out of
    [packedParameters]: for every layer the bias vector, then the weight
    block.  [RandomState] is the argument [rndShuffle] of [fitStochastic];
    [packedGrads] is among the buffers of [fit].  The counters [NIter], [t]
    and [NoImprovementCount] start at zero and only grow. *)
Record BaseMultilayerPerceptron64 : Type := mkMLP {
  (** hyperparameters *)
  Activation : string;
  Solver : string;
  Alpha : float;
  WeightDecay : float;
  BatchSize : Z;
  BatchNormalize : bool;
  LearningRate : string;
  LearningRateInit : float;
  PowerT : float;
  MaxIter : Z;
  LossFuncName : string;
  HiddenLayerSizes : list nat;
  Shuffle : bool;
  Tol : float;
  Verbose : bool;
  WarmStart : bool;
  Momentum : float;
  NesterovsMomentum : bool;
  EarlyStopping : bool;
  ValidationFraction : float;
  Beta1 : float;
  Beta2 : float;
  Epsilon : float;
  NIterNoChange : Z;
  (** outputs *)
  NLayers : nat;
  NIter : nat;
  NOutputs : nat;
  Intercepts : list Span;
  Coefs : list View;
  OutActivation : string;
  Loss : float;
  (** internal *)
  t : nat;
  LossCurve : list float;
  ValidationScores : list float;
  BestValidationScore : float;
  BestLoss : float;
  NoImprovementCount : nat;
  optimizer : option Optimizer64;
  packedParameters : list float;
  bestParameters : list float;
  batchNorm : list (list float);
  lb : option LabelBinarizer64.lb
}.

(** Assignments to the fields the training loop writes. *)
Definition set_NIter (m : BaseMultilayerPerceptron64) (v : nat)
    : BaseMultilayerPerceptron64 :=
  mkMLP (Activation m) (Solver m) (Alpha m) (WeightDecay m) (BatchSize m)
    (BatchNormalize m) (LearningRate m) (LearningRateInit m) (PowerT m)
    (MaxIter m) (LossFuncName m) (HiddenLayerSizes m) (Shuffle m) (Tol m)
    (Verbose m) (WarmStart m) (Momentum m) (NesterovsMomentum m)
    (EarlyStopping m) (ValidationFraction m) (Beta1 m) (Beta2 m) (Epsilon m)
    (NIterNoChange m) (NLayers m) v (NOutputs m) (Intercepts m) (Coefs m)
    (OutActivation m) (Loss m) (t m) (LossCurve m) (ValidationScores m)
    (BestValidationScore m) (BestLoss m) (NoImprovementCount m)
    (optimizer m) (packedParameters m) (bestParameters m) (batchNorm m)
    (lb m).

Definition set_Loss (m : BaseMultilayerPerceptron64) (v : float)
    : BaseMultilayerPerceptron64 :=
  mkMLP (Activation m) (Solver m) (Alpha m) (WeightDecay m) (BatchSize m)
    (BatchNormalize m) (LearningRate m) (LearningRateInit m) (PowerT m)
    (MaxIter m) (LossFuncName m) (HiddenLayerSizes m) (Shuffle m) (Tol m)
    (Verbose m) (WarmStart m) (Momentum m) (NesterovsMomentum m)
    (EarlyStopping m) (ValidationFraction m) (Beta1 m) (Beta2 m) (Epsilon m)
    (NIterNoChange m) (NLayers m) (NIter m) (NOutputs m) (Intercepts m)
    (Coefs m) (OutActivation m) v (t m) (LossCurve m) (ValidationScores m)
    (BestValidationScore m) (BestLoss m) (NoImprovementCount m)
    (optimizer m) (packedParameters m) (bestParameters m) (batchNorm m)
    (lb m).

Definition set_t (m : BaseMultilayerPerceptron64) (v : nat)
    : BaseMultilayerPerceptron64 :=
  mkMLP (Activation m) (Solver m) (Alpha m) (WeightDecay m) (BatchSize m)
    (BatchNormalize m) (LearningRate m) (LearningRateInit m) (PowerT m)
    (MaxIter m) (LossFuncName m) (HiddenLayerSizes m) (Shuffle m) (Tol m)
    (Verbose m) (WarmStart m) (Momentum m) (NesterovsMomentum m)
    (EarlyStopping m) (ValidationFraction m) (Beta1 m) (Beta2 m) (Epsilon m)
    (NIterNoChange m) (NLayers m) (NIter m) (NOutputs m) (Intercepts m)
    (Coefs m) (OutActivation m) (Loss m) v (LossCurve m)
    (ValidationScores m) (BestValidationScore m) (BestLoss m)
    (NoImprovementCount m) (optimizer m) (packedParameters m)
    (bestParameters m) (batchNorm m) (lb m).

Definition set_LossCurve (m : BaseMultilayerPerceptron64) (v : list float)
    : BaseMultilayerPerceptron64 :=
  mkMLP (Activation m) (Solver m) (Alpha m) (WeightDecay m) (BatchSize m)
    (BatchNormalize m) (LearningRate m) (LearningRateInit m) (PowerT m)
    (MaxIter m) (LossFuncName m) (HiddenLayerSizes m) (Shuffle m) (Tol m)
    (Verbose m) (WarmStart m) (Momentum m) (NesterovsMomentum m)
    (EarlyStopping m) (ValidationFraction m) (Beta1 m) (Beta2 m) (Epsilon m)
    (NIterNoChange m) (NLayers m) (NIter m) (NOutputs m) (Intercepts m)
    (Coefs m) (OutActivation m) (Loss m) (t m) v (ValidationScores m)
    (BestValidationScore m) (BestLoss m) (NoImprovementCount m)
    (optimizer m) (packedParameters m) (bestParameters m) (batchNorm m)
    (lb m).

Definition set_ValidationScores (m : BaseMultilayerPerceptron64) (v : list float)
    : BaseMultilayerPerceptron64 :=
  mkMLP (Activation m) (Solver m) (Alpha m) (WeightDecay m) (BatchSize m)
    (BatchNormalize m) (LearningRate m) (LearningRateInit m) (PowerT m)
    (MaxIter m) (LossFuncName m) (HiddenLayerSizes m) (Shuffle m) (Tol m)
    (Verbose m) (WarmStart m) (Momentum m) (NesterovsMomentum m)
    (EarlyStopping m) (ValidationFraction m) (Beta1 m) (Beta2 m) (Epsilon m)
    (NIterNoChange m) (NLayers m) (NIter m) (NOutputs m) (Intercepts m)
    (Coefs m) (OutActivation m) (Loss m) (t m) (LossCurve m) v
    (BestValidationScore m) (BestLoss m) (NoImprovementCount m)
    (optimizer m) (packedParameters m) (bestParameters m) (batchNorm m)
    (lb m).

Definition set_BestValidationScore (m : BaseMultilayerPerceptron64) (v : float)
    : BaseMultilayerPerceptron64 :=
  mkMLP (Activation m) (Solver m) (Alpha m) (WeightDecay m) (BatchSize m)
    (BatchNormalize m) (LearningRate m) (LearningRateInit m) (PowerT m)
    (MaxIter m) (LossFuncName m) (HiddenLayerSizes m) (Shuffle m) (Tol m)
    (Verbose m) (WarmStart m) (Momentum m) (NesterovsMomentum m)
    (EarlyStopping m) (ValidationFraction m) (Beta1 m) (Beta2 m) (Epsilon m)
    (NIterNoChange m) (NLayers m) (NIter m) (NOutputs m) (Intercepts m)
    (Coefs m) (OutActivation m) (Loss m) (t m) (LossCurve m)
    (ValidationScores m) v (BestLoss m) (NoImprovementCount m) (optimizer m)
    (packedParameters m) (bestParameters m) (batchNorm m) (lb m).

Definition set_BestLoss (m : BaseMultilayerPerceptron64) (v : float)
    : BaseMultilayerPerceptron64 :=
  mkMLP (Activation m) (Solver m) (Alpha m) (WeightDecay m) (BatchSize m)
    (BatchNormalize m) (LearningRate m) (LearningRateInit m) (PowerT m)
    (MaxIter m) (LossFuncName m) (HiddenLayerSizes m) (Shuffle m) (Tol m)
    (Verbose m) (WarmStart m) (Momentum m) (NesterovsMomentum m)
    (EarlyStopping m) (ValidationFraction m) (Beta1 m) (Beta2 m) (Epsilon m)
    (NIterNoChange m) (NLayers m) (NIter m) (NOutputs m) (Intercepts m)
    (Coefs m) (OutActivation m) (Loss m) (t m) (LossCurve m)
    (ValidationScores m) (BestValidationScore m) v (NoImprovementCount m)
    (optimizer m) (packedParameters m) (bestParameters m) (batchNorm m)
    (lb m).

Definition set_NoImprovementCount (m : BaseMultilayerPerceptron64) (v : nat)
    : BaseMultilayerPerceptron64 :=
  mkMLP (Activation m) (Solver m) (Alpha m) (WeightDecay m) (BatchSize m)
    (BatchNormalize m) (LearningRate m) (LearningRateInit m) (PowerT m)
    (MaxIter m) (LossFuncName m) (HiddenLayerSizes m) (Shuffle m) (Tol m)
    (Verbose m) (WarmStart m) (Momentum m) (NesterovsMomentum m)
    (EarlyStopping m) (ValidationFraction m) (Beta1 m) (Beta2 m) (Epsilon m)
    (NIterNoChange m) (NLayers m) (NIter m) (NOutputs m) (Intercepts m)
    (Coefs m) (OutActivation m) (Loss m) (t m) (LossCurve m)
    (ValidationScores m) (BestValidationScore m) (BestLoss m) v
    (optimizer m) (packedParameters m) (bestParameters m) (batchNorm m)
    (lb m).

Definition set_optimizer (m : BaseMultilayerPerceptron64) (v : option Optimizer64)
    : BaseMultilayerPerceptron64 :=
  mkMLP (Activation m) (Solver m) (Alpha m) (WeightDecay m) (BatchSize m)
    (BatchNormalize m) (LearningRate m) (LearningRateInit m) (PowerT m)
    (MaxIter m) (LossFuncName m) (HiddenLayerSizes m) (Shuffle m) (Tol m)
    (Verbose m) (WarmStart m) (Momentum m) (NesterovsMomentum m)
    (EarlyStopping m) (ValidationFraction m) (Beta1 m) (Beta2 m) (Epsilon m)
    (NIterNoChange m) (NLayers m) (NIter m) (NOutputs m) (Intercepts m)
    (Coefs m) (OutActivation m) (Loss m) (t m) (LossCurve m)
    (ValidationScores m) (BestValidationScore m) (BestLoss m)
    (NoImprovementCount m) v (packedParameters m) (bestParameters m)
    (batchNorm m) (lb m).

Definition set_packedParameters (m : BaseMultilayerPerceptron64) (v : list float)
    : BaseMultilayerPerceptron64 :=
  mkMLP (Activation m) (Solver m) (Alpha m) (WeightDecay m) (BatchSize m)
    (BatchNormalize m) (LearningRate m) (LearningRateInit m) (PowerT m)
    (MaxIter m) (LossFuncName m) (HiddenLayerSizes m) (Shuffle m) (Tol m)
    (Verbose m) (WarmStart m) (Momentum m) (NesterovsMomentum m)
    (EarlyStopping m) (ValidationFraction m) (Beta1 m) (Beta2 m) (Epsilon m)
    (NIterNoChange m) (NLayers m) (NIter m) (NOutputs m) (Intercepts m)
    (Coefs m) (OutActivation m) (Loss m) (t m) (LossCurve m)
    (ValidationScores m) (BestValidationScore m) (BestLoss m)
    (NoImprovementCount m) (optimizer m) v (bestParameters m) (batchNorm m)
    (lb m).

Definition set_bestParameters (m : BaseMultilayerPerceptron64) (v : list float)
    : BaseMultilayerPerceptron64 :=
  mkMLP (Activation m) (Solver m) (Alpha m) (WeightDecay m) (BatchSize m)
    (BatchNormalize m) (LearningRate m) (LearningRateInit m) (PowerT m)
    (MaxIter m) (LossFuncName m) (HiddenLayerSizes m) (Shuffle m) (Tol m)
    (Verbose m) (WarmStart m) (Momentum m) (NesterovsMomentum m)
    (EarlyStopping m) (ValidationFraction m) (Beta1 m) (Beta2 m) (Epsilon m)
    (NIterNoChange m) (NLayers m) (NIter m) (NOutputs m) (Intercepts m)
    (Coefs m) (OutActivation m) (Loss m) (t m) (LossCurve m)
    (ValidationScores m) (BestValidationScore m) (BestLoss m)
    (NoImprovementCount m) (optimizer m) (packedParameters m) v
    (batchNorm m) (lb m).

Definition set_batchNorm (m : BaseMultilayerPerceptron64) (v : list (list float))
    : BaseMultilayerPerceptron64 :=
  mkMLP (Activation m) (Solver m) (Alpha m) (WeightDecay m) (BatchSize m)
    (BatchNormalize m) (LearningRate m) (LearningRateInit m) (PowerT m)
    (MaxIter m) (LossFuncName m) (HiddenLayerSizes m) (Shuffle m) (Tol m)
    (Verbose m) (WarmStart m) (Momentum m) (NesterovsMomentum m)
    (EarlyStopping m) (ValidationFraction m) (Beta1 m) (Beta2 m) (Epsilon m)
    (NIterNoChange m) (NLayers m) (NIter m) (NOutputs m) (Intercepts m)
    (Coefs m) (OutActivation m) (Loss m) (t m) (LossCurve m)
    (ValidationScores m) (BestValidationScore m) (BestLoss m)
    (NoImprovementCount m) (optimizer m) (packedParameters m)
    (bestParameters m) v (lb m).

(** [NewBaseMultilayerPerceptron64]: the defaults; every other field has
    the zero value of its type.  A decimal constant denotes the nearest
    float64, in Go as here. *)
#[local] Set Warnings "-inexact-float".
Definition NewBaseMultilayerPerceptron64 : BaseMultilayerPerceptron64 :=
  {| Activation := "relu"; Solver := "adam"; Alpha := 0.0001;
     WeightDecay := 0; BatchSize := 200; BatchNormalize := false;
     LearningRate := "constant"; LearningRateInit := 0.001;
     PowerT := 0.5; MaxIter := 200; LossFuncName := "";
     HiddenLayerSizes := [100]; Shuffle := true; Tol := 0.0001;
     Verbose := false; WarmStart := false; Momentum := 0.9;
     NesterovsMomentum := true; EarlyStopping := false;
     ValidationFraction := 0.1; Beta1 := 0.9; Beta2 := 0.999;
     Epsilon := 0.00000001; NIterNoChange := 10;
     NLayers := 0; NIter := 0; NOutputs := 0; Intercepts := []; Coefs := [];
     OutActivation := ""; Loss := 0;
     t := 0; LossCurve := []; ValidationScores := [];
     BestValidationScore := 0; BestLoss := 0; NoImprovementCount := 0;
     optimizer := None; packedParameters := []; bestParameters := [];
     batchNorm := []; lb := None |}.

(** The layout [initialize] gives [packedParameters] (and [fit] gives
    [packedGrads]): [off] runs over the layers, the bias vector of
    [layerUnits[i+1]] entries first, the weight block of
    [layerUnits[i] * layerUnits[i+1]] entries after it. *)
Fixpoint layout (layerUnits : list nat) (off : nat)
    : list Span * list View :=
  match layerUnits with
  | fanIn :: ((fanOut :: _) as rest) =>
      let intercept := {| sOff := off; sLen := fanOut |} in
      let coef := {| vRows := fanIn; vCols := fanOut; vStride := fanOut;
                     vOff := off + fanOut; vLen := fanIn * fanOut |} in
      let (intercepts, coefs) := layout rest (off + fanOut + fanIn * fanOut) in
      (intercept :: intercepts, coef :: coefs)
  | _ => ([], [])
  end.

(** The buffers [fit] allocates and hands to [backprop]. *)
Record Buffers : Type := mkBuffers {
  activations : list blas64General;
  deltas : list blas64General;
  coefGrads : list View;
  interceptGrads : list Span;
  packedGrads : list float
}.

Definition set_packedGrads (b : Buffers) (g : list float) : Buffers :=
  {| activations := activations b; deltas := deltas b;
     coefGrads := coefGrads b; interceptGrads := interceptGrads b;
     packedGrads := g |}.

Definition set_activations (b : Buffers) (a : list blas64General) : Buffers :=
  {| activations := a; deltas := deltas b;
     coefGrads := coefGrads b; interceptGrads := interceptGrads b;
     packedGrads := packedGrads b |}.

Definition set_deltas (b : Buffers) (d : list blas64General) : Buffers :=
  {| activations := activations b; deltas := d;
     coefGrads := coefGrads b; interceptGrads := interceptGrads b;
     packedGrads := packedGrads b |}.

(** A loop over the elements of a slice that may panic. *)
Fixpoint foldM {A St : Type} (f : St -> A -> result St) (s : St) (l : list A)
    : result St :=
  match l with
  | [] => Ok s
  | a :: r => let* s := f s a in foldM f s r
  end.

Section Propagation.
Context (M64 : Externals).
Local Open Scope float_scope.

(** [forwardPass] *)
Definition forwardPass (mlp : BaseMultilayerPerceptron64)
    (activations : list blas64General) : result (list blas64General) :=
  let* activations :=
    for_range (NLayers mlp - 1) (fun i activations =>
      let* a := load activations i in
      let* cv := load (Coefs mlp) i in
      let* coef := view_matrix (packedParameters mlp) cv in
      let* a1 := load activations (i + 1) in
      let* d := gemm64 M64 NoTrans NoTrans 1 a coef 0 a1 in
      let a1 := with_Data a1 d in
      let* isp := load (Intercepts mlp) i in
      let* b := span_slice (packedParameters mlp) isp in
      let* a1 := addIntercepts64 a1 b in
      let* a1 := if (i + 1 =? NLayers mlp - 1)%nat then Ok a1
                 else call_activation M64 (Activation mlp) a1 in
      store activations (i + 1) a1) activations in
  (* i = mlp.NLayers - 2; outputActivation(activations[i+1]) *)
  if (NLayers mlp =? 0)%nat then Panic "index out of range"
  else
    let* a := load activations (NLayers mlp - 1) in
    let* a := call_activation M64 (OutActivation mlp) a in
    store activations (NLayers mlp - 1) a.

(** [batchNormalize]: returns [mlp.batchNorm] and the activations. *)
Definition batchNormalize (mlp : BaseMultilayerPerceptron64)
    (activations : list blas64General)
    : result (list (list float) * list blas64General) :=
  for_range (NLayers mlp - 2) (fun i '(bn, activations) =>
    let* activation := load activations (i + 1) in
    let* batchNorm := load bn i in
    let* (d, batchNorm) :=
      for_range (Cols activation) (fun o '(d, batchNorm) =>
        let* M := for_range (Rows activation) (fun r M =>
            let* v := load d (r * Stride activation + o)%nat in
            let a := F64.Abs v in
            Ok (if M <? a then a else M)) 0 in
        let* d :=
          if F64.gtb M 0 then
            for_range (Rows activation) (fun r d =>
              update_at (fun v => v / M) (r * Stride activation + o)%nat d) d
          else Ok d in
        let* batchNorm := store batchNorm o M in
        Ok (d, batchNorm)) (Data activation, batchNorm) in
    let* activations := store activations (i + 1) (with_Data activation d) in
    let* bn := store bn i batchNorm in
    Ok (bn, activations)) (batchNorm mlp, activations).

(** [batchNormalizeDeltas] *)
Definition batchNormalizeDeltas (deltas : blas64General)
    (batchNorm : list float) : result blas64General :=
  let* d := for_range (Rows deltas) (fun r d =>
      for_range (Cols deltas) (fun o d =>
        let* n := load batchNorm o in
        update_at (fun v => v / n) (r * Stride deltas + o)%nat d) d)
    (Data deltas) in
  Ok (with_Data deltas d).

(** [sumCoefSquares]: the loop runs over [mlp.Coefs] only. *)
Definition sumCoefSquares (mlp : BaseMultilayerPerceptron64) : result float :=
  foldM (fun s cv =>
    let* c := view_matrix (packedParameters mlp) cv in
    Ok (foldl (fun s co => s + co * co) s (Data c))) 0 (Coefs mlp).

(** [computeLossGrad]: returns [packedGrads], which holds the gradient
    blocks of every layer. *)
Definition computeLossGrad (mlp : BaseMultilayerPerceptron64)
    (layer NSamples : nat) (activations deltas : list blas64General)
    (b : Buffers) : result (list float) :=
  let grads := packedGrads b in
  let* a := load activations layer in
  let* dl := load deltas layer in
  let* gv := load (coefGrads b) layer in
  let* cg := view_matrix grads gv in
  let* d := gemm64 M64 Trans NoTrans (1 / F64.of_nat NSamples) a dl 0 cg in
  let grads := splice grads (vOff gv) d in
  let* cg := view_matrix grads gv in
  let* cv := load (Coefs mlp) layer in
  let* coef := view_matrix (packedParameters mlp) cv in
  let* d := axpy64 M64 (length (Data cg)) (Alpha mlp / F64.of_nat NSamples)
              (Data coef) (Data cg) in
  let grads := splice grads (vOff gv) d in
  let* dl := load deltas layer in
  let* isp := load (interceptGrads b) layer in
  let* ig := span_slice grads isp in
  let* ig := matRowMean64 dl ig in
  Ok (splice grads (sOff isp) ig).

(** The name [backprop] looks up in the loss registry. *)
Definition effective_loss_name (mlp : BaseMultilayerPerceptron64) : string :=
  if EqualFold (LossFuncName mlp) "log_loss"
     && EqualFold (OutActivation mlp) "logistic"
  then "binary_log_loss" else LossFuncName mlp.

(** [deltas[last] = activations[last] - y], over the rows and columns of
    [y] and with the stride of [y] for all three matrices. *)
Definition output_delta (y H D : blas64General) : result blas64General :=
  let* d := for_range (Rows y) (fun r d =>
      for_range (Cols y) (fun o d =>
        let posc := (r * Stride y + o)%nat in
        let* h := load (Data H) posc in
        let* yv := load (Data y) posc in
        store d posc (h - yv)) d) (Data D) in
  Ok (with_Data D d).

(** The weight decay at the head of [backprop]. *)
Definition decay (mlp : BaseMultilayerPerceptron64)
    : BaseMultilayerPerceptron64 :=
  if F64.gtb (WeightDecay mlp) 0 then
    set_packedParameters mlp
      (map (fun w => w * (1 - WeightDecay mlp)) (packedParameters mlp))
  else mlp.

(** The forward half of [backprop]: decay, forward pass, normalization. *)
Definition backprop_forward (mlp : BaseMultilayerPerceptron64) (b : Buffers)
    : result (BaseMultilayerPerceptron64 * list blas64General) :=
  let mlp := decay mlp in
  let* activations := forwardPass mlp (activations b) in
  if BatchNormalize mlp then
    let* (bn, activations) := batchNormalize mlp activations in
    Ok (set_batchNorm mlp bn, activations)
  else Ok (mlp, activations).

(** The backward half of [backprop]: the deltas and the gradients of every
    layer, from the last one down. *)
Definition backprop_backward (mlp : BaseMultilayerPerceptron64)
    (nSamples : nat) (y : blas64General) (b : Buffers) : result Buffers :=
  if (NLayers mlp <? 2)%nat then Panic "index out of range"
  else
    let last := (NLayers mlp - 2)%nat in
    let* H := load (activations b) (length (activations b) - 1) in
    let* D := load (deltas b) last in
    let* D := output_delta y H D in
    let* dls := store (deltas b) last D in
    let b := set_deltas b dls in
    let* grads := computeLossGrad mlp last nSamples (activations b) (deltas b) b in
    let b := set_packedGrads b grads in
    for_down (fun i b =>
      let* di := load (deltas b) i in
      let* cv := load (Coefs mlp) i in
      let* coef := view_matrix (packedParameters mlp) cv in
      let* dprev := load (deltas b) (i - 1) in
      let* d := gemm64 M64 NoTrans Trans 1 di coef 0 dprev in
      let dprev := with_Data dprev d in
      let* ai := load (activations b) i in
      let* dprev := call_derivative (Activation mlp) ai dprev in
      let* dprev :=
        if BatchNormalize mlp then
          let* bn := load (batchNorm mlp) (i - 1) in
          batchNormalizeDeltas dprev bn
        else Ok dprev in
      let* dls := store (deltas b) (i - 1) dprev in
      let b := set_deltas b dls in
      let* grads :=
        computeLossGrad mlp (i - 1) nSamples (activations b) (deltas b) b in
      Ok (set_packedGrads b grads)) (NLayers mlp - 2) b.

(** [backprop]: the loss, the perceptron (its parameters after the decay,
    its normalization scales) and the buffers. *)
Definition backprop (mlp : BaseMultilayerPerceptron64) (X y : blas64General)
    (b : Buffers)
    : result (float * BaseMultilayerPerceptron64 * Buffers) :=
  let nSamples := Rows X in
  let* (mlp, acts) := backprop_forward mlp b in
  let b := set_activations b acts in
  let* H := load acts (length acts - 1) in
  let* loss := call_loss M64 (effective_loss_name mlp) y H in
  let* s := sumCoefSquares mlp in
  let loss := loss + (0.5 * Alpha mlp) * s / F64.of_nat nSamples in
  let* b := backprop_backward mlp nSamples y b in
  Ok (loss, mlp, b).
End Propagation.

(** ** Prediction and scoring *)

Section Training.
Context (M64 : Externals).
Local Open Scope float_scope.

(** [toLogits64]: returns the data left in [ym]. *)
Definition toLogits64 (ym : blas64General) : result (list float) :=
  for_range (Rows ym) (fun i d =>
    let ypos := (i * Stride ym)%nat in
    if (Cols ym =? 1)%nat then
      update_at (fun v => if F64.gtb v 0.5 then 1 else 0) ypos d
    else
      let* row := slice d ypos (ypos + Cols ym) in
      let M := MaxIdx64 row in
      for_range (Cols ym) (fun c d =>
        store d (ypos + c)%nat (if (c =? M)%nat then 1 else 0)) d)
    (Data ym).

(** [r2Score64] *)
Definition r2Score64 (yTrue yPred : blas64General) : result float :=
  let* r2acc := for_range (Cols yTrue) (fun c r2acc =>
      let* yTrueAvg := for_range (Rows yTrue) (fun r avg =>
          let* v := load (Data yTrue) (r * Stride yTrue + c)%nat in
          Ok (avg + v)) 0 in
      let yTrueAvg := yTrueAvg / F64.of_nat (Rows yTrue) in
      let* (yNum, yDen) := for_range (Rows yTrue) (fun r '(yNum, yDen) =>
          let ypos := (r * Stride yTrue)%nat in
          let* p := load (Data yPred) (ypos + c)%nat in
          let* v := load (Data yTrue) (ypos + c)%nat in
          let e := p - v in
          let yNum := yNum + e * e in
          let e := v - yTrueAvg in
          Ok (yNum, yDen + e * e)) (0, 0) in
      if yDen =? 0 then Panic "yDen=0"
      else
        let r2 := 1 - yNum / yDen in
        Ok (r2acc + r2)) 0 in
  Ok (r2acc / F64.of_nat (Cols yTrue)).

(** [accuracyScore64] *)
Definition accuracyScore64 (Y H : blas64General) : result float :=
  let* N := for_range (Rows Y) (fun i N =>
      let* rowEq := for_range (Cols Y) (fun c (rowEq : bool) =>
          if rowEq then
            let* h := load (Data H) (i * Stride H + c)%nat in
            let* yv := load (Data Y) (i * Stride Y + c)%nat in
            Ok (h =? yv)
          else Ok false) true in
      Ok (if rowEq : bool then N + 1 else N)) 0 in
  Ok (N / F64.of_nat (Rows Y)).

(** [IsClassifier] *)
Definition IsClassifier (mlp : BaseMultilayerPerceptron64) : bool :=
  negb (String.eqb (LossFuncName mlp) "square_loss").

(** [predictProbas]: [activations[0]] is [X] and the last of the
    activations is [Y]; the forward pass writes through both slices (the
    output activation rewrites [activations[NLayers-1]], which is [X] when
    [NLayers] is 1).  Returns the data left in [X] and the data left in
    [Y]. *)
Definition predictProbas (mlp : BaseMultilayerPerceptron64)
    (X Y : blas64General) : result (list float * list float) :=
  let layerUnits := Cols X :: HiddenLayerSizes mlp ++ [NOutputs mlp] in
  let n := length layerUnits in
  let acts :=
    X :: imap (fun i nFanOut =>
           if (i =? n - 2)%nat then Y
           else {| Rows := Rows X; Cols := nFanOut; Stride := nFanOut;
                   Data := make (Rows X * nFanOut) |}) (tail layerUnits) in
  let* acts := forwardPass M64 mlp acts in
  let* Xout := load acts 0 in
  let* Yout := load acts (n - 1) in
  Ok (Data Xout, Data Yout).

(** [predict]: returns the data left in the slice of [X] and in the slice
    of [Y]. *)
Definition predict (mlp : BaseMultilayerPerceptron64) (X Y : blas64General)
    : result (list float * list float) :=
  match lb mlp with
  | None =>
      let* (dX, d) := predictProbas mlp X Y in
      if IsClassifier mlp then
        let* d := toLogits64 (with_Data Y d) in Ok (dX, d)
      else Ok (dX, d)
  | Some binarizer =>
      let* ybin := LabelBinarizer64.Transform binarizer Y in
      let* (dX, d) := predictProbas mlp X ybin in
      let* Yclasses :=
        LabelBinarizer64.InverseTransform binarizer (with_Data ybin d) in
      let* d := General64_Copy M64 Y Yclasses in
      Ok (dX, d)
  end.

(** [score]: the score, and the data [predict] left in the slice of
    [X]. *)
Definition score (mlp : BaseMultilayerPerceptron64) (X Y : blas64General)
    : result (float * list float) :=
  let H := {| Rows := Rows Y; Cols := Cols Y; Stride := Stride Y;
              Data := make (length (Data Y)) |} in
  let* (dX, d) := predict mlp X H in
  let H := with_Data H d in
  let* s :=
    if negb (String.eqb (LossFuncName mlp) "square_loss") then
      accuracyScore64 Y H
    else r2Score64 Y H in
  Ok (s, dX).

(** ** The stochastic training loop *)

(** Modelled from the spec: [indexedXY] with [general64FastSwap], the joint
    permutation of the rows of the inputs and of the targets that records
    itself in [idx] so that sorting [idx] restores the rows (section 4.6,
    ShuffleEpoch): [Swap] exchanges two entries of [idx] and the two rows of
    [X] and of [Y]; [Less] compares the entries of [idx]. *)
Record indexedXY : Type := mkIndexedXY {
  idx : list nat;
  iX : blas64General;
  iY : blas64General
}.

(** Modelled from the spec: [general64FastSwap(z).Swap(i, j)], the exchange
    of rows [i] and [j] of a matrix, cell by cell. *)
Definition swap_rows (z : blas64General) (i j : nat) : result blas64General :=
  let* d := for_range (Cols z) (fun c d =>
      let* vi := load d (i * Stride z + c)%nat in
      let* vj := load d (j * Stride z + c)%nat in
      let* d := store d (i * Stride z + c)%nat vj in
      store d (j * Stride z + c)%nat vi) (Data z) in
  Ok (with_Data z d).

(** Modelled from the spec: [indexedXY.Swap], the joint exchange in [idx],
    [X] and [Y]. *)
Definition indexedXY_Swap (s : indexedXY) (i j : nat) : result indexedXY :=
  let* idx := swap_entries (idx s) i j in
  let* X := swap_rows (iX s) i j in
  let* Y := swap_rows (iY s) i j in
  Ok {| idx := idx; iX := X; iY := Y |}.

(** Modelled from the spec: [indexedXY.Less], the order of the entries of
    [idx], which sorting restores. *)
Definition indexedXY_Less (s : indexedXY) (i j : nat) : result bool :=
  let* a := load (idx s) i in
  let* b := load (idx s) j in
  Ok (a <? b)%nat.

(** [rndShuffle(n, swap)] calls [swap] on pairs of indices drawn from the
    random source: the source is the function that gives, for the number of
    the call and [n], the pairs of that call. *)
Definition RandomState : Type := nat -> nat -> list (nat * nat).

Definition shuffle (rnd : RandomState) (call n : nat) (s : indexedXY)
    : result indexedXY :=
  foldM (fun s '(i, j) => indexedXY_Swap s i j) s (rnd call n).

(** [copy(dst, src)] *)
Definition copy (dst src : list float) : list float :=
  take (length dst) src ++ drop (length src) dst.

(** The optimizer [fitStochastic] builds for the solver. *)
Definition new_optimizer (mlp : BaseMultilayerPerceptron64)
    : option Optimizer64 :=
  if String.eqb (Solver mlp) "sgd" then
    Some (OptSGD {| SGDOptimizer64.LearningRateInit := LearningRateInit mlp;
                    SGDOptimizer64.LearningRate := LearningRateInit mlp;
                    SGDOptimizer64.LRSchedule := LearningRate mlp;
                    SGDOptimizer64.PowerT := PowerT mlp;
                    SGDOptimizer64.Momentum := Momentum mlp;
                    SGDOptimizer64.Nesterov := NesterovsMomentum mlp;
                    SGDOptimizer64.velocities := None |})
  else if String.eqb (Solver mlp) "adam" then
    Some (OptAdam {| AdamOptimizer64.LearningRateInit := LearningRateInit mlp;
                     AdamOptimizer64.LearningRate := LearningRateInit mlp;
                     AdamOptimizer64.Beta1 := Beta1 mlp;
                     AdamOptimizer64.Beta2 := Beta2 mlp;
                     AdamOptimizer64.Epsilon := Epsilon mlp;
                     AdamOptimizer64.t := 0;
                     AdamOptimizer64.ms := []; AdamOptimizer64.vs := [];
                     AdamOptimizer64.beta1t := 0;
                     AdamOptimizer64.beta2t := 0 |})
  else optimizer mlp.

(** A method call on [mlp.optimizer]; the nil interface panics. *)
Definition the_optimizer (mlp : BaseMultilayerPerceptron64)
    : result Optimizer64 :=
  match optimizer mlp with
  | Some o => Ok o
  | None => call_nil
  end.

(** The batches of one sweep over [n] rows:
    [for batch := [2]int{0, batchSize}; batch[0] < n;
         batch = [2]int{batch[1], batch[1] + batchSize}]
    with [batch[1]] cut down to [n]; [batchSize] is positive. *)
Fixpoint batches_from (fuel lo batchSize n : nat) : list (nat * nat) :=
  match fuel with
  | O => []
  | S fuel' =>
      if (lo <? n)%nat then
        let hi := Nat.min (lo + batchSize) n in
        (lo, hi) :: batches_from fuel' hi batchSize n
      else []
  end.

Definition batches (batchSize n : nat) : list (nat * nat) :=
  batches_from n 0 batchSize n.

(** What the training loop carries from batch to batch. *)
Record fit_state : Type := mkFit {
  f_mlp : BaseMultilayerPerceptron64;
  f_data : indexedXY;
  f_buffers : Buffers
}.

(** The body of the loop over the batches: one batch, from row [lo] to row
    [hi - 1]. *)
Definition batch_step (lo hi : nat) (acc : float * fit_state)
    : result (float * fit_state) :=
  let '(accumulatedLoss, st) := acc in
  let* Xbatch := RowSlice (iX (f_data st)) lo hi in
  let* Ybatch := RowSlice (iY (f_data st)) lo hi in
  let* acts := store (activations (f_buffers st)) 0 Xbatch in
  (* [for _, a := range activations { a.Rows = Xbatch.Rows }] assigns to the
     loop variable, a copy: the activations keep their row counts.
     [activations[0]] is the batch, a view on [X]: [backprop] writes to it
     only when [NLayers] is 1, and then panics at [deltas[NLayers-2]]; a
     batch that returns has left [X] as it was. *)
  let b := set_activations (f_buffers st) acts in
  let* (batchLoss, mlp, b) := backprop M64 (f_mlp st) Xbatch Ybatch b in
  let accumulatedLoss := accumulatedLoss + batchLoss * F64.of_nat (hi - lo) in
  let* o := the_optimizer mlp in
  let* (o, params) := updateParams o (packedGrads b) (packedParameters mlp) in
  let mlp := set_optimizer (set_packedParameters mlp params) (Some o) in
  Ok (accumulatedLoss,
      {| f_mlp := mlp; f_data := f_data st; f_buffers := b |}).

(** The sweep over the [trainRows] rows that are not held out.  A batch
    size of zero makes no progress: the loop does not return. *)
Definition minibatch_sweep (batchSize : Z) (trainRows : nat) (st : fit_state)
    : result (float * fit_state) :=
  if (trainRows =? 0)%nat then Ok (0, st)
  else if (batchSize <? 0)%Z then Panic "index out of range"
  else if (batchSize =? 0)%Z then Diverge
  else foldM (fun acc '(lo, hi) => batch_step lo hi acc) (0, st)
         (batches (Z.to_nat batchSize) trainRows).

(** [updateNoImprovementCount]: the perceptron, and the data the scoring
    left in the slice of [XVal]. *)
Definition updateNoImprovementCount (mlp : BaseMultilayerPerceptron64)
    (earlyStopping : bool) (XVal yVal : blas64General)
    : result (BaseMultilayerPerceptron64 * list float) :=
  let* (mlp, dXVal) :=
    if earlyStopping then
      let* (lastValidScore, dXVal) := score mlp XVal yVal in
      let mlp := set_ValidationScores mlp
                   (ValidationScores mlp ++ [lastValidScore]) in
      let mlp :=
        if lastValidScore <? BestValidationScore mlp + Tol mlp then
          set_NoImprovementCount mlp (NoImprovementCount mlp + 1)
        else set_NoImprovementCount mlp 0 in
      if F64.gtb lastValidScore (BestValidationScore mlp) then
        Ok (set_bestParameters
              (set_BestValidationScore mlp lastValidScore)
              (copy (bestParameters mlp) (packedParameters mlp)), dXVal)
      else Ok (mlp, dXVal)
    else Ok (mlp, Data XVal) in
  let* lastLoss := load (LossCurve mlp) (length (LossCurve mlp) - 1) in
  let mlp :=
    if negb earlyStopping then
      if F64.gtb lastLoss (BestLoss mlp - Tol mlp) then
        set_NoImprovementCount mlp (NoImprovementCount mlp + 1)
      else set_NoImprovementCount mlp 0
    else mlp in
  Ok (if lastLoss <? BestLoss mlp then set_BestLoss mlp lastLoss else mlp,
      dXVal).

(** The stopping check at the end of an epoch: the new perceptron and
    whether the loop breaks. *)
Definition check_stopping (mlp : BaseMultilayerPerceptron64)
    (earlyStopping : bool) : result (BaseMultilayerPerceptron64 * bool) :=
  if (NIterNoChange mlp <? Z.of_nat (NoImprovementCount mlp))%Z then
    let msg :=
      if earlyStopping then "Validation score did not improve"
      else "Training loss did not improve" in
    let* o := the_optimizer mlp in
    let (isStopping, o) := triggerStopping o msg (Verbose mlp) in
    let mlp := set_optimizer mlp (Some o) in
    if isStopping then Ok (mlp, true)
    else Ok (set_NoImprovementCount mlp 0, false)
  else Ok (mlp, false).

(** The data after a write through the view [X.RowSlice(lo, nSamples)]:
    [d] is what the view holds. *)
Definition held_out_written (s : indexedXY) (lo : nat) (d : list float)
    : indexedXY :=
  {| idx := idx s;
     iX := with_Data (iX s) (splice (Data (iX s)) (lo * Stride (iX s)) d);
     iY := iY s |}.

(** One round of [for it := 0; it < mlp.MaxIter; it++]. *)
Definition epoch (rndShuffle : RandomState) (earlyStopping incremental : bool)
    (nSamples testSize : nat) (it : nat) (st : fit_state)
    : result (fit_state * bool) :=
  let* data :=
    if Shuffle (f_mlp st) then shuffle rndShuffle it nSamples (f_data st)
    else Ok (f_data st) in
  let st := {| f_mlp := f_mlp st; f_data := data;
               f_buffers := f_buffers st |} in
  let* (accumulatedLoss, st) :=
    minibatch_sweep (BatchSize (f_mlp st)) (nSamples - testSize) st in
  let mlp := f_mlp st in
  let mlp := set_NIter mlp (NIter mlp + 1) in
  let mlp := set_Loss mlp (accumulatedLoss / F64.of_nat nSamples) in
  let mlp := set_t mlp (t mlp + nSamples) in
  let mlp := set_LossCurve mlp (LossCurve mlp ++ [Loss mlp]) in
  let* XVal := RowSlice (iX (f_data st)) (nSamples - testSize) nSamples in
  let* yVal := RowSlice (iY (f_data st)) (nSamples - testSize) nSamples in
  let* (mlp, dXVal) := updateNoImprovementCount mlp earlyStopping XVal yVal in
  (* [XVal] is a view on the held-out rows of [X]: what the scoring left in
     it is in [X]. *)
  let data := held_out_written (f_data st) (nSamples - testSize) dXVal in
  let* o := the_optimizer mlp in
  let mlp :=
    set_optimizer mlp (Some (iterationEnds M64 o (F64.of_nat (t mlp)))) in
  let* (mlp, stop) := check_stopping mlp earlyStopping in
  let st := {| f_mlp := mlp; f_data := data;
               f_buffers := f_buffers st |} in
  Ok (st, stop || incremental).

(** [fitStochastic]: the perceptron, the matrices [X] and [y] as the caller
    sees them afterwards, and the buffers. *)
Definition fitStochastic (rndShuffle : RandomState)
    (mlp : BaseMultilayerPerceptron64) (X y : blas64General) (b : Buffers)
    (incremental : bool) : result fit_state :=
  let mlp :=
    if negb incremental || negb (bool_decide (is_Some (optimizer mlp))) then
      set_optimizer mlp (new_optimizer mlp)
    else mlp in
  let earlyStopping := EarlyStopping mlp && negb incremental in
  let nSamples := Rows X in
  let* (testSize, mlp) :=
    if earlyStopping then
      let testSize :=
        F64.ceil_int (ValidationFraction mlp * F64.of_nat nSamples) in
      if ((0 <=? testSize) && (testSize <=? Z.of_nat nSamples))%Z then
        Ok (Z.to_nat testSize,
            set_bestParameters mlp (make (length (packedParameters mlp))))
      else Panic "index out of range"
    else Ok (0%nat, mlp) in
  let st := {| f_mlp := mlp;
               f_data := {| idx := seq 0 nSamples; iX := X; iY := y |};
               f_buffers := b |} in
  let* st :=
    for_break (epoch rndShuffle earlyStopping incremental nSamples testSize)
      0 (Z.to_nat (MaxIter mlp)) st in
  let mlp := f_mlp st in
  let mlp :=
    if earlyStopping then
      set_packedParameters mlp
        (copy (packedParameters mlp) (bestParameters mlp))
    else mlp in
  let* data :=
    if Shuffle mlp then
      sort_Sort indexedXY_Less indexedXY_Swap (length (idx (f_data st)))
        (f_data st)
    else Ok (f_data st) in
  Ok {| f_mlp := mlp; f_data := data; f_buffers := f_buffers st |}.
End Training.

(** ** The buffers of [fit] and reference kernels *)

(** The activations and deltas [fit] allocates: one matrix of [batchSize]
    rows for every layer after the input, [activations[0]] being [X]. *)
Definition fit_buffers (X : blas64General) (batchSize : nat)
    (layerUnits : list nat) : Buffers :=
  let layer nFanOut :=
    {| Rows := batchSize; Cols := nFanOut; Stride := nFanOut;
       Data := make (batchSize * nFanOut) |} in
  let (interceptGrads, coefGrads) := layout layerUnits 0 in
  {| activations := X :: map layer (tail layerUnits);
     deltas := map layer (tail layerUnits);
     coefGrads := coefGrads;
     interceptGrads := interceptGrads;
     packedGrads :=
       make (foldr (fun v n => (sLen v + n)%nat) 0%nat interceptGrads
             + foldr (fun v n => (vLen v + n)%nat) 0%nat coefGrads) |}.

Definition entry (t : Transpose) (A : blas64General) (i j : nat)
    : result float :=
  match t with
  | NoTrans => load (Data A) (i * Stride A + j)
  | Trans => load (Data A) (j * Stride A + i)
  end.

(** Modelled from the spec: [gemm64], the matrix multiply of section 6
    (optionally transposing either operand) into a preallocated
    destination, [C = alpha * op(A) * op(B) + beta * C]; the sums run in
    the order of the inner index. *)
Definition gemm64_reference (tA tB : Transpose) (alpha : float)
    (A B : blas64General) (beta : float) (C : blas64General)
    : result (list float) :=
  let m := match tA with NoTrans => Rows A | Trans => Cols A end in
  let k := match tA with NoTrans => Cols A | Trans => Rows A end in
  let n := match tB with NoTrans => Cols B | Trans => Rows B end in
  for_range m (fun i d =>
    for_range n (fun j d =>
      let* sum := for_range k (fun l sum =>
          let* a := entry tA A i l in
          let* b := entry tB B l j in
          Ok (sum + a * b)%float) 0%float in
      let* c := load d (i * Stride C + j) in
      store d (i * Stride C + j)
        (if (beta =? 0)%float then alpha * sum
         else alpha * sum + beta * c)%float) d) (Data C).

(** Modelled from the spec: [axpy64], the scaled in-place accumulate
    [y += alpha * x] of section 6 over the first [n] entries. *)
Definition axpy64_reference (n : nat) (alpha : float) (x y : list float)
    : result (list float) :=
  for_range n (fun i y =>
    let* xi := load x i in
    update_at (fun yi => yi + alpha * xi)%float i y) y.

(** Modelled from the spec: [General64.Copy], filling the receiver with the
    entries of the source. *)
Definition Copy_reference (dst src : blas64General) : result (list float) :=
  for_range (Rows src) (fun r d =>
    for_range (Cols src) (fun c d =>
      let* v := load (Data src) (r * Stride src + c) in
      store d (r * Stride dst + c) v) d) (Data dst).

(** The reference kernels, for running the embedding on concrete inputs.
    The functions of [M64] that the embedding does not fix are NaN here: a
    run that calls one of them shows it in its result. *)
Definition reference : Externals :=
  {| Exp := fun _ => nan; Log := fun _ => nan; Log1p := fun _ => nan;
     Tanh := fun _ => nan; Pow := fun _ _ => nan;
     gemm64 := gemm64_reference; axpy64 := axpy64_reference;
     General64_Copy := Copy_reference |}.

(** ** Notions the properties are stated with *)

(** The data of a matrix of [R] rows and [C] columns reaches its last
    cell. *)
Definition holds (R C : nat) (m : blas64General) : Prop :=
  R = 0 \/ (R - 1) * Stride m + C <= length (Data m).

(** The cells the nested loops over a matrix of [C] columns have written
    when they stand at row [r], column [c]. *)
Definition visited (C r c r' c' : nat) : Prop :=
  c' < C /\ (r' < r \/ (r' = r /\ c' < c)).

(** The slice [d] when the loops that rewrite every cell of an [R] by [C]
    matrix of stride [St] with [fn] stand at row [r], column [c]; [d0] is
    the slice they started from. *)
Definition updated_upto (R C W : nat) (fn : nat -> nat -> float -> float)
    (d0 : list float) (r c : nat) (d : list float) : Prop :=
  length d = length d0 /\
  (forall r' c', r' < R -> visited C r c r' c' ->
     d !! (r' * W + c') = fn r' c' <$> d0 !! (r' * W + c')) /\
  (forall p, (forall r' c', r' < R -> visited C r c r' c' ->
                p <> r' * W + c') ->
     d !! p = d0 !! p).

(** The learning rate of section 4.5 at step [t], its powers being running
    products that grow once per step. *)
Definition running_power (beta : float) (t : nat) : float :=
  Nat.iter t (fun p => p * beta)%float 1%float.

Definition rate_of_step (o : AdamOptimizer64.opt) (t : nat) : float :=
  (AdamOptimizer64.LearningRateInit o
   * F64.Sqrt (1 - running_power (AdamOptimizer64.Beta2 o) t)
   / (1 - running_power (AdamOptimizer64.Beta1 o) t))%float.

(** The weight coefficients: the entries of [packedParameters] the views in
    [Coefs] cover, layer after layer. *)
Definition weights (mlp : BaseMultilayerPerceptron64) : list float :=
  flat_map (fun cv => take (vLen cv) (drop (vOff cv) (packedParameters mlp)))
           (Coefs mlp).

Definition sum_of_squares (l : list float) : float :=
  foldl (fun s co => s + co * co)%float 0%float l.

(** What [fitStochastic] keeps true of the rows while it shuffles them:
    row [k] of the matrix is row [idx[k]] of the matrix the caller passed,
    and nothing else in the slice has changed. *)
Definition rows_follow (n : nat) (Z0 Z : blas64General) (l : list nat) : Prop :=
  Rows Z = Rows Z0 /\ Cols Z = Cols Z0 /\ Stride Z = Stride Z0 /\
  length (Data Z) = length (Data Z0) /\
  (forall k r c, l !! k = Some r -> c < Cols Z0 ->
     Data Z !! (k * Stride Z0 + c) = Data Z0 !! (r * Stride Z0 + c)) /\
  (forall p, (forall k c, k < n -> c < Cols Z0 -> p <> k * Stride Z0 + c) ->
     Data Z !! p = Data Z0 !! p).

Definition shuffled (X y : blas64General) (s : indexedXY) : Prop :=
  idx s ≡ₚ seq 0 (Rows X) /\
  rows_follow (Rows X) X (iX s) (idx s) /\
  rows_follow (Rows X) y (iY s) (idx s).

(** The fields of the perceptron that the bookkeeping at the end of an
    epoch leaves alone. *)
Definition same_record (m m' : BaseMultilayerPerceptron64) : Prop :=
  Shuffle m' = Shuffle m /\ Loss m' = Loss m /\ LossCurve m' = LossCurve m.

(** The rows a list of batches covers, and the sum the sweep accumulates
    from the losses of the batches. *)
Definition batch_rows (l : list (nat * nat)) : nat :=
  foldr (fun '(lo, hi) n => hi - lo + n) 0 l.

Definition weighted_loss (acc : float) (l : list (float * (nat * nat)))
    : float :=
  foldl (fun acc '(loss, (lo, hi)) => acc + loss * F64.of_nat (hi - lo))%float
        acc l.

(** The entries up to position [m] are in order. *)
Definition ordered_upto (m : nat) (l : list nat) : Prop :=
  forall a b x y, a < b -> b <= m ->
    l !! a = Some x -> l !! b = Some y -> x <= y.

(** The state of the inner loop of the insertion sort: the entries up to
    [i] are in order but for the entry at [j], which is not above those
    that follow it. *)
Definition insert_ready (i j : nat) (l : list nat) : Prop :=
  (forall a b x y, a < b -> b <= i -> a <> j -> b <> j ->
     l !! a = Some x -> l !! b = Some y -> x <= y) /\
  (forall b x y, j < b -> b <= i ->
     l !! j = Some x -> l !! b = Some y -> x <= y).

(** The classes of a column are pairwise different under Go's [==]. *)
Definition distinct_labels (l : list float) : Prop :=
  forall a b x y, a <> b -> l !! a = Some x -> l !! b = Some y ->
    (x =? y)%float = false.

(** Row [i] of a block of [K] columns holds [pos] at column [c] and [0]
    in the other columns. *)
Definition one_hot (K : nat) (pos : float) (d : list float) (i c : nat)
    : Prop :=
  d !! (i * K + c) = Some pos /\
  forall c', c' < K -> c' <> c -> d !! (i * K + c') = Some 0%float.

(** The state in which a fit that is not incremental enters its loop of
    epochs: the optimizer is the one the solver names, [bestParameters] is
    allocated when early stopping is on, the index is in order. *)
Definition first_epoch_state (mlp : BaseMultilayerPerceptron64)
    (X y : blas64General) (b : Buffers) : fit_state :=
  let mlp := set_optimizer mlp (new_optimizer mlp) in
  {| f_mlp := if EarlyStopping mlp then
                set_bestParameters mlp (make (length (packedParameters mlp)))
              else mlp;
     f_data := {| idx := seq 0 (Rows X); iX := X; iY := y |};
     f_buffers := b |}.

(** A fit that is not incremental has run the epochs [rounds] (the state
    after each of them) and returned [st]: the loop broke after an epoch
    exactly when that epoch ended with the no-improvement counter above
    [NIterNoChange]; only the last epoch can have broken it, and a loop
    that ended before [MaxIter] epochs was broken. *)
Definition halts_on_patience (M64 : Externals) (rnd : RandomState)
    (mlp : BaseMultilayerPerceptron64) (X y : blas64General) (b : Buffers)
    (st : fit_state) (rounds : list fit_state) : Prop :=
  let first := first_epoch_state mlp X y b in
  length rounds <= Z.to_nat (MaxIter mlp) /\
  (exists testSize, forall i u u',
     (first :: rounds) !! i = Some u -> rounds !! i = Some u' ->
     exists stop,
       epoch M64 rnd (EarlyStopping mlp) false (Rows X) testSize i u
       = Ok (u', stop) /\
       stop = (NIterNoChange mlp
               <? Z.of_nat (NoImprovementCount (f_mlp u')))%Z /\
       (stop = true -> S i = length rounds)) /\
  (length rounds < Z.to_nat (MaxIter mlp) ->
   exists u, last rounds = Some u /\
     (NIterNoChange mlp < Z.of_nat (NoImprovementCount (f_mlp u)))%Z) /\
  NIter (f_mlp st) = NIter mlp + length rounds /\
  exists u, last (first :: rounds) = Some u /\
    NoImprovementCount (f_mlp st) = NoImprovementCount (f_mlp u) /\
    f_buffers st = f_buffers u.

(** ** Sample inputs *)

Section Samples.
Local Open Scope float_scope.

(** A perceptron as [fit] hands it to [fitStochastic] after [initialize]:
    regression with one input, one output and no hidden layer, parameters
    [bias; weight] drawn as 0.5 and 0.5. *)
Definition sample_regressor (solver : string) (earlyStopping shuffle : bool)
    (tol : float) (maxIter nIterNoChange : Z) : BaseMultilayerPerceptron64 :=
  {| Activation := "relu"; Solver := solver; Alpha := 0;
     WeightDecay := 0; BatchSize := 2; BatchNormalize := false;
     LearningRate := "constant"; LearningRateInit := 0.5;
     PowerT := 0.5; MaxIter := maxIter; LossFuncName := "square_loss";
     HiddenLayerSizes := []; Shuffle := shuffle; Tol := tol;
     Verbose := false; WarmStart := false; Momentum := 0;
     NesterovsMomentum := false; EarlyStopping := earlyStopping;
     ValidationFraction := 0.5; Beta1 := 0.5; Beta2 := 0.5;
     Epsilon := 0.5; NIterNoChange := nIterNoChange;
     NLayers := 2; NIter := 0; NOutputs := 1;
     Intercepts := fst (layout [1; 1]%nat 0);
     Coefs := snd (layout [1; 1]%nat 0);
     OutActivation := "identity"; Loss := 0;
     t := 0; LossCurve := []; ValidationScores := [];
     BestValidationScore := 0; BestLoss := F64.Inf; NoImprovementCount := 0;
     optimizer := None; packedParameters := [0.5; 0.5]; bestParameters := [];
     batchNorm := []; lb := None |}.

(** Four samples of one feature and their targets. *)
Definition sample_X : blas64General := mkGeneral 4 1 1 [0; 1; 1; 0].
Definition sample_y : blas64General := mkGeneral 4 1 1 [0; 1; 0; 1].

Definition sample_buffers : Buffers := fit_buffers sample_X 2 [1; 1]%nat.

(** A random source that makes the same three swaps at every call, and one
    that makes none. *)
Definition sample_shuffle : RandomState :=
  fun _ _ => [(3, 1); (2, 0); (1, 1)]%nat.
Definition no_shuffle : RandomState := fun _ _ => [].

(** An Adam optimizer before its first step. *)
Definition sample_adam : AdamOptimizer64.opt :=
  {| AdamOptimizer64.LearningRateInit := 1;
     AdamOptimizer64.LearningRate := 1;
     AdamOptimizer64.Beta1 := 0.5; AdamOptimizer64.Beta2 := 0;
     AdamOptimizer64.Epsilon := 0x1p-20;
     AdamOptimizer64.t := 0;
     AdamOptimizer64.ms := []; AdamOptimizer64.vs := [];
     AdamOptimizer64.beta1t := 0; AdamOptimizer64.beta2t := 0 |}.
(** The state [fitStochastic] starts its epochs from, for the sample
    regressor with early stopping: the optimizer is built and
    [bestParameters] is a fresh slice. *)
Definition early_stopping_start : fit_state :=
  let mlp := sample_regressor "sgd" true false 0 3 10 in
  {| f_mlp := set_bestParameters (set_optimizer mlp (new_optimizer mlp))
                (make 2);
     f_data := {| idx := seq 0 4; iX := sample_X; iY := sample_y |};
     f_buffers := sample_buffers |}.

(** The first batch of the sample regressor: two rows. *)
Definition sample_batch_X : blas64General := mkGeneral 2 1 1 [0; 1].
Definition sample_batch_y : blas64General := mkGeneral 2 1 1 [0; 1].
Definition sample_batch_buffers : Buffers :=
  fit_buffers sample_batch_X 2 [1; 1]%nat.

(** Targets whose first entry is [2^600]: the square of the first error
    exceeds the largest float64. *)
Definition huge_batch_y : blas64General := mkGeneral 2 1 1 [0x1p+600; 1].
Definition huge_y : blas64General := mkGeneral 4 1 1 [0x1p+600; 1; 0; 1].

(** The first batch of the fit on [huge_y]: the registry loss is +Inf. *)
Definition huge_start : fit_state :=
  let mlp := sample_regressor "sgd" false false 0 3 10 in
  {| f_mlp := set_optimizer mlp (new_optimizer mlp);
     f_data := {| idx := seq 0 4; iX := sample_X; iY := huge_y |};
     f_buffers := sample_buffers |}.
End Samples.
(** ** Further functions of the package *)

(** [isBinarized64]: [return false] inside the loops leaves both of them;
    the state of the loops is the answer so far. *)
Definition isBinarized64 (yb : blas64General) : result bool :=
  for_break (fun r (_ : bool) =>
    let* ok := for_break (fun c (_ : bool) =>
        let* v := load (Data yb) (r * Stride yb + c) in
        if F64.neqb v 0 && F64.neqb v 1 then Ok (false, true)
        else Ok (true, false)) 0 (Cols yb) true in
    Ok (ok, negb ok)) 0 (Rows yb) true.

(** A cell that holds 0 or 1, as [isBinarized64] tests it with [==]. *)
Definition binary_cell (d : list float) (p : nat) : Prop :=
  exists v, d !! p = Some v /\
            ((v =? 0)%float = true \/ (v =? 1)%float = true).

(** [validateHyperparameters]: the checks in the order of the source; each
    [log.Panicf] is a panic, of whose message the embedding keeps the words
    that name the failed check. *)
Definition validateHyperparameters (M64 : Externals)
    (mlp : BaseMultilayerPerceptron64) : result unit :=
  if (MaxIter mlp <=? 0)%Z then Panic "maxIter must be > 0"
  else if (Alpha mlp <? 0)%float then Panic "alpha must be >= 0"
  else if (LearningRateInit mlp <=? 0)%float then
    Panic "learningRateInit must be > 0"
  else if F64.gtb (Momentum mlp) 1 || (Momentum mlp <? 0)%float then
    Panic "momentum must be >= 0 and <= 1"
  else if (ValidationFraction mlp <? 0)%float
          || F64.geb (ValidationFraction mlp) 1 then
    Panic "validationFraction must be >= 0 and < 1"
  else if (Beta1 mlp <? 0)%float || F64.geb (Beta1 mlp) 1 then
    Panic "beta_1 must be >= 0 and < 1"
  else if (Beta2 mlp <? 0)%float || F64.geb (Beta2 mlp) 1 then
    Panic "beta_2 must be >= 0 and < 1"
  else if (Epsilon mlp <=? 0)%float then Panic "epsilon must be > 0"
  else if (NIterNoChange mlp <=? 0)%Z then Panic "nIterNoChange must be > 0"
  else
    match Activations64 M64 (Activation mlp) with
    | None => Panic "The activation is not supported"
    | Some _ =>
        if negb (String.eqb (LearningRate mlp) "constant"
                 || String.eqb (LearningRate mlp) "invscaling"
                 || String.eqb (LearningRate mlp) "adaptive") then
          Panic "learning rate is not supported"
        else if negb (String.eqb (Solver mlp) "sgd"
                      || String.eqb (Solver mlp) "adam"
                      || String.eqb (Solver mlp) "lbfgs") then
          Panic "The solver is not supported"
        else Ok tt
    end.

(** The size [initialize] computes for [packedParameters]:
    [off += (1 + layerUnits[i]) * layerUnits[i+1]] over the layers. *)
Fixpoint packed_size (layerUnits : list nat) : nat :=
  match layerUnits with
  | fanIn :: ((fanOut :: _) as rest) =>
      (1 + fanIn) * fanOut + packed_size rest
  | _ => 0
  end.

(** The values [initialize] draws: [mem[pos] = rndFloat64() * initBound]
    for [pos] from the start of the block of a layer to its end, layer
    after layer, so that the draw number [pos] lands at [mem[pos]]. *)
Fixpoint initial_parameters (rndFloat64 : nat -> float) (factor : float)
    (layerUnits : list nat) (pos : nat) : list float :=
  match layerUnits with
  | fanIn :: ((fanOut :: _) as rest) =>
      let initBound := F64.Sqrt (factor / F64.of_nat (fanIn + fanOut)) in
      let n := fanOut + fanIn * fanOut in
      map (fun k => (rndFloat64 k * initBound)%float) (seq pos n)
      ++ initial_parameters rndFloat64 factor rest (pos + n)
  | _ => []
  end.

(** [initialize].  [rndFloat64 k] is what the random source returns at its
    draw number [k].  [make] with a negative length panics: that is the
    case of [mlp.NLayers-1] for no layer at all, and of [mlp.NLayers-2]
    for a single layer when [BatchNormalize] is set. *)
Definition initialize (rndFloat64 : nat -> float)
    (mlp : BaseMultilayerPerceptron64) (yCols : nat) (layerUnits : list nat)
    (isClassifier isMultiClass : bool) : result BaseMultilayerPerceptron64 :=
  let NLayers' := length layerUnits in
  let '(OutActivation', LossFuncName') :=
    if negb isClassifier then ("identity", "square_loss")
    else if isMultiClass then ("softmax", "log_loss")
    else ("logistic", "binary_log_loss") in
  if (NLayers' =? 0)%nat then Panic "makeslice: len out of range"
  else if BatchNormalize mlp && (NLayers' <? 2)%nat then
    Panic "makeslice: len out of range"
  else
    let '(Intercepts', Coefs') := layout layerUnits 0 in
    let factor :=
      if EqualFold (Activation mlp) "logistic" then 2%float else 6%float in
    let batchNorm' :=
      if BatchNormalize mlp then map make (removelast (tail layerUnits))
      else batchNorm mlp in
    Ok (mkMLP (Activation mlp) (Solver mlp) (Alpha mlp) (WeightDecay mlp)
          (BatchSize mlp) (BatchNormalize mlp) (LearningRate mlp)
          (LearningRateInit mlp) (PowerT mlp) (MaxIter mlp) LossFuncName'
          (HiddenLayerSizes mlp) (Shuffle mlp) (Tol mlp) (Verbose mlp)
          (WarmStart mlp) (Momentum mlp) (NesterovsMomentum mlp)
          (EarlyStopping mlp) (ValidationFraction mlp) (Beta1 mlp)
          (Beta2 mlp) (Epsilon mlp) (NIterNoChange mlp)
          NLayers' 0 yCols Intercepts' Coefs' OutActivation' (Loss mlp)
          0 (LossCurve mlp) (ValidationScores mlp)
          (BestValidationScore mlp) F64.Inf (NoImprovementCount mlp)
          (optimizer mlp)
          (initial_parameters rndFloat64 factor layerUnits 0)
          (bestParameters mlp) batchNorm' (lb mlp)).

(** The entries up to position [m] are in the order [R], and the state of
    the inner loop of the insertion sort: the entries up to [i] are in
    order but for the entry at [j], which the entries after it are not
    below. *)
Definition ordered_by {A} (R : A -> A -> Prop) (m : nat) (l : list A)
    : Prop :=
  forall a b x y, a < b -> b <= m ->
    l !! a = Some x -> l !! b = Some y -> R x y.

Definition insert_ready_by {A} (R : A -> A -> Prop) (i j : nat) (l : list A)
    : Prop :=
  (forall a b x y, a < b -> b <= i -> a <> j -> b <> j ->
     l !! a = Some x -> l !! b = Some y -> R x y) /\
  (forall b x y, j < b -> b <= i ->
     l !! j = Some x -> l !! b = Some y -> R x y).

(** [x] is not above [y], for two numbers. *)
Definition not_above (x y : float) : Prop := (y <? x)%float = false.

(** No entry is NaN. *)
Definition numbers (l : list float) : Prop :=
  Forall (fun v => F64.IsNaN v = false) l.

(** ** Package base *)

Module base.
(** [Shuffle]: [X] is a slice of rows, [y] a slice of targets or nil.
    [Intn k n] is what [rand.Intn(n)] returns at its call number [k]; the
    call is made with [n = nSamples - i], which is positive. *)
Definition Shuffle (Intn : nat -> nat -> nat) (X : list (list float))
    (y : option (list float))
    : result (list (list float) * option (list float)) :=
  let nSamples := length X in
  for_range nSamples (fun i '(X, y) =>
    let j := i + Intn i (nSamples - i) in
    let* X := swap_entries X i j in
    let* y := match y with
              | None => Ok None
              | Some y => let* y := swap_entries y i j in Ok (Some y)
              end in
    Ok (X, y)) (X, y).
End base.

(** ** Further samples *)

Section FurtherSamples.
#[local] Set Warnings "-inexact-float".
Local Open Scope float_scope.

(** The defaults of [NewBaseMultilayerPerceptron64] with every float
    hyperparameter that [validateHyperparameters] checks at NaN. *)
Definition nan_hyperparameters : BaseMultilayerPerceptron64 :=
  {| Activation := "relu"; Solver := "adam"; Alpha := nan;
     WeightDecay := 0; BatchSize := 200; BatchNormalize := false;
     LearningRate := "constant"; LearningRateInit := nan;
     PowerT := 0.5; MaxIter := 200; LossFuncName := "";
     HiddenLayerSizes := [100%nat]; Shuffle := true; Tol := 0.0001;
     Verbose := false; WarmStart := false; Momentum := nan;
     NesterovsMomentum := true; EarlyStopping := false;
     ValidationFraction := nan; Beta1 := nan; Beta2 := nan;
     Epsilon := nan; NIterNoChange := 10;
     NLayers := 0; NIter := 0; NOutputs := 0; Intercepts := []; Coefs := [];
     OutActivation := ""; Loss := 0;
     t := 0; LossCurve := []; ValidationScores := [];
     BestValidationScore := 0; BestLoss := 0; NoImprovementCount := 0;
     optimizer := None; packedParameters := []; bestParameters := [];
     batchNorm := []; lb := None |}.

(** A regressor with one hidden layer of one unit whose activation is
    softmax, as [initialize] leaves it for the layers [1; 1; 1]. *)
Definition softmax_hidden : BaseMultilayerPerceptron64 :=
  {| Activation := "softmax"; Solver := "adam"; Alpha := 0;
     WeightDecay := 0; BatchSize := 2; BatchNormalize := false;
     LearningRate := "constant"; LearningRateInit := 0.5;
     PowerT := 0.5; MaxIter := 10; LossFuncName := "square_loss";
     HiddenLayerSizes := [1%nat]; Shuffle := false; Tol := 0;
     Verbose := false; WarmStart := false; Momentum := 0;
     NesterovsMomentum := false; EarlyStopping := false;
     ValidationFraction := 0.5; Beta1 := 0.5; Beta2 := 0.5;
     Epsilon := 0.5; NIterNoChange := 2;
     NLayers := 3; NIter := 0; NOutputs := 1;
     Intercepts := fst (layout [1; 1; 1]%nat 0);
     Coefs := snd (layout [1; 1; 1]%nat 0);
     OutActivation := "identity"; Loss := 0;
     t := 0; LossCurve := []; ValidationScores := [];
     BestValidationScore := 0; BestLoss := F64.Inf; NoImprovementCount := 0;
     optimizer := None; packedParameters := [0.5; 0.5; 0.5; 0.5];
     bestParameters := []; batchNorm := []; lb := None |}.

End FurtherSamples.

(** * Properties *)

(** ** Loops and slices *)

Lemma bind_Ok {A B} (r : result A) (k : A -> result B) (b : B) :
  bind r k = Ok b <-> exists a, r = Ok a /\ k a = Ok b.
Proof.
  destruct r as [a|msg|]; simpl; split.
  - intros H. exists a. split; [reflexivity | exact H].
  - intros (a' & Ha & Hk). injection Ha as <-. exact Hk.
  - discriminate.
  - intros (a' & Ha & _). discriminate.
  - discriminate.
  - intros (a' & Ha & _). discriminate.
Qed.

(** Invariant rule for the counting loop: it gives termination without
    panic together with the invariant at the exit index. *)
Lemma for_loop_inv {St : Type} (I : nat -> St -> Prop)
    (body : nat -> St -> result St) (start count : nat) (s : St) :
  I start s ->
  (forall i u, start <= i < start + count -> I i u ->
     exists u', body i u = Ok u' /\ I (S i) u') ->
  exists s', for_loop body start count s = Ok s' /\ I (start + count) s'.
Proof.
  revert start s. induction count as [|k IH]; intros start s H0 Hstep.
  - exists s. rewrite Nat.add_0_r. split; [reflexivity | exact H0].
  - destruct (Hstep start s) as (u & Hb & Hu); [lia | exact H0 |].
    destruct (IH (S start) u Hu) as (s' & Hl & Hs').
    + intros i w Hi Hw. apply Hstep; [lia | exact Hw].
    + exists s'. simpl. rewrite Hb. simpl.
      replace (start + S k) with (S start + k) by lia.
      split; assumption.
Qed.

Lemma for_range_inv {St : Type} (I : nat -> St -> Prop)
    (body : nat -> St -> result St) (n : nat) (s : St) :
  I 0 s ->
  (forall i u, i < n -> I i u ->
     exists u', body i u = Ok u' /\ I (S i) u') ->
  exists s', for_range n body s = Ok s' /\ I n s'.
Proof.
  intros H0 Hstep. apply (for_loop_inv I body 0 n s H0).
  intros i u Hi. apply Hstep. lia.
Qed.

Lemma load_Ok {A} (d : list A) (i : nat) (v : A) :
  load d i = Ok v <-> d !! i = Some v.
Proof.
  unfold load. destruct (d !! i) as [w|]; split; intros H;
    try discriminate; congruence.
Qed.

Lemma store_Ok {A} (d : list A) (i : nat) (v : A) :
  i < length d -> store d i v = Ok (<[i:=v]> d).
Proof.
  intros Hi. unfold store.
  destruct (decide (i < length d)); [reflexivity | lia].
Qed.

Lemma update_at_Ok (f : float -> float) (pos : nat) (d : list float)
    (v : float) :
  d !! pos = Some v -> update_at f pos d = Ok (<[pos:=f v]> d).
Proof.
  intros Hv. unfold update_at. apply load_Ok in Hv as Hl. rewrite Hl. simpl.
  apply store_Ok. eapply lookup_lt_Some, Hv.
Qed.

(** Cell [(r, c)] of a matrix of stride [St] lies at [r * St + c]; below the
    stride the cells do not overlap. *)
Lemma cell_inj (W r c r' c' : nat) :
  c < W -> c' < W -> r * W + c = r' * W + c' -> r = r' /\ c = c'.
Proof.
  intros Hc Hc' Heq.
  assert (r = r') as ->; [| lia].
  destruct (Nat.lt_trichotomy r r') as [Hlt | [Heq' | Hgt]];
    [| exact Heq' |]; nia.
Qed.

Lemma cell_in_range (R C W r c n : nat) :
  r < R -> c < C -> (R - 1) * W + C <= n -> r * W + c < n.
Proof. intros Hr Hc Hn. nia. Qed.

Section NestedUpdate.
Context (R C W : nat) (fn : nat -> nat -> float -> float).
Context (body : nat -> nat -> list float -> result (list float)).
Context (d0 : list float).
Hypothesis body_updates : forall r c d, r < R -> c < C ->
  body r c d = update_at (fn r c) (r * W + c) d.
Hypothesis cols_le_stride : C <= W.
Hypothesis fits : R = 0 \/ (R - 1) * W + C <= length d0.

Lemma updated_row_step (r : nat) (d : list float) :
  r < R -> updated_upto R C W fn d0 r 0 d ->
  exists d', for_range C (fun col d => body r col d) d = Ok d' /\
             updated_upto R C W fn d0 (S r) 0 d'.
Proof using body_updates cols_le_stride fits.
  intros Hr Hd.
  assert ((R - 1) * W + C <= length d0) as Hfits by (destruct fits; lia).
  destruct (for_range_inv (fun c d => updated_upto R C W fn d0 r c d)
              (fun col d => body r col d) C d Hd) as (d' & Hrun & Hd').
  - intros c u Hc (Hlen & Hvis & Hrest).
    assert (r * W + c < length d0) as Hp by (eapply cell_in_range; eauto).
    assert (u !! (r * W + c) = d0 !! (r * W + c)) as Hsame.
    { apply Hrest. intros r' c' Hr' (Hc' & Hbefore) Heq.
      apply cell_inj in Heq as [-> ->]; lia. }
    destruct (lookup_lt_is_Some_2 d0 (r * W + c) Hp) as (v & Hv).
    exists (<[r * W + c := fn r c v]> u). split.
    { rewrite body_updates by assumption. apply update_at_Ok. congruence. }
    split; [rewrite length_insert; exact Hlen | split].
    + intros r' c' Hr' (Hc' & Hbefore).
      destruct (decide (r' = r /\ c' = c)) as [[-> ->] | Hne].
      * rewrite list_lookup_insert_eq by lia. rewrite Hv. reflexivity.
      * rewrite list_lookup_insert_ne.
        { apply Hvis; [assumption |]. split; [assumption | lia]. }
        intros Heq. apply cell_inj in Heq; lia.
    + intros p Hp'. rewrite list_lookup_insert_ne.
      * apply Hrest. intros r' c' Hr' (Hc' & Hbefore).
        apply Hp'; [assumption |]. split; [assumption | lia].
      * intros <-. apply (Hp' r c); [assumption | | reflexivity].
        split; [assumption | lia].
  - exists d'. split; [exact Hrun |].
    destruct Hd' as (Hlen & Hvis & Hrest). split; [exact Hlen | split].
    + intros r' c' Hr' (Hc' & Hbefore). apply Hvis; [assumption |].
      split; [assumption | lia].
    + intros p Hp'. apply Hrest. intros r' c' Hr' (Hc' & Hbefore).
      apply Hp'; [assumption |]. split; [assumption | lia].
Qed.

(** What the nested loops leave in the slice: every cell of the matrix is
    rewritten exactly once, everything else is untouched, nothing panics. *)
Lemma nested_update_spec :
  exists d',
    for_range R (fun row d => for_range C (fun col d => body row col d) d) d0
      = Ok d' /\
    length d' = length d0 /\
    (forall r c, r < R -> c < C ->
       d' !! (r * W + c) = fn r c <$> d0 !! (r * W + c)) /\
    (forall p, (forall r c, r < R -> c < C -> p <> r * W + c) ->
       d' !! p = d0 !! p).
Proof using body_updates cols_le_stride fits.
  destruct (for_range_inv (fun r d => updated_upto R C W fn d0 r 0 d)
              (fun row d => for_range C (fun col d => body row col d) d)
              R d0) as (d' & Hrun & Hlen & Hvis & Hrest).
  - split; [reflexivity | split].
    + intros r' c' _ (_ & Hbefore). lia.
    + reflexivity.
  - intros r u Hr Hu. apply updated_row_step; assumption.
  - exists d'. split; [exact Hrun | split; [exact Hlen | split]].
    + intros r c Hr Hc. apply Hvis; [assumption |]. split; [assumption | lia].
    + intros p Hp. apply Hrest. intros r c Hr (Hc & _). apply Hp; assumption.
Qed.
End NestedUpdate.

(** ** Activation registry: the entry named tanh *)

Lemma apply_inplace_spec (f : float -> float) (z : blas64General) :
  Cols z <= Stride z -> holds (Rows z) (Cols z) z ->
  exists d',
    apply_inplace f z = Ok d' /\
    length d' = length (Data z) /\
    (forall row col, row < Rows z -> col < Cols z ->
       d' !! (row * Stride z + col) = f <$> Data z !! (row * Stride z + col)) /\
    (forall p, (forall row col, row < Rows z -> col < Cols z ->
                  p <> row * Stride z + col) -> d' !! p = Data z !! p).
Proof.
  intros Hcs Hfit. unfold apply_inplace.
  apply (nested_update_spec (Rows z) (Cols z) (Stride z) (fun _ _ => f)
           (fun row col d => update_at f (row * Stride z + col) d) (Data z));
    [reflexivity | exact Hcs | exact Hfit].
Qed.

Lemma derive_inplace_spec (g : float -> float -> float)
    (Z deltas : blas64General) :
  holds (Rows Z) (Cols Z) Z ->
  Cols Z <= Stride deltas -> holds (Rows Z) (Cols Z) deltas ->
  exists d',
    derive_inplace g Z deltas = Ok d' /\
    length d' = length (Data deltas) /\
    (forall row col, row < Rows Z -> col < Cols Z ->
       exists z, Data Z !! (row * Stride Z + col) = Some z /\
         d' !! (row * Stride deltas + col)
         = g z <$> Data deltas !! (row * Stride deltas + col)) /\
    (forall p, (forall row col, row < Rows Z -> col < Cols Z ->
                  p <> row * Stride deltas + col) ->
       d' !! p = Data deltas !! p).
Proof.
  intros HZ Hcs Hfit. unfold derive_inplace.
  assert (forall row col, row < Rows Z -> col < Cols Z ->
            exists z, Data Z !! (row * Stride Z + col) = Some z) as Hread.
  { intros row col Hr Hc. apply lookup_lt_is_Some_2.
    destruct HZ as [H0 | HZ]; [lia |]. eapply cell_in_range; eauto. }
  pose (fn := fun row col =>
          g (default 0%float (Data Z !! (row * Stride Z + col)))).
  destruct (nested_update_spec (Rows Z) (Cols Z) (Stride deltas) fn
              (fun row col d =>
                 let* z := load (Data Z) (row * Stride Z + col) in
                 update_at (g z) (row * Stride deltas + col) d)
              (Data deltas)) as (d' & Hrun & Hlen & Hcells & Hrest).
  - intros r c d Hr Hc. destruct (Hread r c Hr Hc) as (z & Hz).
    unfold fn. rewrite Hz. simpl. apply load_Ok in Hz. rewrite Hz. reflexivity.
  - exact Hcs.
  - exact Hfit.
  - exists d'. split; [exact Hrun | split; [exact Hlen | split]].
    + intros row col Hr Hc. destruct (Hread row col Hr Hc) as (z & Hz).
      exists z. split; [exact Hz |].
      rewrite (Hcells row col Hr Hc). unfold fn. rewrite Hz. reflexivity.
    + exact Hrest.
Qed.

(** C10: the registry entry named tanh stores [Tanh (- z)] in every cell
    that held [z], leaves the rest of the slice alone and does not panic;
    the derivative entry named tanh multiplies every delta by [1 - z * z],
    [z] being the cell of the activation output. *)
Theorem tanh_entry_stores_tanh_of_negation (M64 : Externals)
    (z Z deltas : blas64General) :
  Cols z <= Stride z -> holds (Rows z) (Cols z) z ->
  holds (Rows Z) (Cols Z) Z ->
  Cols Z <= Stride deltas -> holds (Rows Z) (Cols Z) deltas ->
  exists act der d' dl',
    Activations64 M64 "tanh" = Some act /\
    Derivatives64 "tanh" = Some der /\
    act z = Ok d' /\
    der Z deltas = Ok dl' /\
    length d' = length (Data z) /\
    (forall row col, row < Rows z -> col < Cols z ->
       d' !! (row * Stride z + col)
       = (fun v => Tanh M64 (- v)%float) <$> Data z !! (row * Stride z + col)) /\
    (forall p, (forall row col, row < Rows z -> col < Cols z ->
                  p <> row * Stride z + col) -> d' !! p = Data z !! p) /\
    length dl' = length (Data deltas) /\
    (forall row col, row < Rows Z -> col < Cols Z ->
       exists zv, Data Z !! (row * Stride Z + col) = Some zv /\
         dl' !! (row * Stride deltas + col)
         = (fun delta => delta * (1 - zv * zv))%float
             <$> Data deltas !! (row * Stride deltas + col)) /\
    (forall p, (forall row col, row < Rows Z -> col < Cols Z ->
                  p <> row * Stride deltas + col) ->
       dl' !! p = Data deltas !! p).
Proof.
  intros Hzs Hz HZ Hds Hd.
  destruct (apply_inplace_spec (fun v => Tanh M64 (- v)%float) z Hzs Hz)
    as (d' & Hact & Hlen & Hcells & Hrest).
  destruct (derive_inplace_spec (fun zv delta => delta * (1 - zv * zv))%float
              Z deltas HZ Hds Hd) as (dl' & Hder & Hdlen & Hdcells & Hdrest).
  exists (apply_inplace (fun v => Tanh M64 (- v)%float)),
         (derive_inplace (fun zv delta => delta * (1 - zv * zv))%float),
         d', dl'.
  repeat split; try assumption; reflexivity.
Qed.

(** A 2 by 2 matrix inside a slice of stride 3, and its deltas. *)
Lemma tanh_entry_witness :
  exists act der d' dl',
    Activations64 reference "tanh" = Some act /\
    Derivatives64 "tanh" = Some der /\
    act (mkGeneral 2 2 3 [1; 2; 0; 3; 4]%float) = Ok d' /\
    der (mkGeneral 2 2 3 [1; 2; 0; 3; 4]%float)
        (mkGeneral 2 2 2 [1; 1; 1; 1]%float) = Ok dl' /\
    dl' = [0; -3; -8; -15]%float.
Proof.
  destruct (tanh_entry_stores_tanh_of_negation reference
              (mkGeneral 2 2 3 [1; 2; 0; 3; 4]%float)
              (mkGeneral 2 2 3 [1; 2; 0; 3; 4]%float)
              (mkGeneral 2 2 2 [1; 1; 1; 1]%float))
    as (act & der & d' & dl' & Ha & Hd & Hact & Hder & _);
    [simpl; lia | right; simpl; lia | right; simpl; lia | simpl; lia
    | right; simpl; lia |].
  exists act, der, d', dl'. repeat split; try assumption.
  vm_compute in Hd. injection Hd as <-. vm_compute in Hder.
  injection Hder as <-. reflexivity.
Defined.

(** ** Adam: the stopping trigger *)

(** C2, as stated, fails: the trigger of Adam answers "stop", and a fit
    with solver adam whose loss stalls ends after 4 of its 30 epochs. *)
Lemma adam_fit_halts_before_the_cap :
  fst (triggerStopping (OptAdam sample_adam) "" false) = true /\
  exists st,
    fitStochastic reference sample_shuffle
      (sample_regressor "adam" false true 10 30 2)
      sample_X sample_y sample_buffers false = Ok st /\
    NIter (f_mlp st) = 4 /\ MaxIter (f_mlp st) = 30%Z.
Proof.
  split; [reflexivity |].
  eexists. split; [vm_compute; reflexivity |]. split; reflexivity.
Qed.

(** ** Adam: the bias-correction products *)

(** The loop over the gradients multiplies the two products once for every
    gradient. *)
Lemma adam_loop_products (o : AdamOptimizer64.opt) (grads : list float)
    (count start : nat) (s s' : AdamOptimizer64.loop_state) :
  for_loop (fun i s => let* grad := load grads i in
                       AdamOptimizer64.update_one o i grad s) start count s
  = Ok s' ->
  AdamOptimizer64.l_beta1t s'
  = Nat.iter count (fun p => p * AdamOptimizer64.Beta1 o)%float
      (AdamOptimizer64.l_beta1t s) /\
  AdamOptimizer64.l_beta2t s'
  = Nat.iter count (fun p => p * AdamOptimizer64.Beta2 o)%float
      (AdamOptimizer64.l_beta2t s).
Proof.
  revert start s. induction count as [|k IH]; intros start s Hrun.
  - simpl in Hrun. injection Hrun as <-. split; reflexivity.
  - simpl in Hrun. apply bind_Ok in Hrun as (s1 & Hstep & Hrest).
    apply IH in Hrest as [H1 H2].
    apply bind_Ok in Hstep as (grad & _ & Hone).
    unfold AdamOptimizer64.update_one in Hone.
    repeat (apply bind_Ok in Hone as (? & _ & Hone)).
    injection Hone as <-. simpl in H1, H2.
    rewrite H1, H2, !Nat.iter_succ_r. split; reflexivity.
Qed.

(** The products after a step over [n] gradients: [n] factors, not one. *)
Lemma adam_products_grow_per_gradient (o o' : AdamOptimizer64.opt)
    (grads Params Params' : list float) :
  AdamOptimizer64.updateParams o grads Params = Ok (o', Params') ->
  AdamOptimizer64.beta1t o'
  = Nat.iter (length grads) (fun p => p * AdamOptimizer64.Beta1 o)%float
      (if (AdamOptimizer64.t o =? 0)%float then 1%float
       else AdamOptimizer64.beta1t o) /\
  AdamOptimizer64.beta2t o'
  = Nat.iter (length grads) (fun p => p * AdamOptimizer64.Beta2 o)%float
      (if (AdamOptimizer64.t o =? 0)%float then 1%float
       else AdamOptimizer64.beta2t o).
Proof.
  unfold AdamOptimizer64.updateParams. intros Hrun.
  apply bind_Ok in Hrun as (s & Hloop & Hret). injection Hret as <- <-.
  apply adam_loop_products in Hloop. exact Hloop.
Qed.

(** C5 on the code: a first step over two gradients.  The rate of section
    4.5 for step 1 is 2; the code applies it to the first parameter only,
    the second parameter moves by the rate of step 2, 4/3, which is also
    the rate the optimizer keeps. *)
Theorem adam_rate_compounds_within_a_step :
  rate_of_step sample_adam 1 = 2%float /\
  rate_of_step sample_adam 2 = 0x1.5555555555555p+0%float /\
  exists o' p0 p1,
    AdamOptimizer64.updateParams sample_adam [1; 1]%float [0; 0]%float
    = Ok (o', [p0; p1]) /\
    AdamOptimizer64.LearningRate o' = rate_of_step sample_adam 2 /\
    p0 = (- rate_of_step sample_adam 1 * 0.5 / (1 + 0x1p-20))%float /\
    p1 = (- rate_of_step sample_adam 2 * 0.5 / (1 + 0x1p-20))%float /\
    (p1 =? (- rate_of_step sample_adam 1 * 0.5 / (1 + 0x1p-20)))%float = false.
Proof.
  split; [reflexivity | split; [reflexivity |]].
  eexists _, _, _. split; [vm_compute; reflexivity |].
  repeat split; vm_compute; reflexivity.
Qed.

(** ** Label binarizer *)

(** C4 on the code: codes -1 and 1, classes 1 and 2, and the label 3 that
    was not seen at fit time.  [Transform] writes the negative code to the
    first column of the block and leaves the second at the 0 of the fresh
    slice: the block is [-1; 0], not all negative codes. *)
Theorem transform_unseen_label_block :
  exists m,
    LabelBinarizer64.Fit (LabelBinarizer64.NewLabelBinarizer64 (-1) 1)
      (mkGeneral 2 1 1 [1; 2]%float) = Ok m /\
    LabelBinarizer64.Classes m = [[1; 2]%float] /\
    LabelBinarizer64.NegLabel m = (-1)%float /\
    LabelBinarizer64.Transform m (mkGeneral 1 1 1 [3]%float)
    = Ok (mkGeneral 1 2 2 [-1; 0]%float).
Proof.
  eexists. split; [vm_compute; reflexivity |].
  repeat split; vm_compute; reflexivity.
Qed.

(** The same binarizer on the labels it was fitted on: the entries of a
    block beside the class column are 0 as well. *)
Lemma transform_seen_labels_block :
  exists m,
    LabelBinarizer64.Fit (LabelBinarizer64.NewLabelBinarizer64 (-1) 1)
      (mkGeneral 2 1 1 [1; 2]%float) = Ok m /\
    LabelBinarizer64.Transform m (mkGeneral 2 1 1 [1; 2]%float)
    = Ok (mkGeneral 2 2 2 [1; 0; 0; 1]%float).
Proof. eexists. split; vm_compute; reflexivity. Qed.

(** C3 on the code: two label columns with the default codes 0 and 1.  The
    first column comes back; the loop of [InverseTransform] moves [baseCol]
    past the second block before it looks at it, and the second column
    comes back as the zeros of the fresh slice. *)
Theorem round_trip_loses_second_column :
  exists m Y,
    LabelBinarizer64.FitTransform (LabelBinarizer64.NewLabelBinarizer64 0 1)
      (mkGeneral 2 2 2 [5; 7; 6; 8]%float) = Ok (m, Y) /\
    LabelBinarizer64.Classes m = [[5; 6]; [7; 8]]%float /\
    Y = mkGeneral 2 4 4 [1; 0; 1; 0; 0; 1; 0; 1]%float /\
    LabelBinarizer64.InverseTransform m Y
    = Ok (mkGeneral 2 2 2 [5; 0; 6; 0]%float).
Proof.
  eexists _, _. split; [vm_compute; reflexivity |].
  repeat split; vm_compute; reflexivity.
Qed.

(** One label column with the default codes: the round trip gives the
    labels back. *)
Lemma round_trip_one_column_sample :
  exists m Y,
    LabelBinarizer64.FitTransform (LabelBinarizer64.NewLabelBinarizer64 0 1)
      (mkGeneral 3 1 1 [3; 1; 2]%float) = Ok (m, Y) /\
    LabelBinarizer64.InverseTransform m Y
    = Ok (mkGeneral 3 1 1 [3; 1; 2]%float).
Proof. eexists _, _. split; vm_compute; reflexivity. Qed.

(** ** The training loop on the samples *)

Section SampleRuns.
Local Open Scope float_scope.

(** C1 on the code: four rows, half of them held out for validation, one
    batch of the two training rows.  The sweep accumulates
    [0.0625 * 2 = 0.125]; divided by the two training rows that is 0.0625,
    the code records [0.125 / 4 = 0.03125]. *)
Theorem epoch_loss_divides_by_all_rows :
  exists st1 st,
    minibatch_sweep reference 2 (4 - 2) early_stopping_start
    = Ok (0.125, st1) /\
    0.125 / F64.of_nat (4 - 2) = 0.0625 /\
    fitStochastic reference no_shuffle
      (sample_regressor "sgd" true false 0 3 10)
      sample_X sample_y sample_buffers false = Ok st /\
    LossCurve (f_mlp st) !! 0%nat = Some 0.03125 /\
    0.03125 = 0.125 / F64.of_nat 4.
Proof.
  eexists _, _. split; [vm_compute; reflexivity |].
  split; [reflexivity |]. split; [vm_compute; reflexivity |].
  split; reflexivity.
Qed.

(** C8 on the code: the same fit.  The validation scores of the three
    epochs are negative, the best being the first; no score exceeds the
    initial [BestValidationScore] of 0, so no snapshot is taken, and the
    fit returns the zeros [bestParameters] was allocated with in place of
    the parameters of the first epoch. *)
Theorem early_stopping_restores_unset_snapshot :
  exists st1 st,
    for_break (epoch reference no_shuffle true false 4 2) 0 1
      early_stopping_start = Ok st1 /\
    ValidationScores (f_mlp st1) = [-1.3125] /\
    packedParameters (f_mlp st1) = [0.375; 0.5] /\
    fitStochastic reference no_shuffle
      (sample_regressor "sgd" true false 0 3 10)
      sample_X sample_y sample_buffers false = Ok st /\
    ValidationScores (f_mlp st)
    = [-1.3125; -1.369140625; -1.4796142578125] /\
    BestValidationScore (f_mlp st) = 0 /\
    packedParameters (f_mlp st) = [0; 0].
Proof.
  eexists _, _. split; [vm_compute; reflexivity |].
  split; [reflexivity |]. split; [reflexivity |].
  split; [vm_compute; reflexivity |].
  repeat split; reflexivity.
Qed.
End SampleRuns.

(** ** Backpropagation: the loss it returns *)

Lemma for_down_preserves {St : Type} (P : St -> Prop)
    (body : nat -> St -> result St) (hi : nat) (s s' : St) :
  (forall i u u', body i u = Ok u' -> P u -> P u') ->
  for_down body hi s = Ok s' -> P s -> P s'.
Proof.
  intros Hbody. revert s. induction hi as [|k IH]; intros s Hrun Hs.
  - simpl in Hrun. injection Hrun as <-. exact Hs.
  - simpl in Hrun. apply bind_Ok in Hrun as (u & Hstep & Hrest).
    eapply IH; [exact Hrest |]. eapply Hbody; eassumption.
Qed.

Lemma foldM_preserves {A St : Type} (P : St -> Prop)
    (f : St -> A -> result St) (l : list A) (s s' : St) :
  (forall a u u', f u a = Ok u' -> P u -> P u') ->
  foldM f s l = Ok s' -> P s -> P s'.
Proof.
  intros Hf. revert s. induction l as [|a l IH]; intros s Hrun Hs.
  - simpl in Hrun. injection Hrun as <-. exact Hs.
  - simpl in Hrun. apply bind_Ok in Hrun as (u & Hstep & Hrest).
    eapply IH; [exact Hrest |]. eapply Hf; eassumption.
Qed.

(** The backward half writes deltas and gradients; the activations stay. *)
Lemma backprop_backward_keeps_activations (M64 : Externals)
    (mlp : BaseMultilayerPerceptron64) (n : nat) (y : blas64General)
    (b b' : Buffers) :
  backprop_backward M64 mlp n y b = Ok b' -> activations b' = activations b.
Proof.
  unfold backprop_backward. destruct (NLayers mlp <? 2); [discriminate |].
  intros Hrun.
  apply bind_Ok in Hrun as (H & _ & Hrun).
  apply bind_Ok in Hrun as (D & _ & Hrun).
  apply bind_Ok in Hrun as (D' & _ & Hrun).
  apply bind_Ok in Hrun as (dls & _ & Hrun).
  apply bind_Ok in Hrun as (grads & _ & Hrun).
  apply (for_down_preserves (fun u => activations u = activations b))
    in Hrun; [exact Hrun | | reflexivity].
  intros i u u' Hstep Hu.
  repeat (apply bind_Ok in Hstep as (? & _ & Hstep)).
  injection Hstep as <-. exact Hu.
Qed.

(** The forward half changes the parameters (decay) and the normalization
    scales only. *)
Lemma backprop_forward_keeps_settings (M64 : Externals)
    (mlp mlp' : BaseMultilayerPerceptron64) (b : Buffers)
    (acts : list blas64General) :
  backprop_forward M64 mlp b = Ok (mlp', acts) ->
  Alpha mlp' = Alpha mlp /\ Coefs mlp' = Coefs mlp /\
  Intercepts mlp' = Intercepts mlp /\
  effective_loss_name mlp' = effective_loss_name mlp /\
  packedParameters mlp' = packedParameters (decay mlp).
Proof.
  unfold backprop_forward. intros Hrun.
  apply bind_Ok in Hrun as (acts0 & _ & Hrun).
  assert (Alpha (decay mlp) = Alpha mlp /\ Coefs (decay mlp) = Coefs mlp /\
          Intercepts (decay mlp) = Intercepts mlp /\
          effective_loss_name (decay mlp) = effective_loss_name mlp)
    as (Ha & Hc & Hi & Hn).
  { unfold decay. destruct (F64.gtb (WeightDecay mlp) 0);
      repeat split; reflexivity. }
  destruct (BatchNormalize (decay mlp)).
  - apply bind_Ok in Hrun as ([bn acts1] & _ & Hrun).
    injection Hrun as <- <-. repeat split; assumption.
  - injection Hrun as <- <-. repeat split; assumption.
Qed.

Lemma slice_Ok {A} (d part : list A) (lo hi : nat) :
  slice d lo hi = Ok part -> part = take (hi - lo) (drop lo d).
Proof.
  unfold slice. destruct (decide _); [| discriminate]. congruence.
Qed.

Lemma sumCoefSquares_fold (params : list float) (views : list View)
    (s0 s : float) :
  foldM (fun s cv =>
           let* c := view_matrix params cv in
           Ok (foldl (fun s co => s + co * co)%float s (Data c))) s0 views
  = Ok s ->
  s = foldl (fun s co => s + co * co)%float s0
        (flat_map (fun cv => take (vLen cv) (drop (vOff cv) params)) views).
Proof.
  revert s0. induction views as [|cv views IH]; intros s0 Hrun.
  - simpl in Hrun. injection Hrun as <-. reflexivity.
  - simpl in Hrun. apply bind_Ok in Hrun as (s1 & Hone & Hrest).
    apply IH in Hrest. apply bind_Ok in Hone as (c & Hc & Hs1).
    injection Hs1 as <-. unfold view_matrix in Hc.
    apply bind_Ok in Hc as (d & Hd & Hc). injection Hc as <-.
    apply slice_Ok in Hd. simpl in Hrest. simpl. rewrite foldl_app.
    replace (vOff cv + vLen cv - vOff cv) with (vLen cv) in Hd by lia.
    rewrite <- Hd. exact Hrest.
Qed.

Lemma sumCoefSquares_is_sum_of_squares (mlp : BaseMultilayerPerceptron64)
    (s : float) :
  sumCoefSquares mlp = Ok s -> s = sum_of_squares (weights mlp).
Proof. apply sumCoefSquares_fold. Qed.

(** The layout of [initialize] keeps the bias vectors apart from the weight
    blocks. *)
Lemma layout_cons (fanIn fanOut : nat) (rest : list nat) (off : nat) :
  layout (fanIn :: fanOut :: rest) off
  = let (intercepts, coefs) :=
      layout (fanOut :: rest) (off + fanOut + fanIn * fanOut) in
    ({| sOff := off; sLen := fanOut |} :: intercepts,
     {| vRows := fanIn; vCols := fanOut; vStride := fanOut;
        vOff := off + fanOut; vLen := fanIn * fanOut |} :: coefs).
Proof. reflexivity. Qed.

Lemma layout_starts (units : list nat) (off : nat)
    (spans : list Span) (views : list View) :
  layout units off = (spans, views) ->
  (forall sp, sp ∈ spans -> off <= sOff sp) /\
  (forall cv, cv ∈ views -> off <= vOff cv).
Proof.
  revert off spans views.
  induction units as [|fanIn rest IH]; intros off spans views Hl.
  - simpl in Hl. injection Hl as <- <-.
    split; intros ? Hin; inversion Hin.
  - destruct rest as [|fanOut rest'].
    + simpl in Hl. injection Hl as <- <-.
      split; intros ? Hin; inversion Hin.
    + rewrite layout_cons in Hl.
      destruct (layout (fanOut :: rest') (off + fanOut + fanIn * fanOut))
        as [spans' views'] eqn:Hrest.
      injection Hl as <- <-.
      destruct (IH _ _ _ Hrest) as [Hs Hv].
      split; intros x Hin; apply elem_of_cons in Hin as [-> | Hin]; simpl.
      * lia.
      * specialize (Hs x Hin). lia.
      * lia.
      * specialize (Hv x Hin). lia.
Qed.

Lemma layout_biases_apart (units : list nat) (off : nat)
    (spans : list Span) (views : list View) :
  layout units off = (spans, views) ->
  forall sp cv, sp ∈ spans -> cv ∈ views ->
    sOff sp + sLen sp <= vOff cv \/ vOff cv + vLen cv <= sOff sp.
Proof.
  revert off spans views.
  induction units as [|fanIn rest IH]; intros off spans views Hl sp cv Hsp Hcv.
  - simpl in Hl. injection Hl as <- <-. inversion Hsp.
  - destruct rest as [|fanOut rest'].
    + simpl in Hl. injection Hl as <- <-. inversion Hsp.
    + rewrite layout_cons in Hl.
      destruct (layout (fanOut :: rest') (off + fanOut + fanIn * fanOut))
        as [spans' views'] eqn:Hrest.
      injection Hl as <- <-.
      destruct (layout_starts _ _ _ _ Hrest) as [Hs Hv].
      apply elem_of_cons in Hsp as [-> | Hsp];
        apply elem_of_cons in Hcv as [-> | Hcv]; simpl.
      * left. lia.
      * left. specialize (Hv cv Hcv). lia.
      * right. specialize (Hs sp Hsp). lia.
      * eapply IH; eassumption.
Qed.

(** Overwriting an entry outside a view does not change what the view
    shows. *)
Lemma view_ignores_outside (params : list float) (p off len : nat) (v : float) :
  p < off \/ off + len <= p ->
  take len (drop off (<[p:=v]> params)) = take len (drop off params).
Proof.
  intros Hout. apply list_eq. intros i.
  destruct (decide (i < len)) as [Hi | Hi].
  - rewrite !lookup_take_lt by exact Hi. rewrite !lookup_drop.
    apply list_lookup_insert_ne. lia.
  - rewrite !lookup_take_ge by lia. reflexivity.
Qed.

Lemma weights_ignore_outside (mlp : BaseMultilayerPerceptron64)
    (p : nat) (v : float) :
  (forall cv, cv ∈ Coefs mlp -> p < vOff cv \/ vOff cv + vLen cv <= p) ->
  weights (set_packedParameters mlp (<[p:=v]> (packedParameters mlp)))
  = weights mlp.
Proof.
  unfold weights. simpl. generalize (packedParameters mlp) as params.
  induction (Coefs mlp) as [|cv views IH]; intros params Hout; [reflexivity |].
  simpl. rewrite view_ignores_outside by (apply Hout; left).
  f_equal. apply IH. intros cv' Hin. apply Hout. right. exact Hin.
Qed.

(** C7: the loss [backprop] returns is the registry loss on the targets and
    the last-layer activations plus [0.5 * Alpha] times the sum of the
    squared weight coefficients divided by the number of rows of the
    batch.  The sum runs over the weight blocks only: with the layout of
    [initialize], overwriting any entry of a bias vector leaves it as it
    is. *)
Theorem backprop_loss_is_registry_loss_plus_L2 (M64 : Externals)
    (mlp mlp' : BaseMultilayerPerceptron64) (X y : blas64General)
    (b b' : Buffers) (loss : float) (units : list nat) :
  layout units 0 = (Intercepts mlp, Coefs mlp) ->
  backprop M64 mlp X y b = Ok (loss, mlp', b') ->
  exists H registry,
    last (activations b') = Some H /\
    call_loss M64 (effective_loss_name mlp) y H = Ok registry /\
    loss = (registry + 0.5 * Alpha mlp * sum_of_squares (weights mlp')
                       / F64.of_nat (Rows X))%float /\
    forall sp p v, sp ∈ Intercepts mlp -> sOff sp <= p < sOff sp + sLen sp ->
      weights (set_packedParameters mlp' (<[p:=v]> (packedParameters mlp')))
      = weights mlp'.
Proof.
  intros Hlayout Hrun. unfold backprop in Hrun.
  apply bind_Ok in Hrun as ([mlp1 acts] & Hfwd & Hrun).
  apply bind_Ok in Hrun as (H & HH & Hrun).
  apply bind_Ok in Hrun as (registry & Hloss & Hrun).
  apply bind_Ok in Hrun as (s & Hs & Hrun).
  apply bind_Ok in Hrun as (b1 & Hbwd & Hrun).
  injection Hrun as <- <- <-.
  apply backprop_forward_keeps_settings in Hfwd
    as (Halpha & Hcoefs & Hints & Hname & _).
  apply backprop_backward_keeps_activations in Hbwd. simpl in Hbwd.
  apply sumCoefSquares_is_sum_of_squares in Hs.
  exists H, registry. split; [| split; [| split]].
  - rewrite Hbwd, last_lookup. apply load_Ok in HH.
    rewrite <- HH. f_equal. lia.
  - rewrite <- Hname. exact Hloss.
  - rewrite Halpha, Hs. reflexivity.
  - intros sp p v Hsp Hp. apply weights_ignore_outside.
    intros cv Hcv. rewrite Hcoefs in Hcv.
    destruct (layout_biases_apart _ _ _ _ Hlayout sp cv Hsp Hcv); lia.
Qed.

Lemma backprop_loss_witness :
  exists loss mlp' b',
    backprop reference (sample_regressor "sgd" false false 0 3 10)
      sample_batch_X sample_batch_y sample_batch_buffers
    = Ok (loss, mlp', b') /\
    loss = 0.0625%float /\
    exists H registry,
      last (activations b') = Some H /\
      call_loss reference "square_loss" sample_batch_y H = Ok registry /\
      loss = (registry + 0.5 * 0 * sum_of_squares (weights mlp')
                         / F64.of_nat 2)%float /\
      forall sp p v,
        sp ∈ Intercepts (sample_regressor "sgd" false false 0 3 10) ->
        sOff sp <= p < sOff sp + sLen sp ->
        weights (set_packedParameters mlp' (<[p:=v]> (packedParameters mlp')))
        = weights mlp'.
Proof.
  eexists _, _, _. split; [vm_compute; reflexivity |].
  split; [reflexivity |].
  eapply (backprop_loss_is_registry_loss_plus_L2 reference
            (sample_regressor "sgd" false false 0 3 10) _
            sample_batch_X sample_batch_y
            sample_batch_buffers _ _ [1; 1]).
  - reflexivity.
  - vm_compute. reflexivity.
Defined.

(** ** Backpropagation: a loss that is not finite *)

Section NonFinite.
Local Open Scope float_scope.

(** C6, as stated, fails: the square loss of the first batch is +Inf,
    [backprop] returns it, and the fit runs its three epochs and returns,
    the loss curve starting with +Inf. *)
Lemma infinite_loss_does_not_fail_the_fit :
  exists loss mlp' b' H st,
    backprop reference (sample_regressor "sgd" false false 0 3 10)
      sample_batch_X huge_batch_y sample_batch_buffers
    = Ok (loss, mlp', b') /\
    last (activations b') = Some H /\
    call_loss reference "square_loss" huge_batch_y H = Ok infinity /\
    loss = infinity /\
    fitStochastic reference no_shuffle
      (sample_regressor "sgd" false false 0 3 10)
      sample_X huge_y sample_buffers false = Ok st /\
    NIter (f_mlp st) = 3%nat /\
    LossCurve (f_mlp st) !! 0%nat = Some infinity.
Proof.
  eexists _, _, _, _, _. split; [vm_compute; reflexivity |].
  split; [reflexivity |]. split; [vm_compute; reflexivity |].
  split; [reflexivity |]. split; [vm_compute; reflexivity |].
  split; reflexivity.
Qed.

(** C6, amended: the loss of the registry is not examined.  Whatever its
    value, NaN and +Inf included, once the forward half, the registry entry
    and the backward half have run, [backprop] returns the value with the
    L2 term added, and the batch goes on: the optimizer makes its step and
    the loss times the rows of the batch is added to the accumulated loss
    of the epoch. *)
Theorem nonfinite_loss_is_returned_and_accumulated (M64 : Externals)
    (lo hi : nat) (acc : float) (st : fit_state)
    (Xbatch Ybatch H : blas64General) (acts0 acts : list blas64General)
    (mlp1 : BaseMultilayerPerceptron64) (registry s : float) (b' : Buffers)
    (o o' : Optimizer64) (params' : list float) :
  RowSlice (iX (f_data st)) lo hi = Ok Xbatch ->
  RowSlice (iY (f_data st)) lo hi = Ok Ybatch ->
  store (activations (f_buffers st)) 0 Xbatch = Ok acts0 ->
  backprop_forward M64 (f_mlp st) (set_activations (f_buffers st) acts0)
  = Ok (mlp1, acts) ->
  load acts (length acts - 1) = Ok H ->
  call_loss M64 (effective_loss_name mlp1) Ybatch H = Ok registry ->
  sumCoefSquares mlp1 = Ok s ->
  backprop_backward M64 mlp1 (Rows Xbatch) Ybatch
    (set_activations (set_activations (f_buffers st) acts0) acts) = Ok b' ->
  optimizer mlp1 = Some o ->
  updateParams o (packedGrads b') (packedParameters mlp1) = Ok (o', params') ->
  let loss := registry + 0.5 * Alpha mlp1 * s / F64.of_nat (Rows Xbatch) in
  backprop M64 (f_mlp st) Xbatch Ybatch (set_activations (f_buffers st) acts0)
  = Ok (loss, mlp1, b') /\
  batch_step M64 lo hi (acc, st)
  = Ok (acc + loss * F64.of_nat (hi - lo),
        {| f_mlp := set_optimizer (set_packedParameters mlp1 params') (Some o');
           f_data := f_data st; f_buffers := b' |}).
Proof.
  intros HX HY Hacts Hfwd HH Hloss Hs Hbwd Ho Hupd loss.
  assert (backprop M64 (f_mlp st) Xbatch Ybatch
            (set_activations (f_buffers st) acts0) = Ok (loss, mlp1, b'))
    as Hback.
  { unfold backprop. rewrite Hfwd. simpl. rewrite HH. simpl.
    rewrite Hloss. simpl. rewrite Hs. simpl. rewrite Hbwd. reflexivity. }
  split; [exact Hback |].
  unfold batch_step. rewrite HX. simpl. rewrite HY. simpl.
  rewrite Hacts. simpl. rewrite Hback. simpl.
  unfold the_optimizer. rewrite Ho. simpl. rewrite Hupd. reflexivity.
Qed.

Lemma nonfinite_loss_witness :
  exists mlp1 b' o' params' Xbatch,
    batch_step reference 0 2 (0, huge_start)
    = Ok (0 + (infinity + 0.5 * Alpha mlp1 * 0.25 / F64.of_nat (Rows Xbatch))
              * F64.of_nat (2 - 0),
          {| f_mlp := set_optimizer (set_packedParameters mlp1 params')
                        (Some o');
             f_data := f_data huge_start; f_buffers := b' |}).
Proof.
  eexists _, _, _, _, _.
  refine (proj2 (nonfinite_loss_is_returned_and_accumulated reference 0 2 0
                   huge_start _ _ _ _ _ _ infinity 0.25 _ _ _ _
                   _ _ _ _ _ _ _ _ _ _)).
  - vm_compute. reflexivity.
  - vm_compute. reflexivity.
  - vm_compute. reflexivity.
  - vm_compute. reflexivity.
  - vm_compute. reflexivity.
  - vm_compute. reflexivity.
  - vm_compute. reflexivity.
  - vm_compute. reflexivity.
  - vm_compute. reflexivity.
  - vm_compute. reflexivity.
Defined.
End NonFinite.

(** ** Shuffling: rows follow the index *)

Lemma for_loop_ok_inv {St : Type} (I : nat -> St -> Prop)
    (body : nat -> St -> result St) (start count : nat) (s s' : St) :
  for_loop body start count s = Ok s' ->
  I start s ->
  (forall i u u', start <= i < start + count -> I i u ->
     body i u = Ok u' -> I (S i) u') ->
  I (start + count) s'.
Proof.
  revert start s. induction count as [|k IH]; intros start s Hrun H0 Hstep.
  - simpl in Hrun. injection Hrun as <-. rewrite Nat.add_0_r. exact H0.
  - simpl in Hrun. apply bind_Ok in Hrun as (u & Hb & Hrest).
    replace (start + S k) with (S start + k) by lia.
    apply (IH (S start) u Hrest).
    + apply (Hstep start s u); [lia | exact H0 | exact Hb].
    + intros i w w' Hi Hw Hbody. apply (Hstep i w w'); [lia | assumption..].
Qed.

Lemma store_inv {A} (d d' : list A) (i : nat) (v : A) :
  store d i v = Ok d' -> i < length d /\ d' = <[i:=v]> d.
Proof.
  unfold store. destruct (decide (i < length d)); [| discriminate].
  intros Heq. injection Heq as <-. split; [assumption | reflexivity].
Qed.

Lemma cell_eq_iff (W r c r' c' : nat) :
  c < W -> c' < W -> r * W + c = r' * W + c' <-> r = r' /\ c = c'.
Proof.
  intros Hc Hc'. split; [apply cell_inj; assumption |].
  intros [-> ->]. reflexivity.
Qed.

(** [swap_entries] exchanges two entries. *)
Lemma swap_entries_inv {A} (p p' : list A) (i j : nat) :
  swap_entries p i j = Ok p' ->
  exists vi vj, p !! i = Some vi /\ p !! j = Some vj /\
                p' = <[j:=vi]> (<[i:=vj]> p).
Proof.
  unfold swap_entries. intros Hrun.
  apply bind_Ok in Hrun as (vi & Hi & Hrun).
  apply bind_Ok in Hrun as (vj & Hj & Hrun).
  apply bind_Ok in Hrun as (p1 & H1 & Hrun).
  apply load_Ok in Hi, Hj.
  apply store_inv in H1 as [_ ->]. apply store_inv in Hrun as [_ ->].
  exists vi, vj. repeat split; assumption.
Qed.

(** [swap_rows] exchanges the cells of two rows and nothing else. *)
Lemma swap_rows_inv (z z' : blas64General) (i j : nat) :
  Cols z <= Stride z ->
  swap_rows z i j = Ok z' ->
  Rows z' = Rows z /\ Cols z' = Cols z /\ Stride z' = Stride z /\
  length (Data z') = length (Data z) /\
  (forall c, c < Cols z ->
     Data z' !! (i * Stride z + c) = Data z !! (j * Stride z + c) /\
     Data z' !! (j * Stride z + c) = Data z !! (i * Stride z + c)) /\
  (forall p, (forall c, c < Cols z ->
                p <> i * Stride z + c /\ p <> j * Stride z + c) ->
     Data z' !! p = Data z !! p).
Proof.
  intros Hcs. unfold swap_rows. intros Hrun.
  apply bind_Ok in Hrun as (d' & Hloop & Hret). injection Hret as <-.
  simpl. repeat (split; [reflexivity |]).
  set (W := Stride z) in *.
  pose (I := fun (c : nat) (d : list float) =>
    length d = length (Data z) /\
    (forall c', c' < c ->
       d !! (i * W + c') = Data z !! (j * W + c') /\
       d !! (j * W + c') = Data z !! (i * W + c')) /\
    (forall p, (forall c', c' < c -> p <> i * W + c' /\ p <> j * W + c') ->
       d !! p = Data z !! p)).
  assert (I (0 + Cols z) d') as (Hlen & Hcells & Hrest).
  { apply (for_loop_ok_inv I _ 0 (Cols z) (Data z) d' Hloop).
    - split; [reflexivity | split]; [intros c' Hc'; lia | reflexivity].
    - intros c d d1 Hc (Hlen & Hcells & Hrest) Hbody.
      apply bind_Ok in Hbody as (vi & Hvi & Hbody).
      apply bind_Ok in Hbody as (vj & Hvj & Hbody).
      apply bind_Ok in Hbody as (d2 & Hd2 & Hbody).
      apply load_Ok in Hvi, Hvj.
      apply store_inv in Hd2 as [Hi2 ->].
      apply store_inv in Hbody as [Hj2 ->].
      rewrite length_insert in Hj2.
      assert (d !! (i * W + c) = Data z !! (i * W + c)) as Hoi.
      { apply Hrest. intros c' Hc'. rewrite !cell_eq_iff by lia. lia. }
      assert (d !! (j * W + c) = Data z !! (j * W + c)) as Hoj.
      { apply Hrest. intros c' Hc'. rewrite !cell_eq_iff by lia. lia. }
      split; [rewrite !length_insert; exact Hlen | split].
      + intros c' Hc'. destruct (decide (c' = c)) as [-> | Hne].
        * destruct (decide (i = j)) as [-> | Hij].
          { rewrite list_lookup_insert_eq by (rewrite length_insert; lia).
            split; congruence. }
          split.
          { rewrite list_lookup_insert_ne by (rewrite cell_eq_iff; lia).
            rewrite list_lookup_insert_eq by lia. congruence. }
          { rewrite list_lookup_insert_eq by (rewrite length_insert; lia).
            congruence. }
        * rewrite !list_lookup_insert_ne by (rewrite cell_eq_iff; lia).
          apply Hcells. lia.
      + intros p Hp. destruct (Hp c) as [Hpi Hpj]; [lia |].
        rewrite !list_lookup_insert_ne by congruence.
        apply Hrest. intros c' Hc'. apply Hp. lia. }
  split; [exact Hlen | split].
  - intros c Hc. apply Hcells. lia.
  - intros p Hp. apply Hrest. intros c Hc. apply Hp. lia.
Qed.

Lemma rows_follow_swap (n : nat) (Z0 Z Z' : blas64General)
    (l : list nat) (i j vi vj : nat) :
  Cols Z0 <= Stride Z0 -> length l = n ->
  l !! i = Some vi -> l !! j = Some vj ->
  rows_follow n Z0 Z l ->
  swap_rows Z i j = Ok Z' ->
  rows_follow n Z0 Z' (<[j:=vi]> (<[i:=vj]> l)).
Proof.
  intros Hcs Hn Hi Hj (HR & HC & HS & HL & Hrows & Hrest) Hswap.
  apply swap_rows_inv in Hswap as (HR' & HC' & HS' & HL' & Hcells & Hother);
    [| lia].
  rewrite HC, HS in Hcells, Hother.
  assert (i < n /\ j < n) as [Hin Hjn].
  { apply lookup_lt_Some in Hi, Hj. lia. }
  unfold rows_follow. rewrite HR', HC', HS', HL'.
  repeat (split; [assumption |]). split.
  - intros k r c Hk Hc.
    destruct (decide (k = j)) as [-> | Hkj].
    + rewrite list_lookup_insert_eq in Hk by (rewrite length_insert; lia).
      injection Hk as <-.
      rewrite (proj2 (Hcells c Hc)). apply Hrows; assumption.
    + rewrite list_lookup_insert_ne in Hk by congruence.
      destruct (decide (k = i)) as [-> | Hki].
      * rewrite list_lookup_insert_eq in Hk by lia. injection Hk as <-.
        rewrite (proj1 (Hcells c Hc)). apply Hrows; assumption.
      * rewrite list_lookup_insert_ne in Hk by congruence.
        rewrite Hother; [apply Hrows; assumption |].
        intros c' Hc'. rewrite !cell_eq_iff by lia. lia.
  - intros p Hp. rewrite Hother; [apply Hrest; exact Hp |].
    intros c Hc. split; apply Hp; assumption.
Qed.

(** Exchanging two entries of a slice permutes it. *)
Lemma swapped_Permutation {A} (l : list A) (i j : nat) (vi vj : A) :
  l !! i = Some vi -> l !! j = Some vj -> <[j:=vi]> (<[i:=vj]> l) ≡ₚ l.
Proof.
  intros Hi Hj. destruct (decide (i = j)) as [-> | Hij].
  - rewrite list_insert_insert_eq.
    rewrite list_insert_id by congruence. reflexivity.
  - assert (i < length l /\ j < length l) as [Hil Hjl].
    { apply lookup_lt_Some in Hi, Hj. lia. }
    symmetry. apply Permutation_inj.
    split; [rewrite !length_insert; reflexivity |].
    exists (fun k => if decide (k = i) then j
                     else if decide (k = j) then i else k).
    split.
    + intros a b Hab. repeat case_decide; lia.
    + intros k. repeat case_decide; subst.
      * rewrite list_lookup_insert_eq by (rewrite length_insert; lia).
        exact Hi.
      * rewrite list_lookup_insert_ne by congruence.
        rewrite list_lookup_insert_eq by lia. exact Hj.
      * rewrite !list_lookup_insert_ne by congruence. reflexivity.
Qed.

(** [Swap] keeps the rows in step with the index. *)
Lemma shuffled_Swap (X y : blas64General) (s s' : indexedXY) (i j : nat) :
  Cols X <= Stride X -> Cols y <= Stride y ->
  indexedXY_Swap s i j = Ok s' -> shuffled X y s -> shuffled X y s'.
Proof.
  intros HX Hy Hswap (Hperm & HfX & HfY). unfold indexedXY_Swap in Hswap.
  apply bind_Ok in Hswap as (l' & Hl & Hswap).
  apply bind_Ok in Hswap as (X' & HX' & Hswap).
  apply bind_Ok in Hswap as (Y' & HY' & Hswap).
  injection Hswap as <-. unfold shuffled. simpl.
  apply swap_entries_inv in Hl as (vi & vj & Hi & Hj & ->).
  assert (length (idx s) = Rows X) as Hlen.
  { rewrite Hperm. apply length_seq. }
  split; [| split].
  - rewrite <- Hperm. eapply swapped_Permutation; eassumption.
  - eapply rows_follow_swap; eassumption.
  - eapply rows_follow_swap; eassumption.
Qed.

(** With the index back in order, the matrix is the one the caller
    passed. *)
Lemma rows_follow_identity (Z0 Z : blas64General) (n : nat) :
  Cols Z0 <= Stride Z0 -> rows_follow n Z0 Z (seq 0 n) -> Z = Z0.
Proof.
  intros Hcs (HR & HC & HS & HL & Hrows & Hrest).
  assert (Data Z = Data Z0) as HD.
  { apply list_eq. intros p.
    destruct (decide (Stride Z0 = 0)) as [H0 | Hpos].
    - apply Hrest. intros k c Hk Hc. lia.
    - destruct (decide (p / Stride Z0 < n /\ p mod Stride Z0 < Cols Z0))
        as [[Hk Hc] | Hout].
      + pose proof (Nat.div_mod_eq p (Stride Z0)) as Hp.
        replace p with (p / Stride Z0 * Stride Z0 + p mod Stride Z0) by lia.
        apply Hrows; [| exact Hc]. rewrite lookup_seq_lt by exact Hk.
        reflexivity.
      + apply Hrest. intros k c Hk Hc Hp. apply Hout.
        assert (p / Stride Z0 = k /\ p mod Stride Z0 = c) as [-> ->]; [| lia].
        subst p. split.
        * rewrite Nat.div_add_l by exact Hpos.
          rewrite Nat.div_small by lia. lia.
        * rewrite Nat.add_comm, Nat.Div0.mod_add. apply Nat.mod_small. lia. }
  destruct Z, Z0. simpl in *. subst. reflexivity.
Qed.

(** ** Sorting the index back *)

Section SortPreserves.
Context {St : Type}.
Context (Less : St -> nat -> nat -> result bool).
Context (Swap : St -> nat -> nat -> result St).
Context (P : St -> Prop).
Hypothesis Swap_keeps : forall s i j s', Swap s i j = Ok s' -> P s -> P s'.

Lemma sift_preserves (j : nat) (s s' : St) :
  sift Less Swap j s = Ok s' -> P s -> P s'.
Proof using Swap_keeps.
  revert s. induction j as [|j IH]; intros s Hrun Hs.
  - simpl in Hrun. injection Hrun as <-. exact Hs.
  - simpl in Hrun. apply bind_Ok in Hrun as (lt & _ & Hrun).
    destruct lt.
    + apply bind_Ok in Hrun as (s1 & Hswap & Hrun).
      eapply IH; [exact Hrun |]. eapply Swap_keeps; eassumption.
    + injection Hrun as <-. exact Hs.
Qed.

Lemma sort_Sort_preserves (n : nat) (s s' : St) :
  sort_Sort Less Swap n s = Ok s' -> P s -> P s'.
Proof using Swap_keeps.
  unfold sort_Sort, insertionSort. intros Hrun Hs.
  apply (for_loop_ok_inv (fun _ u => P u) _ 1 (n - 1) s s' Hrun Hs).
  intros i u u' _ Hu Hbody. eapply sift_preserves; eassumption.
Qed.
End SortPreserves.

Lemma indexedXY_Less_inv (s : indexedXY) (i j : nat) (lt : bool) :
  indexedXY_Less s i j = Ok lt ->
  exists x y, idx s !! i = Some x /\ idx s !! j = Some y /\ lt = (x <? y).
Proof.
  unfold indexedXY_Less. intros Hrun.
  apply bind_Ok in Hrun as (x & Hx & Hrun).
  apply bind_Ok in Hrun as (y & Hy & Hrun).
  injection Hrun as <-. apply load_Ok in Hx, Hy.
  exists x, y. repeat split; assumption.
Qed.

Lemma indexedXY_Swap_idx (s s' : indexedXY) (i j : nat) :
  indexedXY_Swap s i j = Ok s' ->
  exists vi vj, idx s !! i = Some vi /\ idx s !! j = Some vj /\
                idx s' = <[j:=vi]> (<[i:=vj]> (idx s)).
Proof.
  unfold indexedXY_Swap. intros Hrun.
  apply bind_Ok in Hrun as (l' & Hl & Hrun).
  apply bind_Ok in Hrun as (X' & _ & Hrun).
  apply bind_Ok in Hrun as (Y' & _ & Hrun).
  injection Hrun as <-. simpl. apply swap_entries_inv. exact Hl.
Qed.

Lemma lookup_swapped {A} (l : list A) (i j k : nat) (vi vj : A) :
  l !! i = Some vi -> l !! j = Some vj ->
  <[j:=vi]> (<[i:=vj]> l) !! k
  = if decide (k = j) then Some vi
    else if decide (k = i) then Some vj else l !! k.
Proof.
  intros Hi Hj. apply lookup_lt_Some in Hi as Hil, Hj as Hjl.
  repeat case_decide; subst.
  - apply list_lookup_insert_eq. rewrite length_insert. exact Hjl.
  - rewrite list_lookup_insert_ne by congruence.
    apply list_lookup_insert_eq. exact Hil.
  - rewrite !list_lookup_insert_ne by congruence. reflexivity.
Qed.

(** The inner loop puts the entry at [j] in its place. *)
Lemma sift_orders (i j : nat) (s s' : indexedXY) :
  j <= i ->
  sift indexedXY_Less indexedXY_Swap j s = Ok s' ->
  insert_ready i j (idx s) -> ordered_upto i (idx s').
Proof.
  revert s. induction j as [|j IH]; intros s Hji Hrun [Hrest Hat].
  - simpl in Hrun. injection Hrun as <-.
    intros a b x y Hab Hb Ha Hb'.
    destruct (decide (a = 0)) as [-> | Ha0].
    + eapply Hat; [exact Hab | exact Hb | exact Ha | exact Hb'].
    + eapply (Hrest a b); [lia.. | exact Ha | exact Hb'].
  - simpl in Hrun. apply bind_Ok in Hrun as (lt & Hless & Hrun).
    apply indexedXY_Less_inv in Hless as (x & y & Hx & Hy & ->).
    destruct (x <? y) eqn:Hlt.
    + apply Nat.ltb_lt in Hlt.
      apply bind_Ok in Hrun as (s1 & Hswap & Hrun).
      apply indexedXY_Swap_idx in Hswap as (vi & vj & Hvi & Hvj & Hidx).
      assert (vi = x) as -> by congruence.
      assert (vj = y) as -> by congruence.
      apply (IH s1); [lia | exact Hrun |]. rewrite Hidx. split.
      * intros a b xa xb Hab Hb Haj Hbj Ha Hb'.
        rewrite lookup_swapped in Ha, Hb' by assumption.
        rewrite decide_False in Ha by exact Haj.
        rewrite decide_False in Hb' by exact Hbj.
        destruct (decide (a = S j)) as [-> | Ha'];
          destruct (decide (b = S j)) as [-> | Hb'']; simpl in *.
        -- lia.
        -- injection Ha as <-.
           eapply (Hrest j b); [lia.. | exact Hy | exact Hb'].
        -- injection Hb' as <-.
           eapply (Hrest a j); [lia.. | exact Ha | exact Hy].
        -- eapply (Hrest a b); [lia.. | exact Ha | exact Hb'].
      * intros b xa xb Hjb Hb Ha Hb'.
        rewrite lookup_swapped in Ha, Hb' by assumption.
        rewrite decide_True in Ha by reflexivity. injection Ha as <-.
        rewrite decide_False in Hb' by lia.
        destruct (decide (b = S j)) as [-> | Hb'']; simpl in *.
        -- injection Hb' as <-. lia.
        -- eapply (Hat b); [lia | lia | exact Hx | exact Hb'].
    + apply Nat.ltb_ge in Hlt. injection Hrun as <-.
      intros a b xa xb Hab Hb Ha Hb'.
      destruct (decide (b = S j)) as [-> | Hbj].
      * assert (xb = x) as -> by congruence.
        destruct (decide (a = j)) as [-> | Haj].
        -- assert (xa = y) as -> by congruence. exact Hlt.
        -- assert (xa <= y); [| lia].
           eapply (Hrest a j); [lia.. | exact Ha | exact Hy].
      * destruct (decide (a = S j)) as [-> | Haj].
        -- eapply (Hat b); [lia | lia | exact Ha | exact Hb'].
        -- eapply (Hrest a b); [lia.. | exact Ha | exact Hb'].
Qed.

(** The insertion sort leaves the whole index in order. *)
Lemma sort_Sort_orders (n : nat) (s s' : indexedXY) :
  sort_Sort indexedXY_Less indexedXY_Swap n s = Ok s' ->
  ordered_upto (n - 1) (idx s').
Proof.
  unfold sort_Sort, insertionSort. intros Hrun.
  pose proof (for_loop_ok_inv (fun i u => ordered_upto (i - 1) (idx u))
                _ 1 (n - 1) s s' Hrun) as Hinv.
  assert (ordered_upto (1 + (n - 1) - 1) (idx s')) as Hord.
  { apply Hinv.
    - intros a b x y Hab Hb. lia.
    - intros i u u' Hi Hu Hbody.
      replace (S i - 1) with i by lia.
      apply (sift_orders i i u u'); [lia | exact Hbody |]. split.
      + intros a b x y Hab Hb Hai Hbi. apply Hu; lia.
      + intros b x y Hib Hb. lia. }
  replace (1 + (n - 1) - 1) with (n - 1) in Hord by lia. exact Hord.
Qed.

Lemma ordered_Sorted (l : list nat) :
  (forall a b x y, a < b -> l !! a = Some x -> l !! b = Some y -> x <= y) ->
  Sorted le l.
Proof.
  induction l as [|x l IH]; intros Hord; constructor.
  - apply IH. intros a b xa xb Hab Ha Hb.
    apply (Hord (S a) (S b)); [lia | exact Ha | exact Hb].
  - destruct l as [|z l]; constructor.
    apply (Hord 0 1); [lia | reflexivity | reflexivity].
Qed.

(** A permutation of [0 .. n-1] that is in order is [0 .. n-1]. *)
Lemma ordered_permutation_of_seq (l : list nat) (n : nat) :
  l ≡ₚ seq 0 n -> ordered_upto (n - 1) l -> l = seq 0 n.
Proof.
  intros Hperm Hord.
  assert (length l = n) as Hlen by (rewrite Hperm; apply length_seq).
  apply (Sorted_unique le); [| | exact Hperm].
  - apply ordered_Sorted. intros a b x y Hab Ha Hb.
    apply (Hord a b); [exact Hab | | exact Ha | exact Hb].
    apply lookup_lt_Some in Hb. lia.
  - apply ordered_Sorted. intros a b x y Hab Ha Hb.
    apply lookup_seq in Ha as [-> _]. apply lookup_seq in Hb as [-> _]. lia.
Qed.

(** ** The training loop: what it keeps *)

Lemma for_break_preserves {St : Type} (P : St -> Prop)
    (body : nat -> St -> result (St * bool)) (start count : nat) (s s' : St) :
  (forall i u u' stop, body i u = Ok (u', stop) -> P u -> P u') ->
  for_break body start count s = Ok s' -> P s -> P s'.
Proof.
  intros Hbody. revert start s.
  induction count as [|k IH]; intros start s Hrun Hs.
  - simpl in Hrun. injection Hrun as <-. exact Hs.
  - simpl in Hrun. apply bind_Ok in Hrun as ([u stop] & Hstep & Hrun).
    apply Hbody in Hstep; [| exact Hs]. destruct stop.
    + injection Hrun as <-. exact Hstep.
    + eapply IH; eassumption.
Qed.

Ltac break_ifs H :=
  repeat match type of H with
         | context [if ?c then _ else _] => destruct c
         end.

Lemma backprop_keeps_Shuffle (M64 : Externals)
    (mlp mlp' : BaseMultilayerPerceptron64) (X y : blas64General)
    (b b' : Buffers) (loss : float) :
  backprop M64 mlp X y b = Ok (loss, mlp', b') -> Shuffle mlp' = Shuffle mlp.
Proof.
  unfold backprop. intros Hrun.
  apply bind_Ok in Hrun as ([mlp1 acts] & Hfwd & Hrun).
  repeat (apply bind_Ok in Hrun as (? & _ & Hrun)).
  injection Hrun as _ <- _.
  unfold backprop_forward in Hfwd.
  apply bind_Ok in Hfwd as (acts0 & _ & Hfwd).
  assert (Shuffle (decay mlp) = Shuffle mlp) as Hd.
  { unfold decay. destruct (F64.gtb (WeightDecay mlp) 0); reflexivity. }
  destruct (BatchNormalize (decay mlp)).
  - apply bind_Ok in Hfwd as ([bn acts1] & _ & Hfwd).
    injection Hfwd as <- _. exact Hd.
  - injection Hfwd as <- _. exact Hd.
Qed.

(** A field that the assignments of a batch step leave alone is the same
    after the step. *)
Section BatchFrame.
Context {A : Type} (f : BaseMultilayerPerceptron64 -> A).
Hypothesis f_packedParameters :
  forall m v, f (set_packedParameters m v) = f m.
Hypothesis f_batchNorm : forall m v, f (set_batchNorm m v) = f m.

Lemma backprop_frame (M64 : Externals)
    (mlp mlp' : BaseMultilayerPerceptron64) (X y : blas64General)
    (b b' : Buffers) (loss : float) :
  backprop M64 mlp X y b = Ok (loss, mlp', b') -> f mlp' = f mlp.
Proof using f_packedParameters f_batchNorm.
  unfold backprop. intros Hrun.
  apply bind_Ok in Hrun as ([mlp1 acts] & Hfwd & Hrun).
  repeat (apply bind_Ok in Hrun as (? & _ & Hrun)).
  injection Hrun as _ <- _.
  unfold backprop_forward in Hfwd.
  apply bind_Ok in Hfwd as (acts0 & _ & Hfwd).
  assert (f (decay mlp) = f mlp) as Hd.
  { unfold decay. destruct (F64.gtb (WeightDecay mlp) 0);
      [apply f_packedParameters | reflexivity]. }
  destruct (BatchNormalize (decay mlp)).
  - apply bind_Ok in Hfwd as ([bn acts1] & _ & Hfwd).
    injection Hfwd as <- _. rewrite f_batchNorm. exact Hd.
  - injection Hfwd as <- _. exact Hd.
Qed.

Hypothesis f_optimizer : forall m v, f (set_optimizer m v) = f m.

Lemma batch_step_frame (M64 : Externals) (lo hi : nat)
    (acc acc' : float) (st st' : fit_state) :
  batch_step M64 lo hi (acc, st) = Ok (acc', st') ->
  f (f_mlp st') = f (f_mlp st).
Proof using f_packedParameters f_batchNorm f_optimizer.
  unfold batch_step. intros Hrun.
  apply bind_Ok in Hrun as (Xb & _ & Hrun).
  apply bind_Ok in Hrun as (Yb & _ & Hrun).
  apply bind_Ok in Hrun as (acts & _ & Hrun).
  apply bind_Ok in Hrun as ([[loss mlp1] b1] & Hback & Hrun).
  apply bind_Ok in Hrun as (o & _ & Hrun).
  apply bind_Ok in Hrun as ([o' params] & _ & Hrun).
  injection Hrun as _ <-. simpl.
  rewrite f_optimizer, f_packedParameters.
  eapply backprop_frame. exact Hback.
Qed.

Lemma minibatch_sweep_frame (M64 : Externals) (batchSize : Z)
    (trainRows : nat) (acc : float) (st st' : fit_state) :
  minibatch_sweep M64 batchSize trainRows st = Ok (acc, st') ->
  f (f_mlp st') = f (f_mlp st).
Proof using f_packedParameters f_batchNorm f_optimizer.
  unfold minibatch_sweep. intros Hrun.
  destruct (trainRows =? 0).
  { injection Hrun as _ <-. reflexivity. }
  destruct (batchSize <? 0)%Z; [discriminate |].
  destruct (batchSize =? 0)%Z; [discriminate |].
  apply (foldM_preserves
           (fun a : float * fit_state => f (f_mlp (snd a)) = f (f_mlp st)))
    in Hrun.
  - exact Hrun.
  - intros [lo hi] [a u] [a' u'] Hstep Hu. simpl in *.
    apply batch_step_frame in Hstep. congruence.
  - reflexivity.
Qed.
End BatchFrame.

(** ** The forward pass and the input matrix *)

(** With an output layer after the input, the forward pass writes to the
    activations after the first only: [activations[0]], the input, is
    left alone. *)
Lemma forwardPass_keeps_input (M64 : Externals)
    (mlp : BaseMultilayerPerceptron64) (acts acts' : list blas64General) :
  2 <= NLayers mlp -> forwardPass M64 mlp acts = Ok acts' ->
  acts' !! 0 = acts !! 0.
Proof.
  intros HN Hrun. unfold forwardPass in Hrun.
  apply bind_Ok in Hrun as (a1 & Hloop & Hrun).
  destruct (NLayers mlp =? 0); [discriminate |].
  apply bind_Ok in Hrun as (a & _ & Hrun).
  apply bind_Ok in Hrun as (a' & _ & Hrun).
  apply store_inv in Hrun as [_ ->].
  rewrite list_lookup_insert_ne by lia.
  unfold for_range in Hloop.
  apply (for_loop_ok_inv (fun _ u => u !! 0 = acts !! 0) _ _ _ _ _ Hloop);
    [reflexivity |].
  intros i u u' _ Hu Hbody.
  repeat (apply bind_Ok in Hbody as (? & _ & Hbody)).
  apply store_inv in Hbody as [_ ->].
  rewrite list_lookup_insert_ne by lia. exact Hu.
Qed.

Lemma predictProbas_keeps_input (M64 : Externals)
    (mlp : BaseMultilayerPerceptron64) (X Y : blas64General)
    (dX d : list float) :
  2 <= NLayers mlp -> predictProbas M64 mlp X Y = Ok (dX, d) ->
  dX = Data X.
Proof.
  intros HN Hrun. unfold predictProbas in Hrun.
  apply bind_Ok in Hrun as (acts & Hfwd & Hrun).
  apply bind_Ok in Hrun as (Xout & HX & Hrun).
  apply bind_Ok in Hrun as (Yout & _ & Hrun).
  injection Hrun as <- _.
  apply forwardPass_keeps_input in Hfwd; [| exact HN].
  apply load_Ok in HX. rewrite Hfwd in HX. injection HX as <-. reflexivity.
Qed.

Lemma predict_keeps_input (M64 : Externals)
    (mlp : BaseMultilayerPerceptron64) (X Y : blas64General)
    (dX d : list float) :
  2 <= NLayers mlp -> predict M64 mlp X Y = Ok (dX, d) -> dX = Data X.
Proof.
  intros HN Hrun. unfold predict in Hrun.
  destruct (lb mlp) as [binarizer|].
  - apply bind_Ok in Hrun as (ybin & _ & Hrun).
    apply bind_Ok in Hrun as ([dX1 d1] & Hp & Hrun).
    apply bind_Ok in Hrun as (Yc & _ & Hrun).
    apply bind_Ok in Hrun as (d2 & _ & Hrun).
    injection Hrun as <- _. eapply predictProbas_keeps_input; eassumption.
  - apply bind_Ok in Hrun as ([dX1 d1] & Hp & Hrun).
    apply predictProbas_keeps_input in Hp; [| exact HN].
    destruct (IsClassifier mlp).
    + apply bind_Ok in Hrun as (d2 & _ & Hrun).
      injection Hrun as <- _. exact Hp.
    + injection Hrun as <- _. exact Hp.
Qed.

Lemma score_keeps_input (M64 : Externals)
    (mlp : BaseMultilayerPerceptron64) (X Y : blas64General)
    (s : float) (dX : list float) :
  2 <= NLayers mlp -> score M64 mlp X Y = Ok (s, dX) -> dX = Data X.
Proof.
  intros HN Hrun. unfold score in Hrun.
  apply bind_Ok in Hrun as ([dX1 d1] & Hp & Hrun).
  apply bind_Ok in Hrun as (s1 & _ & Hrun).
  injection Hrun as _ <-. eapply predict_keeps_input; eassumption.
Qed.

(** Writing back what a view holds changes nothing. *)
Lemma splice_view {A} (d : list A) (lo k : nat) :
  splice d lo (take k (drop lo d)) = d.
Proof.
  unfold splice. rewrite <- drop_drop.
  assert (take k (drop lo d)
          ++ drop (length (take k (drop lo d))) (drop lo d) = drop lo d)
    as ->.
  { destruct (decide (k <= length (drop lo d))) as [Hk | Hk].
    - rewrite length_take, Nat.min_l by exact Hk. apply take_drop.
    - rewrite take_ge by lia. rewrite drop_all. apply app_nil_r. }
  apply take_drop.
Qed.

Lemma held_out_unwritten (s : indexedXY) (lo hi : nat) (XVal : blas64General) :
  RowSlice (iX s) lo hi = Ok XVal ->
  held_out_written s lo (Data XVal) = s.
Proof.
  unfold RowSlice. destruct (decide _); [| discriminate].
  intros H. injection H as <-. unfold held_out_written. simpl.
  rewrite splice_view. destruct s as [l [r c w d] Y]. reflexivity.
Qed.

(** A batch works on views of the rows: it leaves the matrices and the
    index as they are. *)
Lemma batch_step_keeps (M64 : Externals) (lo hi : nat)
    (acc acc' : float) (st st' : fit_state) :
  batch_step M64 lo hi (acc, st) = Ok (acc', st') ->
  f_data st' = f_data st /\ Shuffle (f_mlp st') = Shuffle (f_mlp st).
Proof.
  unfold batch_step. intros Hrun.
  apply bind_Ok in Hrun as (Xb & _ & Hrun).
  apply bind_Ok in Hrun as (Yb & _ & Hrun).
  apply bind_Ok in Hrun as (acts & _ & Hrun).
  apply bind_Ok in Hrun as ([[loss mlp1] b1] & Hback & Hrun).
  apply bind_Ok in Hrun as (o & _ & Hrun).
  apply bind_Ok in Hrun as ([o' params] & _ & Hrun).
  injection Hrun as _ <-. simpl.
  apply backprop_keeps_Shuffle in Hback. split; [reflexivity | exact Hback].
Qed.

Lemma minibatch_sweep_keeps (M64 : Externals) (batchSize : Z)
    (trainRows : nat) (acc : float) (st st' : fit_state) :
  minibatch_sweep M64 batchSize trainRows st = Ok (acc, st') ->
  f_data st' = f_data st /\ Shuffle (f_mlp st') = Shuffle (f_mlp st).
Proof.
  unfold minibatch_sweep. intros Hrun.
  destruct (trainRows =? 0).
  { injection Hrun as _ <-. split; reflexivity. }
  destruct (batchSize <? 0)%Z; [discriminate |].
  destruct (batchSize =? 0)%Z; [discriminate |].
  apply (foldM_preserves
           (fun a : float * fit_state =>
              f_data (snd a) = f_data st /\
              Shuffle (f_mlp (snd a)) = Shuffle (f_mlp st))) in Hrun.
  - exact Hrun.
  - intros [lo hi] [a u] [a' u'] Hstep [Hd Hs]. simpl in *.
    apply batch_step_keeps in Hstep as [Hd' Hs']. split; congruence.
  - split; reflexivity.
Qed.

(** The bookkeeping at the end of an epoch does not touch the loss just
    recorded, nor the [Shuffle] setting. *)
Lemma updateNoImprovementCount_keeps (M64 : Externals)
    (mlp mlp' : BaseMultilayerPerceptron64) (earlyStopping : bool)
    (XVal yVal : blas64General) (dXVal : list float) :
  updateNoImprovementCount M64 mlp earlyStopping XVal yVal
  = Ok (mlp', dXVal) ->
  same_record mlp mlp' /\ NLayers mlp' = NLayers mlp.
Proof.
  unfold updateNoImprovementCount. intros Hrun.
  apply bind_Ok in Hrun as ([m1 d1] & H1 & Hrun).
  apply bind_Ok in Hrun as (lastLoss & _ & Hrun).
  assert (same_record mlp m1 /\ NLayers m1 = NLayers mlp) as Hm1.
  { destruct earlyStopping.
    - apply bind_Ok in H1 as ([sc dX] & _ & H1).
      break_ifs H1; injection H1 as <- _; repeat split.
    - injection H1 as <- _. repeat split. }
  break_ifs Hrun; injection Hrun as <- _; exact Hm1.
Qed.

(** With an output layer after the input, the scoring leaves the held-out
    rows of [X] as they are. *)
Lemma updateNoImprovementCount_keeps_input (M64 : Externals)
    (mlp mlp' : BaseMultilayerPerceptron64) (earlyStopping : bool)
    (XVal yVal : blas64General) (dXVal : list float) :
  2 <= NLayers mlp ->
  updateNoImprovementCount M64 mlp earlyStopping XVal yVal
  = Ok (mlp', dXVal) ->
  dXVal = Data XVal.
Proof.
  unfold updateNoImprovementCount. intros HN Hrun.
  apply bind_Ok in Hrun as ([m1 d1] & H1 & Hrun).
  apply bind_Ok in Hrun as (lastLoss & _ & Hrun).
  injection Hrun as _ <-.
  destruct earlyStopping.
  - apply bind_Ok in H1 as ([sc dX] & Hs & H1).
    apply score_keeps_input in Hs; [| exact HN].
    break_ifs H1; injection H1 as _ <-; exact Hs.
  - injection H1 as _ <-. reflexivity.
Qed.

Lemma check_stopping_keeps (mlp mlp' : BaseMultilayerPerceptron64)
    (earlyStopping stop : bool) :
  check_stopping mlp earlyStopping = Ok (mlp', stop) ->
  same_record mlp mlp' /\ NLayers mlp' = NLayers mlp.
Proof.
  unfold check_stopping. intros Hrun.
  destruct (NIterNoChange mlp <? Z.of_nat (NoImprovementCount mlp))%Z.
  - apply bind_Ok in Hrun as (o & _ & Hrun).
    destruct (triggerStopping o _ (Verbose mlp)) as [isStopping o'].
    destruct isStopping; injection Hrun as <- _; repeat split.
  - injection Hrun as <- _. repeat split.
Qed.

Lemma shuffle_keeps_shuffled (rnd : RandomState) (call n : nat)
    (X y : blas64General) (s s' : indexedXY) :
  Cols X <= Stride X -> Cols y <= Stride y ->
  shuffle rnd call n s = Ok s' -> shuffled X y s -> shuffled X y s'.
Proof.
  intros HX Hy. unfold shuffle. apply foldM_preserves.
  intros [i j] u u' Hswap. eapply shuffled_Swap; eassumption.
Qed.

(** An epoch permutes the rows through [Swap] only, and leaves the
    [Shuffle] setting and the number of layers alone. *)
Lemma epoch_keeps (M64 : Externals) (rnd : RandomState)
    (earlyStopping incremental stop : bool) (nSamples testSize it : nat)
    (X y : blas64General) (st st' : fit_state) :
  Cols X <= Stride X -> Cols y <= Stride y ->
  2 <= NLayers (f_mlp st) ->
  epoch M64 rnd earlyStopping incremental nSamples testSize it st
  = Ok (st', stop) ->
  shuffled X y (f_data st) ->
  shuffled X y (f_data st') /\ Shuffle (f_mlp st') = Shuffle (f_mlp st) /\
  NLayers (f_mlp st') = NLayers (f_mlp st).
Proof.
  intros HX Hy HN Hrun Hsh. unfold epoch in Hrun.
  apply bind_Ok in Hrun as (data & Hdata & Hrun).
  apply bind_Ok in Hrun as ([acc st1] & Hsweep & Hrun).
  apply bind_Ok in Hrun as (XVal & HXVal & Hrun).
  apply bind_Ok in Hrun as (yVal & _ & Hrun).
  apply bind_Ok in Hrun as ([mlp1 dXVal] & Hupd & Hrun).
  apply bind_Ok in Hrun as (o & _ & Hrun).
  apply bind_Ok in Hrun as ([mlp2 stop'] & Hcheck & Hrun).
  injection Hrun as <- _. simpl.
  pose proof (minibatch_sweep_frame NLayers (fun _ _ => eq_refl)
                (fun _ _ => eq_refl) (fun _ _ => eq_refl) _ _ _ _ _ _ Hsweep)
    as HN1. simpl in HN1.
  apply minibatch_sweep_keeps in Hsweep as [Hd Hs]. simpl in Hd, Hs.
  apply updateNoImprovementCount_keeps_input in Hupd as Hin;
    [| simpl; lia].
  apply updateNoImprovementCount_keeps in Hupd as ((Hupd & _) & HN2).
  simpl in Hupd, HN2.
  apply check_stopping_keeps in Hcheck as ((Hcheck & _) & HN3).
  simpl in Hcheck, HN3.
  split; [| split; congruence].
  rewrite Hin, (held_out_unwritten _ _ _ _ HXVal), Hd.
  destruct (Shuffle (f_mlp st)).
  - eapply shuffle_keeps_shuffled; eassumption.
  - injection Hdata as <-. exact Hsh.
Qed.

(** Whatever sequence of [Swap]s brought the index back in order, the
    matrices are the ones the caller passed. *)
Lemma ordered_index_restores_rows (X y : blas64General) (s : indexedXY) :
  Cols X <= Stride X -> Cols y <= Stride y ->
  shuffled X y s -> ordered_upto (Rows X - 1) (idx s) ->
  iX s = X /\ iY s = y /\ idx s = seq 0 (Rows X).
Proof.
  intros HX Hy (Hperm & HfX & HfY) Hord.
  apply ordered_permutation_of_seq in Hord; [| exact Hperm].
  rewrite Hord in HfX, HfY.
  apply rows_follow_identity in HfX, HfY; try assumption.
  repeat split; assumption.
Qed.

Lemma shuffled_start (X y : blas64General) :
  shuffled X y {| idx := seq 0 (Rows X); iX := X; iY := y |}.
Proof.
  split; [reflexivity |]. simpl.
  split; (repeat (split; [reflexivity |]); split; [| reflexivity]);
    intros k r c Hk _; apply lookup_seq in Hk as [-> _]; reflexivity.
Qed.

(** C9: a stochastic fit with shuffling enabled, of a network with an
    output layer after its input, that returns hands back the input
    matrix and the target matrix as it received them: the rows the
    shuffles moved are where they were, and nothing else in the two slices
    has changed. *)
Theorem shuffled_rows_are_restored (M64 : Externals) (rndShuffle : RandomState)
    (mlp : BaseMultilayerPerceptron64) (X y : blas64General) (b : Buffers)
    (incremental : bool) (st : fit_state) :
  Cols X <= Stride X -> Cols y <= Stride y ->
  2 <= NLayers mlp ->
  Shuffle mlp = true ->
  fitStochastic M64 rndShuffle mlp X y b incremental = Ok st ->
  iX (f_data st) = X /\ iY (f_data st) = y /\
  idx (f_data st) = seq 0 (Rows X).
Proof.
  intros HX Hy HN Hshuffle Hrun. unfold fitStochastic in Hrun.
  set (mlp0 := if negb incremental
                  || negb (bool_decide (is_Some (optimizer mlp)))
               then set_optimizer mlp (new_optimizer mlp) else mlp) in Hrun.
  assert (Shuffle mlp0 = true /\ NLayers mlp0 = NLayers mlp) as [H0 HN0].
  { unfold mlp0. destruct (_ || _); split; reflexivity || exact Hshuffle. }
  apply bind_Ok in Hrun as ([testSize mlp1] & Hsize & Hrun).
  assert (Shuffle mlp1 = true /\ NLayers mlp1 = NLayers mlp) as [H1 HN1].
  { break_ifs Hsize; try discriminate; injection Hsize as _ <-;
      split; assumption. }
  apply bind_Ok in Hrun as (st1 & Hloop & Hrun).
  apply (for_break_preserves
           (fun u => shuffled X y (f_data u) /\ Shuffle (f_mlp u) = true /\
                     NLayers (f_mlp u) = NLayers mlp))
    in Hloop as (Hsh & Hs1 & _).
  - assert (Shuffle (if EarlyStopping mlp0 && negb incremental
                     then set_packedParameters (f_mlp st1)
                            (copy (packedParameters (f_mlp st1))
                                  (bestParameters (f_mlp st1)))
                     else f_mlp st1) = true) as Hs2.
    { destruct (_ && _); exact Hs1. }
    rewrite Hs2 in Hrun.
    apply bind_Ok in Hrun as (data & Hsort & Hrun). injection Hrun as <-.
    simpl.
    assert (shuffled X y data) as Hdata.
    { eapply (sort_Sort_preserves indexedXY_Less indexedXY_Swap);
        [| exact Hsort | exact Hsh].
      intros s i j s'. apply shuffled_Swap; assumption. }
    apply sort_Sort_orders in Hsort.
    assert (length (idx (f_data st1)) = Rows X) as Hlen.
    { destruct Hsh as (Hp & _). rewrite Hp. apply length_seq. }
    rewrite Hlen in Hsort.
    apply ordered_index_restores_rows; assumption.
  - intros i u u' stop Hstep (Hsh & Hs & HNu).
    destruct (epoch_keeps M64 rndShuffle _ _ _ _ _ _ X y u u' HX Hy
                ltac:(lia) Hstep Hsh) as (Hsh' & Hs' & HN').
    split; [exact Hsh' | split; congruence].
  - simpl. split; [apply shuffled_start | split; assumption].
Qed.

(** The sample fit under Adam, stopped by its cap of three epochs, each
    with three swaps: the rows stand in the order 2, 3, 0, 1 when the
    loop ends, and the sort puts them back. *)
Lemma shuffled_rows_witness :
  exists st,
    fitStochastic reference sample_shuffle
      (sample_regressor "adam" false true 10 3 2)
      sample_X sample_y sample_buffers false = Ok st /\
    iX (f_data st) = sample_X /\ iY (f_data st) = sample_y /\
    idx (f_data st) = seq 0 (Rows sample_X).
Proof.
  eexists. split; [vm_compute; reflexivity |].
  eapply (shuffled_rows_are_restored reference sample_shuffle
            (sample_regressor "adam" false true 10 3 2)
            sample_X sample_y sample_buffers false).
  - simpl. lia.
  - simpl. lia.
  - simpl. lia.
  - reflexivity.
  - vm_compute. reflexivity.
Defined.

(** The rows do move: the sample data after the swaps of one shuffle. *)
Lemma shuffle_moves_rows_sample :
  exists s,
    shuffle sample_shuffle 0 4
      {| idx := seq 0 4; iX := sample_X; iY := sample_y |} = Ok s /\
    idx s = [2; 3; 0; 1] /\
    Data (iX s) = [1; 0; 0; 1]%float /\ Data (iY s) = [0; 1; 0; 1]%float.
Proof. eexists. split; [vm_compute; reflexivity |]. repeat split. Qed.

(** ** Adam: the loop of epochs and the stopping trigger *)

(** A field that the bookkeeping at the end of an epoch leaves alone. *)
Section BookkeepingFrame.
Context {A : Type} (f : BaseMultilayerPerceptron64 -> A).
Hypothesis f_ValidationScores :
  forall m v, f (set_ValidationScores m v) = f m.
Hypothesis f_NoImprovementCount :
  forall m v, f (set_NoImprovementCount m v) = f m.
Hypothesis f_BestValidationScore :
  forall m v, f (set_BestValidationScore m v) = f m.
Hypothesis f_bestParameters : forall m v, f (set_bestParameters m v) = f m.
Hypothesis f_BestLoss : forall m v, f (set_BestLoss m v) = f m.

Lemma updateNoImprovementCount_frame (M64 : Externals)
    (mlp mlp' : BaseMultilayerPerceptron64) (earlyStopping : bool)
    (XVal yVal : blas64General) (dXVal : list float) :
  updateNoImprovementCount M64 mlp earlyStopping XVal yVal
  = Ok (mlp', dXVal) ->
  f mlp' = f mlp.
Proof using f_ValidationScores f_NoImprovementCount f_BestValidationScore
  f_bestParameters f_BestLoss.
  unfold updateNoImprovementCount. intros Hrun.
  apply bind_Ok in Hrun as ([m1 d1] & H1 & Hrun).
  apply bind_Ok in Hrun as (lastLoss & _ & Hrun).
  assert (f m1 = f mlp) as Hm1.
  { destruct earlyStopping.
    - apply bind_Ok in H1 as ([sc dX] & _ & H1).
      break_ifs H1; injection H1 as <- _;
        rewrite ?f_bestParameters, ?f_BestValidationScore,
          ?f_NoImprovementCount, ?f_ValidationScores; reflexivity.
    - injection H1 as <- _. reflexivity. }
  break_ifs Hrun; injection Hrun as <- _;
    rewrite ?f_BestLoss, ?f_NoImprovementCount; exact Hm1.
Qed.
End BookkeepingFrame.

(** The rounds of a loop that may break: the states after each round, the
    round that broke the loop, if any, being the last. *)
Lemma for_break_rounds {St : Type} (P : St -> Prop)
    (body : nat -> St -> result (St * bool)) (start count : nat) (s s' : St) :
  (forall i u u' stop, P u -> body i u = Ok (u', stop) -> P u') ->
  P s -> for_break body start count s = Ok s' ->
  exists rounds,
    length rounds <= count /\ last (s :: rounds) = Some s' /\
    Forall P (s :: rounds) /\
    (forall i u u', (s :: rounds) !! i = Some u -> rounds !! i = Some u' ->
       exists stop, body (start + i) u = Ok (u', stop) /\
                    (stop = true -> S i = length rounds)) /\
    (length rounds < count ->
     exists i u u', (s :: rounds) !! i = Some u /\ rounds !! i = Some u' /\
       S i = length rounds /\ body (start + i) u = Ok (u', true)).
Proof.
  intros Hbody. revert start s.
  induction count as [|k IH]; intros start s Hs Hrun.
  - simpl in Hrun. injection Hrun as <-. exists [].
    split; [simpl; lia | split; [reflexivity |]].
    split; [repeat constructor; exact Hs | split].
    + intros i u u' _ Hu'. discriminate.
    + simpl. lia.
  - simpl in Hrun. apply bind_Ok in Hrun as ([u stop] & Hstep & Hrun).
    pose proof (Hbody _ _ _ _ Hs Hstep) as Hu. destruct stop.
    + injection Hrun as <-. exists [u].
      split; [simpl; lia | split; [reflexivity |]].
      split; [repeat constructor; assumption | split].
      * intros i v v' Hv Hv'. destruct i as [|i]; [| discriminate].
        simpl in Hv, Hv'. injection Hv as <-. injection Hv' as <-.
        exists true. rewrite Nat.add_0_r. split; [exact Hstep | reflexivity].
      * intros _. exists 0, s, u. rewrite Nat.add_0_r.
        repeat split; assumption || reflexivity.
    + destruct (IH (S start) u Hu Hrun)
        as (rounds & Hlen & Hlast & Hall & Hchain & Hbroke).
      exists (u :: rounds).
      split; [simpl; lia | split; [exact Hlast |]].
      split; [constructor; assumption | split].
      * intros i v v' Hv Hv'. destruct i as [|i].
        { simpl in Hv, Hv'. injection Hv as <-. injection Hv' as <-.
          exists false. rewrite Nat.add_0_r.
          split; [exact Hstep | discriminate]. }
        { destruct (Hchain i v v' Hv Hv') as (stop & Hb & Hstop).
          exists stop. replace (start + S i) with (S start + i) by lia.
          split; [exact Hb |]. intros Ht. simpl. f_equal. auto. }
      * intros Hlt. destruct Hbroke as (i & v & v' & Hv & Hv' & Hi & Hb);
          [simpl in Hlt; lia |].
        exists (S i), v, v'. replace (start + S i) with (S start + i) by lia.
        repeat split; try assumption. simpl. f_equal. exact Hi.
Qed.

(** A count that every round raises by one has grown by the number of the
    rounds. *)
Lemma rounds_count {St : Type} (f : St -> nat) (rounds : list St) (s s' : St) :
  last (s :: rounds) = Some s' ->
  (forall i u u', (s :: rounds) !! i = Some u -> rounds !! i = Some u' ->
     f u' = S (f u)) ->
  f s' = f s + length rounds.
Proof.
  revert s. induction rounds as [|r rounds IH]; intros s Hlast Hstep.
  - simpl in Hlast. injection Hlast as <-. simpl. lia.
  - rewrite (IH r).
    + rewrite (Hstep 0 s r eq_refl eq_refl). simpl. lia.
    + exact Hlast.
    + intros i u u' Hu Hu'. apply (Hstep (S i)); assumption.
Qed.

Lemma batch_step_keeps_adam (M64 : Externals) (lo hi : nat)
    (acc acc' : float) (st st' : fit_state) :
  batch_step M64 lo hi (acc, st) = Ok (acc', st') ->
  (exists o, optimizer (f_mlp st) = Some (OptAdam o)) ->
  exists o, optimizer (f_mlp st') = Some (OptAdam o).
Proof.
  unfold batch_step. intros Hrun (o0 & Ho).
  apply bind_Ok in Hrun as (Xb & _ & Hrun).
  apply bind_Ok in Hrun as (Yb & _ & Hrun).
  apply bind_Ok in Hrun as (acts & _ & Hrun).
  apply bind_Ok in Hrun as ([[loss mlp1] b1] & Hback & Hrun).
  apply (backprop_frame optimizer (fun _ _ => eq_refl) (fun _ _ => eq_refl))
    in Hback.
  apply bind_Ok in Hrun as (o & Hopt & Hrun).
  unfold the_optimizer in Hopt. rewrite Hback, Ho in Hopt.
  injection Hopt as <-.
  apply bind_Ok in Hrun as ([o' params] & Hupd & Hrun).
  injection Hrun as _ <-. simpl.
  unfold updateParams in Hupd.
  apply bind_Ok in Hupd as ([oa pa] & _ & Hupd). injection Hupd as <- _.
  eexists. reflexivity.
Qed.

Lemma minibatch_sweep_keeps_adam (M64 : Externals) (batchSize : Z)
    (trainRows : nat) (acc : float) (st st' : fit_state) :
  minibatch_sweep M64 batchSize trainRows st = Ok (acc, st') ->
  (exists o, optimizer (f_mlp st) = Some (OptAdam o)) ->
  exists o, optimizer (f_mlp st') = Some (OptAdam o).
Proof.
  unfold minibatch_sweep. intros Hrun Ho.
  destruct (trainRows =? 0).
  { injection Hrun as _ <-. exact Ho. }
  destruct (batchSize <? 0)%Z; [discriminate |].
  destruct (batchSize =? 0)%Z; [discriminate |].
  apply (foldM_preserves
           (fun a : float * fit_state =>
              exists o, optimizer (f_mlp (snd a)) = Some (OptAdam o)))
    in Hrun.
  - exact Hrun.
  - intros [lo hi] [a u] [a' u'] Hstep Hu. simpl in *.
    eapply batch_step_keeps_adam; eassumption.
  - exact Ho.
Qed.

(** One epoch under Adam: the loop breaks after it exactly when it ends
    with the no-improvement counter above [NIterNoChange]. *)
Lemma epoch_under_adam (M64 : Externals) (rnd : RandomState)
    (earlyStopping stop : bool) (nSamples testSize it : nat)
    (u u' : fit_state) :
  epoch M64 rnd earlyStopping false nSamples testSize it u = Ok (u', stop) ->
  (exists o, optimizer (f_mlp u) = Some (OptAdam o)) ->
  (exists o, optimizer (f_mlp u') = Some (OptAdam o)) /\
  NIterNoChange (f_mlp u') = NIterNoChange (f_mlp u) /\
  NIter (f_mlp u') = S (NIter (f_mlp u)) /\
  stop = (NIterNoChange (f_mlp u)
          <? Z.of_nat (NoImprovementCount (f_mlp u')))%Z.
Proof.
  unfold epoch. intros Hrun Ho.
  apply bind_Ok in Hrun as (data & _ & Hrun).
  apply bind_Ok in Hrun as ([acc st1] & Hsweep & Hrun).
  apply bind_Ok in Hrun as (XVal & _ & Hrun).
  apply bind_Ok in Hrun as (yVal & _ & Hrun).
  apply bind_Ok in Hrun as ([mlp1 dXVal] & Hupd & Hrun).
  apply bind_Ok in Hrun as (o & Hopt & Hrun).
  apply bind_Ok in Hrun as ([mlp2 stop'] & Hcheck & Hrun).
  injection Hrun as <- <-. simpl. rewrite orb_false_r.
  pose proof (minibatch_sweep_frame NIterNoChange (fun _ _ => eq_refl)
                (fun _ _ => eq_refl) (fun _ _ => eq_refl) _ _ _ _ _ _ Hsweep)
    as HN. simpl in HN.
  pose proof (minibatch_sweep_frame NIter (fun _ _ => eq_refl)
                (fun _ _ => eq_refl) (fun _ _ => eq_refl) _ _ _ _ _ _ Hsweep)
    as HI. simpl in HI.
  apply minibatch_sweep_keeps_adam in Hsweep; [| exact Ho].
  destruct Hsweep as (o1 & Ho1).
  pose proof (updateNoImprovementCount_frame optimizer
                (fun _ _ => eq_refl) (fun _ _ => eq_refl)
                (fun _ _ => eq_refl) (fun _ _ => eq_refl)
                (fun _ _ => eq_refl) _ _ _ _ _ _ _ Hupd) as Ho2.
  pose proof (updateNoImprovementCount_frame NIterNoChange
                (fun _ _ => eq_refl) (fun _ _ => eq_refl)
                (fun _ _ => eq_refl) (fun _ _ => eq_refl)
                (fun _ _ => eq_refl) _ _ _ _ _ _ _ Hupd) as HN2.
  pose proof (updateNoImprovementCount_frame NIter
                (fun _ _ => eq_refl) (fun _ _ => eq_refl)
                (fun _ _ => eq_refl) (fun _ _ => eq_refl)
                (fun _ _ => eq_refl) _ _ _ _ _ _ _ Hupd) as HI2.
  simpl in Ho2, HN2, HI2.
  unfold the_optimizer in Hopt. rewrite Ho2, Ho1 in Hopt.
  injection Hopt as <-.
  unfold check_stopping in Hcheck. simpl in Hcheck.
  rewrite HN2, HN in Hcheck.
  destruct (NIterNoChange (f_mlp u) <? Z.of_nat (NoImprovementCount mlp1))%Z
    eqn:Hexceeds; injection Hcheck as <- <-; simpl;
    (split; [eexists; reflexivity |]);
    (split; [congruence |]); (split; [lia |]);
    symmetry; exact Hexceeds.
Qed.

(** C2, amended: the trigger of Adam always answers "stop" and leaves the
    optimizer as it is.  So a fit with solver adam that is not incremental
    and returns has run its epochs up to the first that ended with the
    no-improvement counter above [NIterNoChange], and [MaxIter] epochs
    when none ended so. *)
Theorem adam_fit_halts_at_first_exceeded_patience (M64 : Externals)
    (rndShuffle : RandomState) (mlp : BaseMultilayerPerceptron64)
    (X y : blas64General) (b : Buffers) (st : fit_state) :
  Solver mlp = "adam" ->
  fitStochastic M64 rndShuffle mlp X y b false = Ok st ->
  (forall o msg verbose,
     AdamOptimizer64.triggerStopping o msg verbose = (true, o)) /\
  exists rounds, halts_on_patience M64 rndShuffle mlp X y b st rounds.
Proof.
  intros HS Hrun. split; [reflexivity |].
  unfold fitStochastic in Hrun. cbn [negb orb] in Hrun.
  rewrite andb_true_r in Hrun.
  assert (EarlyStopping (set_optimizer mlp (new_optimizer mlp))
          = EarlyStopping mlp) as HE by reflexivity.
  rewrite HE in Hrun.
  apply bind_Ok in Hrun as ([testSize mlp1] & Hsize & Hrun).
  apply bind_Ok in Hrun as (st1 & Hloop & Hrun).
  assert ({| f_mlp := mlp1;
             f_data := {| idx := seq 0 (Rows X); iX := X; iY := y |};
             f_buffers := b |} = first_epoch_state mlp X y b
          /\ MaxIter mlp1 = MaxIter mlp) as [Hfirst HM].
  { unfold first_epoch_state. rewrite HE.
    destruct (EarlyStopping mlp).
    - destruct ((0 <=? _) && _)%Z; [| discriminate].
      injection Hsize as _ <-. split; reflexivity.
    - injection Hsize as _ <-. split; reflexivity. }
  rewrite Hfirst, HM in Hloop.
  set (first := first_epoch_state mlp X y b) in *.
  assert ((exists o, optimizer (f_mlp first) = Some (OptAdam o)) /\
          NIterNoChange (f_mlp first) = NIterNoChange mlp /\
          NIter (f_mlp first) = NIter mlp) as (Ho & HN & HI).
  { unfold first, first_epoch_state. rewrite HE.
    destruct (EarlyStopping mlp); simpl;
      (split; [| split; reflexivity]); unfold new_optimizer;
      rewrite HS; simpl; eexists; reflexivity. }
  apply (for_break_rounds
           (fun u => (exists o, optimizer (f_mlp u) = Some (OptAdam o)) /\
                     NIterNoChange (f_mlp u) = NIterNoChange mlp))
    in Hloop as (rounds & Hlen & Hlast & Hall & Hchain & Hbroke).
  - exists rounds. unfold halts_on_patience. fold first.
    assert (forall i u u',
              (first :: rounds) !! i = Some u -> rounds !! i = Some u' ->
              exists stop,
                epoch M64 rndShuffle (EarlyStopping mlp) false (Rows X)
                  testSize i u = Ok (u', stop) /\
                stop = (NIterNoChange mlp
                        <? Z.of_nat (NoImprovementCount (f_mlp u')))%Z /\
                (stop = true -> S i = length rounds) /\
                NIter (f_mlp u') = S (NIter (f_mlp u))) as Hsteps.
    { intros i u u' Hu Hu'.
      destruct (Hchain i u u' Hu Hu') as (stop & Hstep & Hstop).
      rewrite Forall_lookup in Hall. destruct (Hall i u Hu) as [Hou HNu].
      destruct (epoch_under_adam _ _ _ _ _ _ _ _ _ Hstep Hou)
        as (_ & _ & HIu & Hdec).
      exists stop. rewrite <- HNu.
      repeat split; assumption. }
    split; [exact Hlen | split].
    { exists testSize. intros i u u' Hu Hu'.
      destruct (Hsteps i u u' Hu Hu') as (stop & H1 & H2 & H3 & _).
      exists stop. repeat split; assumption. }
    split.
    { intros Hlt. destruct (Hbroke Hlt) as (i & u & u' & Hu & Hu' & Hi & Hb).
      destruct (Hsteps i u u' Hu Hu') as (stop & H1 & H2 & _).
      cbn [Nat.add] in Hb. rewrite Hb in H1. injection H1 as <-.
      exists u'. split.
      - rewrite last_lookup, <- Hi. exact Hu'.
      - apply Z.ltb_lt. symmetry. exact H2. }
    assert (NIter (f_mlp st1) = NIter mlp + length rounds) as Hcount.
    { rewrite <- HI. apply (rounds_count (fun u => NIter (f_mlp u)) rounds
                              first st1 Hlast).
      intros i u u' Hu Hu'.
      destruct (Hsteps i u u' Hu Hu') as (stop & _ & _ & _ & H4). exact H4. }
    assert (NIter (f_mlp st) = NIter (f_mlp st1) /\
            NoImprovementCount (f_mlp st) = NoImprovementCount (f_mlp st1) /\
            f_buffers st = f_buffers st1) as (H1 & H2 & H3).
    { apply bind_Ok in Hrun as (data & _ & Hrun). injection Hrun as <-.
      simpl. destruct (EarlyStopping mlp); repeat split. }
    split; [congruence |].
    exists st1. split; [exact Hlast | split; assumption].
  - intros i u u' stop [Hou HNu] Hstep.
    destruct (epoch_under_adam _ _ _ _ _ _ _ _ _ Hstep Hou)
      as (Hou' & HNu' & _ & _).
    split; [exact Hou' | congruence].
  - split; assumption.
Qed.

(** The fit of the counterexample: four epochs, the fourth ending with the
    counter at 3, above the patience of 2. *)
Lemma adam_fit_halts_witness :
  exists st,
    fitStochastic reference sample_shuffle
      (sample_regressor "adam" false true 10 30 2)
      sample_X sample_y sample_buffers false = Ok st /\
    (forall o msg verbose,
       AdamOptimizer64.triggerStopping o msg verbose = (true, o)) /\
    exists rounds,
      halts_on_patience reference sample_shuffle
        (sample_regressor "adam" false true 10 30 2)
        sample_X sample_y sample_buffers st rounds.
Proof.
  eexists. split; [vm_compute; reflexivity |].
  apply (adam_fit_halts_at_first_exceeded_patience reference sample_shuffle
           (sample_regressor "adam" false true 10 30 2)
           sample_X sample_y sample_buffers).
  - reflexivity.
  - vm_compute. reflexivity.
Defined.

(** ** The epoch loss *)

(** The batches of a sweep cover the training rows once. *)
Lemma batches_from_rows (fuel lo batchSize n : nat) :
  0 < batchSize -> lo <= n -> n - lo <= fuel ->
  batch_rows (batches_from fuel lo batchSize n) = n - lo.
Proof.
  intros Hbs. revert lo. induction fuel as [|fuel IH]; intros lo Hlo Hfuel.
  - simpl. lia.
  - simpl. destruct (lo <? n) eqn:Hlt.
    + apply Nat.ltb_lt in Hlt. simpl. rewrite IH by lia. lia.
    + apply Nat.ltb_ge in Hlt. simpl. lia.
Qed.

Lemma batches_cover (batchSize n : nat) :
  0 < batchSize -> batch_rows (batches batchSize n) = n.
Proof.
  intros Hbs. unfold batches. rewrite batches_from_rows by lia. lia.
Qed.

(** The sweep adds, for every batch, its loss times its rows. *)
Lemma sweep_accumulates (M64 : Externals) (l : list (nat * nat))
    (acc0 acc : float) (st st' : fit_state) :
  foldM (fun a '(lo, hi) => batch_step M64 lo hi a) (acc0, st) l
  = Ok (acc, st') ->
  exists losses, length losses = length l /\
                 acc = weighted_loss acc0 (zip losses l).
Proof.
  revert acc0 st. induction l as [|[lo hi] l IH]; intros acc0 st Hrun.
  - simpl in Hrun. injection Hrun as <- <-. exists []. split; reflexivity.
  - simpl in Hrun. apply bind_Ok in Hrun as ([acc1 st1] & Hstep & Hrun).
    apply IH in Hrun as (losses & Hlen & ->).
    unfold batch_step in Hstep.
    apply bind_Ok in Hstep as (Xb & _ & Hstep).
    apply bind_Ok in Hstep as (Yb & _ & Hstep).
    apply bind_Ok in Hstep as (acts & _ & Hstep).
    apply bind_Ok in Hstep as ([[loss mlp1] b1] & _ & Hstep).
    apply bind_Ok in Hstep as (o & _ & Hstep).
    apply bind_Ok in Hstep as ([o' params] & _ & Hstep).
    injection Hstep as <- _.
    exists (loss :: losses). split; [simpl; lia | reflexivity].
Qed.

(** Every epoch records the accumulated loss of its sweep divided by
    [nSamples], the number of all rows, held-out rows included. *)
Lemma epoch_records_loss_over_all_rows (M64 : Externals) (rnd : RandomState)
    (earlyStopping incremental stop : bool) (nSamples testSize it : nat)
    (st st' : fit_state) :
  epoch M64 rnd earlyStopping incremental nSamples testSize it st
  = Ok (st', stop) ->
  exists data acc st1,
    minibatch_sweep M64 (BatchSize (f_mlp st)) (nSamples - testSize)
      {| f_mlp := f_mlp st; f_data := data; f_buffers := f_buffers st |}
    = Ok (acc, st1) /\
    Loss (f_mlp st') = (acc / F64.of_nat nSamples)%float /\
    last (LossCurve (f_mlp st')) = Some (acc / F64.of_nat nSamples)%float.
Proof.
  unfold epoch. intros Hrun.
  apply bind_Ok in Hrun as (data & _ & Hrun).
  apply bind_Ok in Hrun as ([acc st1] & Hsweep & Hrun).
  apply bind_Ok in Hrun as (XVal & _ & Hrun).
  apply bind_Ok in Hrun as (yVal & _ & Hrun).
  apply bind_Ok in Hrun as ([mlp1 dXVal] & Hupd & Hrun).
  apply bind_Ok in Hrun as (o & _ & Hrun).
  apply bind_Ok in Hrun as ([mlp2 stop'] & Hcheck & Hrun).
  injection Hrun as <- _. simpl.
  apply updateNoImprovementCount_keeps in Hupd as ((_ & HL1 & HC1) & _).
  apply check_stopping_keeps in Hcheck as ((_ & HL2 & HC2) & _).
  simpl in *. exists data, acc, st1. split; [exact Hsweep |].
  split; [congruence |].
  rewrite HC2, HC1. apply last_snoc.
Qed.

(** ** Label binarizer: the round trip of one column *)

(** Go's [==] and [<] on float64. *)
Lemma SFcompare_antisym (f1 f2 : spec_float) :
  SFcompare f2 f1 = option_map CompOpp (SFcompare f1 f2).
Proof.
  destruct f1 as [s1 | s1 | | s1 m1 e1], f2 as [s2 | s2 | | s2 m2 e2];
    simpl; try reflexivity;
    try (destruct s1; reflexivity); try (destruct s2; reflexivity);
    try (destruct s1, s2; reflexivity).
  assert (Pos.compare_cont Eq m2 m1 = CompOpp (Pos.compare_cont Eq m1 m2))
    as Hm by (rewrite (Pos.compare_cont_antisym m1 m2 Eq); reflexivity).
  destruct s1, s2; simpl; try reflexivity;
    rewrite (Z.compare_antisym e1 e2);
    destruct (e1 ?= e2)%Z; simpl; try reflexivity;
    rewrite Hm; reflexivity.
Qed.

Lemma float_eqb_sym (x y : float) : (x =? y)%float = (y =? x)%float.
Proof.
  rewrite !FloatAxioms.eqb_spec. unfold SFeqb.
  rewrite (SFcompare_antisym (Prim2SF y) (Prim2SF x)).
  destruct (SFcompare (Prim2SF y) (Prim2SF x)) as [[]|]; reflexivity.
Qed.

Lemma float_ltb_asym (x y : float) :
  (x <? y)%float = true -> (y <? x)%float = false.
Proof.
  rewrite !FloatAxioms.ltb_spec. unfold SFltb.
  rewrite (SFcompare_antisym (Prim2SF x) (Prim2SF y)).
  destruct (SFcompare (Prim2SF x) (Prim2SF y)) as [[]|];
    simpl; congruence.
Qed.

(** [MaxIdx64] on a block that holds one positive code among zeros. *)
Lemma MaxIdx64_from_zeros (a : list float) (i mi : nat) (best : float) :
  (forall x, x ∈ a -> x = 0%float) -> F64.gtb 0 best = false ->
  MaxIdx64_from a i mi best = mi.
Proof.
  revert i. induction a as [|v r IH]; intros i Hzero Hbest; [reflexivity |].
  simpl. rewrite (Hzero v) by left. rewrite Hbest.
  apply IH; [| exact Hbest]. intros x Hx. apply Hzero. right. exact Hx.
Qed.

Lemma one_hot_tail (v : float) (r : list float) (c : nat) (pos : float) :
  (forall c', c' <> S c -> c' < length (v :: r) ->
     (v :: r) !! c' = Some 0%float) ->
  forall c', c' <> c -> c' < length r -> r !! c' = Some 0%float.
Proof.
  intros Hrow c' Hne Hlt. apply (Hrow (S c')); simpl; lia.
Qed.

Lemma MaxIdx64_from_one_hot (a : list float) (i mi j : nat) (pos : float) :
  (0 <? pos)%float = true ->
  a !! j = Some pos ->
  (forall j', j' <> j -> j' < length a -> a !! j' = Some 0%float) ->
  MaxIdx64_from a i mi 0 = i + j.
Proof.
  intros Hpos. revert i mi j.
  induction a as [|v r IH]; intros i mi j Hj Hrest; [discriminate |].
  destruct j as [|j]; simpl in Hj.
  - injection Hj as ->. simpl. unfold F64.gtb. rewrite Hpos.
    rewrite MaxIdx64_from_zeros; [lia | |].
    + intros x Hx. apply list_elem_of_lookup in Hx as (j' & Hj').
      pose proof (lookup_lt_Some _ _ _ Hj') as Hlt.
      specialize (Hrest (S j')). simpl in Hrest.
      rewrite Hrest in Hj' by lia. congruence.
    + unfold F64.gtb. apply float_ltb_asym. exact Hpos.
  - assert (v = 0%float) as ->.
    { specialize (Hrest 0). simpl in Hrest.
      assert (Some v = Some 0%float) as Hv by (apply Hrest; lia).
      congruence. }
    simpl. replace (F64.gtb 0 0) with false by reflexivity.
    rewrite (IH (S i) mi j Hj); [lia |].
    eapply one_hot_tail; eassumption.
Qed.

Lemma MaxIdx64_one_hot (row : list float) (c : nat) (pos : float) :
  (0 <? pos)%float = true ->
  row !! c = Some pos ->
  (forall c', c' <> c -> c' < length row -> row !! c' = Some 0%float) ->
  MaxIdx64 row = c.
Proof.
  intros Hpos Hc Hrest. destruct row as [|v r]; [discriminate |].
  destruct c as [|c]; simpl in Hc.
  - injection Hc as ->. simpl. apply MaxIdx64_from_zeros.
    + intros x Hx. apply list_elem_of_lookup in Hx as (j' & Hj').
      pose proof (lookup_lt_Some _ _ _ Hj') as Hlt.
      specialize (Hrest (S j')). simpl in Hrest.
      rewrite Hrest in Hj' by lia. congruence.
    + unfold F64.gtb. apply float_ltb_asym. exact Hpos.
  - assert (v = 0%float) as ->.
    { specialize (Hrest 0). simpl in Hrest.
      assert (Some v = Some 0%float) as Hv by (apply Hrest; lia).
      congruence. }
    simpl. replace (F64.gtb 0 0) with false by reflexivity.
    rewrite (MaxIdx64_from_one_hot r 1 0 c pos Hpos Hc); [lia |].
    eapply one_hot_tail; eassumption.
Qed.

(** Go maps with float keys. *)
Lemma map_lookup_Some {V} (m : list (float * V)) (k : float) (v : V) :
  map_lookup m k = Some v ->
  exists i k', m !! i = Some (k', v) /\ (k' =? k)%float = true.
Proof.
  induction m as [|[k' v'] m IH]; simpl; [discriminate |].
  destruct (k' =? k)%float eqn:Hk.
  - intros Hv. injection Hv as <-. exists 0, k'. split; [reflexivity | exact Hk].
  - intros Hv. destruct (IH Hv) as (i & k'' & Hi & Hk'').
    exists (S i), k''. split; assumption.
Qed.

Lemma map_lookup_None {V} (m : list (float * V)) (k : float) :
  map_lookup m k = None ->
  forall k' v, (k', v) ∈ m -> (k' =? k)%float = false.
Proof.
  induction m as [|[k1 v1] m IH]; simpl; intros Hnone k' v Hin.
  - inversion Hin.
  - destruct (k1 =? k)%float eqn:Hk; [discriminate |].
    apply elem_of_cons in Hin as [Heq | Hin].
    + injection Heq as -> ->. exact Hk.
    + eapply IH; eassumption.
Qed.

Lemma map_lookup_found {V} (m : list (float * V)) (k k' : float) (v : V) :
  (k', v) ∈ m -> (k' =? k)%float = true -> is_Some (map_lookup m k).
Proof.
  intros Hin Hk. destruct (map_lookup m k) eqn:Hl; [eexists; reflexivity |].
  rewrite (map_lookup_None m k Hl k' v Hin) in Hk. discriminate.
Qed.

Lemma map_store_fresh {V} (m : list (float * V)) (k : float) (v : V) :
  (forall k' v', (k', v') ∈ m -> (k' =? k)%float = false) ->
  map_store m k v = m ++ [(k, v)].
Proof.
  induction m as [|[k1 v1] m IH]; intros Hfresh; [reflexivity |].
  simpl. rewrite (Hfresh k1 v1) by left.
  rewrite IH; [reflexivity |]. intros k' v' Hin. eapply Hfresh. right. exact Hin.
Qed.

Section SortTotal.
Context {St : Type}.
Context (Less : St -> nat -> nat -> result bool).
Context (Swap : St -> nat -> nat -> result St).
Context (P : St -> Prop) (n : nat).
Hypothesis Less_total :
  forall s i j, P s -> i < n -> j < n -> exists b, Less s i j = Ok b.
Hypothesis Swap_total :
  forall s i j, P s -> i < n -> j < n ->
    exists s', Swap s i j = Ok s' /\ P s'.

Lemma sift_total (j : nat) (s : St) :
  j < n -> P s -> exists s', sift Less Swap j s = Ok s' /\ P s'.
Proof using Less_total Swap_total.
  revert s. induction j as [|j IH]; intros s Hj Hs.
  - exists s. split; [reflexivity | exact Hs].
  - simpl. destruct (Less_total s (S j) j Hs) as (b & ->); [lia.. |].
    simpl. destruct b.
    + destruct (Swap_total s (S j) j Hs) as (s1 & -> & Hs1); [lia.. |].
      simpl. apply IH; [lia | exact Hs1].
    + exists s. split; [reflexivity | exact Hs].
Qed.

Lemma sort_Sort_total (s : St) :
  P s -> exists s', sort_Sort Less Swap n s = Ok s' /\ P s'.
Proof using Less_total Swap_total.
  intros Hs. unfold sort_Sort, insertionSort.
  apply (for_loop_inv (fun _ u => P u) _ 1 (n - 1) s Hs).
  intros i u Hi Hu. apply sift_total; [lia | exact Hu].
Qed.
End SortTotal.

(** Sorting the classes of a column keeps them. *)
Lemma sort_labels_total (classes : list float) :
  exists sorted,
    sort_Sort Float64Slice_Less swap_entries (length classes) classes
    = Ok sorted /\ sorted ≡ₚ classes.
Proof.
  apply (sort_Sort_total _ _ (fun p => p ≡ₚ classes)); [| | reflexivity].
  - intros s i j Hs Hi Hj. apply Permutation_length in Hs.
    destruct (lookup_lt_is_Some_2 s i) as (x & Hx); [lia |].
    destruct (lookup_lt_is_Some_2 s j) as (y & Hy); [lia |].
    unfold Float64Slice_Less.
    apply load_Ok in Hx, Hy. rewrite Hx, Hy. simpl. eexists. reflexivity.
  - intros s i j Hs Hi Hj. pose proof (Permutation_length Hs) as Hlen.
    destruct (lookup_lt_is_Some_2 s i) as (x & Hx); [lia |].
    destruct (lookup_lt_is_Some_2 s j) as (y & Hy); [lia |].
    exists (<[j:=x]> (<[i:=y]> s)). split.
    + unfold swap_entries.
      rewrite (proj2 (load_Ok _ _ _) Hx), (proj2 (load_Ok _ _ _) Hy). simpl.
      rewrite store_Ok by lia. simpl.
      apply store_Ok. rewrite length_insert. lia.
    + rewrite swapped_Permutation by eassumption. exact Hs.
Qed.

Lemma distinct_labels_Permutation (l l' : list float) :
  l ≡ₚ l' -> distinct_labels l' -> distinct_labels l.
Proof.
  intros Hperm Hd. apply Permutation_inj in Hperm as (_ & f & Hf & Hl).
  intros a b x y Hab Ha Hb. rewrite Hl in Ha, Hb.
  apply (Hd (f a) (f b)); [| assumption..].
  intros Heq. apply Hab. apply Hf. exact Heq.
Qed.

Lemma distinct_labels_init (l : list float) (x : float) :
  distinct_labels (l ++ [x]) -> distinct_labels l.
Proof.
  intros Hd a b u v Hab Ha Hb.
  apply (Hd a b); [exact Hab | |]; apply lookup_app_l_Some; assumption.
Qed.

(** The classes of a column: each label of the column is one of them, and
    no two of them are equal. *)
Lemma column_classes_spec (Y : blas64General) (j : nat) :
  (forall i, i < Rows Y -> exists v,
     Data Y !! (i * Stride Y + j) = Some v /\ F64.IsNaN v = false) ->
  exists classes,
    LabelBinarizer64.column_classes Y j = Ok classes /\
    distinct_labels classes /\
    forall i, i < Rows Y -> exists v k,
      Data Y !! (i * Stride Y + j) = Some v /\ k ∈ classes /\
      (k =? v)%float = true.
Proof.
  intros HY. unfold LabelBinarizer64.column_classes.
  match goal with |- context [for_range ?n ?body ?s] =>
    destruct (for_range_inv
      (fun i (st : GoMap bool * list float) =>
         st.1 = (fun k => (k, true)) <$> st.2 /\
         distinct_labels st.2 /\
         forall i', i' < i -> exists v k,
           Data Y !! (i' * Stride Y + j) = Some v /\ k ∈ st.2 /\
           (k =? v)%float = true) body n s)
      as ([cmap classes] & Hrun & Hmap & Hd & Hcov)
  end.
  - split; [reflexivity | split].
    + intros a b x y _ Ha. discriminate.
    + intros i' Hi'. lia.
  - intros i [cmap classes] Hi (Hmap & Hd & Hcov). cbn [fst snd] in Hmap, Hd, Hcov.
    destruct (HY i Hi) as (v & Hv & Hnan).
    assert ((v =? v)%float = true) as Hrefl.
    { unfold F64.IsNaN, PrimFloat.is_nan in Hnan.
      destruct (v =? v)%float; [reflexivity | discriminate]. }
    rewrite (proj2 (load_Ok _ _ _) Hv). simpl.
    destruct (map_lookup cmap v) as [t|] eqn:Hlook.
    + eexists. split; [reflexivity |]. simpl.
      split; [exact Hmap | split; [exact Hd |]].
      intros i' Hi'. destruct (decide (i' = i)) as [-> | Hne].
      * apply map_lookup_Some in Hlook as (p & k' & Hp & Hk').
        rewrite Hmap, list_lookup_fmap in Hp.
        destruct (classes !! p) as [z|] eqn:Hz; [| discriminate].
        simpl in Hp. injection Hp as <- _.
        exists v, z. split; [exact Hv | split; [| exact Hk']].
        apply list_elem_of_lookup. exists p. exact Hz.
      * apply Hcov. lia.
    + assert (forall z, z ∈ classes -> (z =? v)%float = false) as Hfresh.
      { intros z Hz. apply (map_lookup_None cmap v Hlook z true).
        rewrite Hmap. apply (list_elem_of_fmap_2 (fun k => (k, true))).
        exact Hz. }
      eexists. split; [reflexivity |]. simpl. split; [| split].
      * rewrite map_store_fresh.
        { rewrite Hmap, fmap_app. reflexivity. }
        intros k' v' Hin. rewrite Hmap in Hin.
        apply list_elem_of_fmap in Hin as (z & Heq & Hz).
        injection Heq as -> ->. apply Hfresh. exact Hz.
      * intros a b x y Hab Ha Hb.
        apply lookup_snoc_Some in Ha as [[Hal Ha] | [-> <-]];
          apply lookup_snoc_Some in Hb as [[Hbl Hb] | [-> <-]].
        { apply (Hd a b); assumption. }
        { apply Hfresh. apply list_elem_of_lookup. exists a. exact Ha. }
        { rewrite float_eqb_sym. apply Hfresh.
          apply list_elem_of_lookup. exists b. exact Hb. }
        { congruence. }
      * intros i' Hi'. destruct (decide (i' = i)) as [-> | Hne].
        { exists v, v. split; [exact Hv | split; [| exact Hrefl]].
          apply elem_of_app. right. left. }
        { destruct (Hcov i') as (w & k & Hw & Hk & Hkw); [lia |].
          exists w, k. split; [exact Hw | split; [| exact Hkw]].
          apply elem_of_app. left. exact Hk. }
  - cbn [fst snd] in Hmap, Hd, Hcov. exists classes.
    rewrite Hrun. simpl. split; [reflexivity | split; assumption].
Qed.

(** With distinct classes the map sends each class to its position. *)
Lemma class_map_distinct (l : list float) :
  distinct_labels l ->
  LabelBinarizer64.class_map l = imap (fun c k => (k, c)) l.
Proof.
  induction l as [|x l IH] using rev_ind; intros Hd; [reflexivity |].
  unfold LabelBinarizer64.class_map in *.
  rewrite !imap_app, foldl_app. simpl.
  rewrite IH by (eapply distinct_labels_init; exact Hd).
  apply map_store_fresh. intros k' v' Hin.
  apply elem_of_lookup_imap in Hin as (i & y & Heq & Hy).
  injection Heq as -> ->.
  apply (Hd i (length l)).
  - apply lookup_lt_Some in Hy. lia.
  - apply lookup_app_l_Some. exact Hy.
  - apply lookup_snoc_Some. right. split; reflexivity.
Qed.

Lemma class_map_lookup (l : list float) (v : float) (c : nat) :
  distinct_labels l ->
  map_lookup (LabelBinarizer64.class_map l) v = Some c ->
  exists k, l !! c = Some k /\ (k =? v)%float = true.
Proof.
  intros Hd Hl. rewrite class_map_distinct in Hl by exact Hd.
  apply map_lookup_Some in Hl as (i & k' & Hi & Hk').
  rewrite list_lookup_imap in Hi.
  destruct (l !! i) as [y|] eqn:Hy; [| discriminate].
  simpl in Hi. injection Hi as <- <-. exists y. split; assumption.
Qed.

Lemma class_map_found (l : list float) (v k : float) :
  distinct_labels l -> k ∈ l -> (k =? v)%float = true ->
  is_Some (map_lookup (LabelBinarizer64.class_map l) v).
Proof.
  intros Hd Hk Hkv. rewrite class_map_distinct by exact Hd.
  apply list_elem_of_lookup in Hk as (i & Hi).
  apply (map_lookup_found _ v k i); [| exact Hkv].
  apply elem_of_lookup_imap. exists i, k. split; [reflexivity | exact Hi].
Qed.

(** [Transform] on one column of known labels writes one positive code
    in each row, at the position of the class of the label. *)
Lemma Transform_one_column (m : LabelBinarizer64.lb) (Y : blas64General)
    (sorted : list float) :
  Cols Y = 1 -> LabelBinarizer64.Classes m = [sorted] ->
  distinct_labels sorted ->
  (forall i, i < Rows Y -> exists v k,
     Data Y !! (i * Stride Y + 0) = Some v /\ k ∈ sorted /\
     (k =? v)%float = true) ->
  exists d,
    LabelBinarizer64.Transform m Y
    = Ok (mkGeneral (Rows Y) (length sorted) (length sorted) d) /\
    length d = Rows Y * length sorted /\
    forall i, i < Rows Y -> exists v c k,
      Data Y !! (i * Stride Y + 0) = Some v /\ sorted !! c = Some k /\
      (k =? v)%float = true /\
      one_hot (length sorted) (LabelBinarizer64.PosLabel m) d i c.
Proof.
  intros HC HCl Hd HY. unfold LabelBinarizer64.Transform.
  rewrite HC, HCl. unfold for_range at 1. cbn [for_loop].
  replace (LabelBinarizer64.total_classes [sorted]) with (length sorted)
    by reflexivity.
  set (K := length sorted). set (n := Rows Y).
  set (pos := LabelBinarizer64.PosLabel m).
  cbn [load lookup list_lookup bind Stride Data].
  match goal with |- context [for_range ?r ?body ?s] =>
    destruct (for_range_inv
      (fun i d =>
         length d = n * K /\
         (forall i', i' < i -> exists v c k,
            Data Y !! (i' * Stride Y + 0) = Some v /\ sorted !! c = Some k /\
            (k =? v)%float = true /\ one_hot K pos d i' c) /\
         (forall i' c', i <= i' -> i' < n -> c' < K ->
            d !! (i' * K + c') = Some 0%float)) body r s)
      as (d & Hrun & Hlen & Hrows & _)
  end.
  - split; [apply length_replicate | split]; [intros i' Hi'; lia |].
    intros i' c' _ Hi' Hc'. apply lookup_replicate_2. nia.
  - intros i d Hi (Hlen & Hrows & Hzero).
    destruct (HY i Hi) as (v & k & Hv & Hk & Hkv).
    destruct (class_map_found sorted v k Hd Hk Hkv) as (c & Hc).
    destruct (class_map_lookup sorted v c Hd Hc) as (k' & Hk' & Hk'v).
    assert (c < K) as HcK by (apply lookup_lt_Some in Hk'; exact Hk').
    rewrite (proj2 (load_Ok _ _ _) Hv). cbn [bind]. rewrite Hc.
    replace (i * K + 0 + c) with (i * K + c) by lia.
    assert (i * K + c < length d) as Hpos by (fold n in Hi; nia).
    rewrite store_Ok by exact Hpos.
    eexists. split; [reflexivity |].
    split; [rewrite length_insert; exact Hlen | split].
    + intros i' Hi'. destruct (decide (i' = i)) as [-> | Hne].
      * exists v, c, k'. repeat split; try assumption.
        { apply list_lookup_insert_eq. exact Hpos. }
        { intros c' Hc' Hcc. rewrite list_lookup_insert_ne.
          - apply Hzero; [lia | exact Hi | exact Hc'].
          - intros Heq. apply cell_inj in Heq as [_ ?]; [congruence | lia..]. }
      * destruct (Hrows i') as (v0 & c0 & k0 & Hv0 & Hk0 & Hkv0 & Hp0 & Hz0);
          [lia |].
        assert (c0 < K) as Hc0 by (apply lookup_lt_Some in Hk0; exact Hk0).
        exists v0, c0, k0. repeat split; try assumption.
        { rewrite list_lookup_insert_ne; [exact Hp0 |].
          intros Heq. apply cell_inj in Heq as [? _]; [congruence | lia..]. }
        { intros c' Hc' Hcc. rewrite list_lookup_insert_ne; [auto |].
          intros Heq. apply cell_inj in Heq as [? _]; [congruence | lia..]. }
    + intros i' c' Hi' Hi'n Hc'. rewrite list_lookup_insert_ne.
      * apply Hzero; [lia | assumption..].
      * intros Heq. apply cell_inj in Heq as [? _]; [lia | lia..].
  - exists d. rewrite Hrun. cbn [bind]. split; [reflexivity |].
    split; [exact Hlen | exact Hrows].
Qed.

(** [InverseTransform] on one block reads each row back as the class at
    the position of its positive code. *)
Lemma InverseTransform_one_column (m : LabelBinarizer64.lb)
    (sorted d : list float) (n : nat) :
  LabelBinarizer64.Classes m = [sorted] ->
  (0 <? LabelBinarizer64.PosLabel m)%float = true ->
  length d = n * length sorted ->
  (forall i, i < n -> exists c,
     c < length sorted /\
     one_hot (length sorted) (LabelBinarizer64.PosLabel m) d i c) ->
  exists d',
    LabelBinarizer64.InverseTransform m
      (mkGeneral n (length sorted) (length sorted) d)
    = Ok (mkGeneral n 1 1 d') /\
    forall i c, i < n ->
      one_hot (length sorted) (LabelBinarizer64.PosLabel m) d i c ->
      d' !! i = sorted !! c.
Proof.
  intros HCl Hpos Hlen Hrows. unfold LabelBinarizer64.InverseTransform.
  rewrite HCl. set (K := length sorted) in *.
  set (pos := LabelBinarizer64.PosLabel m) in *.
  cbn [length Rows Cols Stride Data LabelBinarizer64.inverse_columns].
  fold K.
  assert (forall i c c', i < n -> c < K -> one_hot K pos d i c ->
            one_hot K pos d i c' -> c' = c) as Hunique.
  { intros i c c' Hi Hc [Hp _] [Hp' Hz'].
    destruct (decide (c' = c)) as [| Hne]; [assumption |].
    rewrite (Hz' c Hc) in Hp by congruence.
    injection Hp as Hp. rewrite <- Hp in Hpos. discriminate. }
  destruct (decide (0 < K)) as [HK | HK].
  - match goal with |- context [for_range ?r ?body ?s] =>
      destruct (for_range_inv
        (fun i (out : list float) =>
           length out = n /\
           forall i' c, i' < i -> one_hot K pos d i' c ->
             out !! i' = sorted !! c) body r s)
        as (d' & Hrun & Hlen' & Hout)
    end.
    + split; [unfold make; rewrite length_replicate; lia |].
      intros i' c Hi'. lia.
    + intros i out Hi (Hlo & Hout).
      destruct (Hrows i Hi) as (c & Hc & Hone).
      unfold slice. rewrite decide_True by (split; nia). cbn [bind].
      replace (i * K + 0 + K - (i * K + 0)) with K by lia.
      assert (MaxIdx64 (take K (drop (i * K + 0) d)) = c) as ->.
      { destruct Hone as [Hp Hz].
        apply (MaxIdx64_one_hot _ c pos Hpos).
        - rewrite lookup_take, decide_True by exact Hc.
          rewrite lookup_drop. rewrite <- Hp. f_equal. lia.
        - intros c' Hne Hc'. rewrite length_take, length_drop in Hc'.
          rewrite lookup_take, decide_True by lia.
          rewrite lookup_drop. rewrite <- (Hz c') by (lia || congruence).
          f_equal. lia. }
      destruct (lookup_lt_is_Some_2 sorted c Hc) as (k & Hk).
      rewrite (proj2 (load_Ok _ _ _) Hk). cbn [bind].
      replace (i * 1 + 0) with i by lia.
      rewrite store_Ok by lia. eexists. split; [reflexivity |].
      split; [rewrite length_insert; exact Hlo |].
      intros i' c' Hi' Hone'. destruct (decide (i' = i)) as [-> | Hne].
      * rewrite list_lookup_insert_eq by lia.
        rewrite (Hunique i c c' Hi Hc Hone Hone'). symmetry. exact Hk.
      * rewrite list_lookup_insert_ne by congruence. apply Hout; [lia |].
        exact Hone'.
    + rewrite Hrun. cbn [bind]. rewrite decide_False by lia. cbn [bind].
      exists d'. split; [reflexivity |]. intros i c Hi. apply Hout. exact Hi.
  - exists (make (n * 1)). split; [reflexivity |].
    intros i c Hi _. destruct (Hrows i Hi) as (c0 & Hc0 & _). lia.
Qed.

(** X1: one label column without NaN, codes with [PosLabel] above zero and
    different from [NegLabel]: [FitTransform] followed by
    [InverseTransform] returns, row by row, a label equal ([==]) to the
    one that was given. *)
Lemma round_trip_one_column (m : LabelBinarizer64.lb) (Y : blas64General) :
  Cols Y = 1 ->
  (0 <? LabelBinarizer64.PosLabel m)%float = true ->
  (LabelBinarizer64.PosLabel m =? LabelBinarizer64.NegLabel m)%float
  = false ->
  (forall i, i < Rows Y -> exists v,
     Data Y !! (i * Stride Y) = Some v /\ F64.IsNaN v = false) ->
  exists m' Yb Yr,
    LabelBinarizer64.FitTransform m Y = Ok (m', Yb) /\
    LabelBinarizer64.InverseTransform m' Yb = Ok Yr /\
    Rows Yr = Rows Y /\ Cols Yr = 1 /\
    forall i, i < Rows Y -> exists v w,
      Data Y !! (i * Stride Y) = Some v /\ Data Yr !! i = Some w /\
      (w =? v)%float = true.
Proof.
  intros HC Hpos Hne HY.
  destruct (column_classes_spec Y 0) as (classes & Hcl & Hd & Hcov).
  { intros i Hi. rewrite Nat.add_0_r. apply HY. exact Hi. }
  destruct (sort_labels_total classes) as (sorted & Hsort & Hperm).
  set (m' := LabelBinarizer64.mkLb (LabelBinarizer64.NegLabel m)
               (LabelBinarizer64.PosLabel m) [sorted]).
  assert (LabelBinarizer64.Fit m Y = Ok m') as Hfit.
  { unfold LabelBinarizer64.Fit. rewrite HC, Hne.
    unfold for_range. cbn [for_loop]. rewrite Hcl. cbn [bind].
    rewrite Hsort. reflexivity. }
  destruct (Transform_one_column m' Y sorted HC eq_refl) as (d & Ht & Hlen & Hrows).
  { eapply distinct_labels_Permutation; eassumption. }
  { intros i Hi. destruct (Hcov i Hi) as (v & k & Hv & Hk & Hkv).
    exists v, k. rewrite Hperm. repeat split; assumption. }
  destruct (InverseTransform_one_column m' sorted d (Rows Y) eq_refl Hpos Hlen)
    as (d' & Hinv & Hback).
  { intros i Hi.
    destruct (Hrows i Hi) as (_ & c & k & _ & Hk & _ & Hone).
    exists c. split; [apply lookup_lt_Some in Hk; exact Hk | exact Hone]. }
  eexists m', _, _. split; [| split; [exact Hinv |]].
  { unfold LabelBinarizer64.FitTransform. rewrite Hfit. cbn [bind].
    rewrite Ht. reflexivity. }
  split; [reflexivity | split; [reflexivity |]].
  intros i Hi. destruct (Hrows i Hi) as (v & c & k & Hv & Hk & Hkv & Hone).
  exists v, k. rewrite Nat.add_0_r in Hv. split; [exact Hv |].
  split; [| exact Hkv]. cbn [Data]. rewrite (Hback i c Hi Hone). exact Hk.
Qed.
(** ** Binarized targets *)

Lemma isBinarized64_row (yb : blas64General) (r start count : nat) :
  for_break (fun c (_ : bool) =>
      let* v := load (Data yb) (r * Stride yb + c) in
      if F64.neqb v 0 && F64.neqb v 1 then Ok (false, true)
      else Ok (true, false)) start count true = Ok true <->
  forall c, start <= c < start + count ->
    binary_cell (Data yb) (r * Stride yb + c).
Proof.
  revert start. induction count as [|k IH]; intros start.
  - simpl. split; [intros _ c Hc; lia | reflexivity].
  - cbn [for_break]. unfold load at 1.
    destruct (Data yb !! (r * Stride yb + start)) as [v|] eqn:Hv; cbn [bind].
    + destruct (F64.neqb v 0 && F64.neqb v 1) eqn:Hbad; cbn [bind].
      * split; [discriminate |]. intros Hall.
        destruct (Hall start) as (w & Hw & Hbin); [lia |].
        rewrite Hv in Hw. injection Hw as <-.
        unfold F64.neqb in Hbad. apply andb_true_iff in Hbad as [H0 H1].
        apply negb_true_iff in H0, H1. destruct Hbin; congruence.
      * rewrite IH. split.
        { intros Hall c Hc. destruct (decide (c = start)) as [-> | Hne].
          - exists v. split; [exact Hv |]. unfold F64.neqb in Hbad.
            destruct (v =? 0)%float; [left; reflexivity |].
            destruct (v =? 1)%float; [right; reflexivity | discriminate].
          - apply Hall. lia. }
        { intros Hall c Hc. apply Hall. lia. }
    + split; [discriminate |]. intros Hall.
      destruct (Hall start) as (w & Hw & _); [lia |]. congruence.
Qed.

(** The loop over the rows, from any row on. *)
Lemma isBinarized64_rows (yb : blas64General) (start count : nat) :
  for_break (fun r (_ : bool) =>
    let* ok := for_break (fun c (_ : bool) =>
        let* v := load (Data yb) (r * Stride yb + c) in
        if F64.neqb v 0 && F64.neqb v 1 then Ok (false, true)
        else Ok (true, false)) 0 (Cols yb) true in
    Ok (ok, negb ok)) start count true = Ok true <->
  forall r c, start <= r < start + count -> c < Cols yb ->
    binary_cell (Data yb) (r * Stride yb + c).
Proof.
  revert start.
  induction count as [|k IH]; intros start.
  - simpl. split; [intros _ r c Hr; lia | reflexivity].
  - cbn [for_break].
    pose proof (isBinarized64_row yb start 0 (Cols yb)) as Hrow.
    destruct (for_break _ 0 (Cols yb) true) as [[|] | msg |] eqn:Hinner;
      cbn [bind negb].
    + rewrite IH. split.
      * intros Hall r c Hr Hc. destruct (decide (r = start)) as [-> | Hne].
        { apply Hrow; [reflexivity | lia]. }
        { apply Hall; [lia | exact Hc]. }
      * intros Hall r c Hr Hc. apply Hall; [lia | exact Hc].
    + split; [discriminate |]. intros Hall.
      assert (Ok false = Ok true) as Habs; [| discriminate].
      apply Hrow. intros c Hc. apply Hall; lia.
    + split; [discriminate |]. intros Hall.
      assert (@Panic bool msg = Ok true) as Habs; [| discriminate].
      apply Hrow. intros c Hc. apply Hall; lia.
    + split; [discriminate |]. intros Hall.
      assert (@Diverge bool = Ok true) as Habs; [| discriminate].
      apply Hrow. intros c Hc. apply Hall; lia.
Qed.

(** X2: [isBinarized64] answers true exactly when every cell of the
    matrix, row by row within its columns, is in the slice and holds a
    value equal ([==]) to 0 or to 1. *)
Theorem isBinarized64_true_iff_every_cell_is_0_or_1 (yb : blas64General) :
  isBinarized64 yb = Ok true <->
  forall r c, r < Rows yb -> c < Cols yb ->
    binary_cell (Data yb) (r * Stride yb + c).
Proof.
  unfold isBinarized64. rewrite isBinarized64_rows.
  split; intros Hall r c; [intros Hr | intros [_ Hr]]; apply Hall; lia.
Qed.

Lemma binary_cell_insert (d : list float) (p q : nat) (w : float) :
  binary_cell d p -> q < length d ->
  (w =? 0)%float = true \/ (w =? 1)%float = true ->
  binary_cell (<[q:=w]> d) p.
Proof.
  intros (v & Hv & Hbin) Hq Hw. destruct (decide (p = q)) as [-> | Hne].
  - exists w. split; [apply list_lookup_insert_eq; exact Hq | exact Hw].
  - exists v. split; [| exact Hbin].
    rewrite list_lookup_insert_ne by congruence. exact Hv.
Qed.

(** X3: on a matrix with at least one column whose slice reaches its last
    cell, [toLogits64] returns, and what it leaves passes
    [isBinarized64]: every cell within the columns is 0 or 1. *)
Theorem toLogits64_output_is_binarized (ym : blas64General) :
  0 < Cols ym -> holds (Rows ym) (Cols ym) ym ->
  exists d,
    toLogits64 ym = Ok d /\ length d = length (Data ym) /\
    isBinarized64 (with_Data ym d) = Ok true.
Proof.
  intros HC Hfit. unfold toLogits64.
  match goal with |- context [for_range ?n ?body ?s] =>
    destruct (for_range_inv
      (fun i d =>
         length d = length (Data ym) /\
         forall r c, r < i -> c < Cols ym ->
           binary_cell d (r * Stride ym + c)) body n s)
      as (d & Hrun & Hlen & Hbin)
  end.
  - split; [reflexivity |]. intros r c Hr. lia.
  - intros i d Hi (Hlen & Hbin).
    assert (i * Stride ym + Cols ym <= length d) as Hrow.
    { destruct Hfit as [H0 | Hfit]; [lia |]. rewrite Hlen. nia. }
    destruct (Cols ym =? 1) eqn:Hone.
    + apply Nat.eqb_eq in Hone.
      destruct (lookup_lt_is_Some_2 d (i * Stride ym)) as (v & Hv); [lia |].
      rewrite (update_at_Ok _ _ _ v Hv). eexists. split; [reflexivity |].
      split; [rewrite length_insert; exact Hlen |].
      assert (((if F64.gtb v 0.5 then 1 else 0) =? 0)%float = true \/
              ((if F64.gtb v 0.5 then 1 else 0) =? 1)%float = true) as Hw.
      { destruct (F64.gtb v 0.5); [right | left]; reflexivity. }
      intros r c Hr Hc. destruct (decide (r = i)) as [-> | Hne].
      * replace c with 0 by lia. rewrite Nat.add_0_r.
        eexists. split; [apply list_lookup_insert_eq; lia | exact Hw].
      * apply binary_cell_insert; [apply Hbin; [lia | exact Hc] | lia |].
        exact Hw.
    + unfold slice. rewrite decide_True by lia. cbn [bind].
      set (M := MaxIdx64 _).
      match goal with |- context [for_range ?n ?body ?s] =>
        destruct (for_range_inv
          (fun c d' =>
             length d' = length (Data ym) /\
             (forall r c', r < i -> c' < Cols ym ->
                binary_cell d' (r * Stride ym + c')) /\
             (forall c', c' < c -> binary_cell d' (i * Stride ym + c')))
          body n s) as (d' & Hrun & Hlen' & Hold & Hnew)
      end.
      * split; [exact Hlen | split; [exact Hbin |]]. intros c' Hc'. lia.
      * intros c u Hc (Hlu & Hold & Hnew).
        rewrite store_Ok by lia. eexists. split; [reflexivity |].
        assert (((if (c =? M)%nat then 1 else 0) =? 0)%float = true \/
                ((if (c =? M)%nat then 1 else 0) =? 1)%float = true) as Hw.
        { destruct (c =? M); [right | left]; reflexivity. }
        split; [rewrite length_insert; exact Hlu | split].
        { intros r c' Hr Hc'. apply binary_cell_insert; [auto | lia | exact Hw]. }
        { intros c' Hc'. destruct (decide (c' = c)) as [-> | Hne].
          - eexists. split; [apply list_lookup_insert_eq; lia | exact Hw].
          - apply binary_cell_insert; [apply Hnew; lia | lia | exact Hw]. }
      * exists d'. split; [exact Hrun | split; [exact Hlen' |]].
        intros r c Hr Hc. destruct (decide (r = i)) as [-> | Hne].
        { apply Hnew. exact Hc. }
        { apply Hold; [lia | exact Hc]. }
  - exists d. split; [exact Hrun | split; [exact Hlen |]].
    unfold isBinarized64. apply isBinarized64_rows.
    intros r c [_ Hr] Hc. apply Hbin; [exact Hr | exact Hc].
Qed.

(** ** Comparisons of float64 *)

Lemma SFcompare_refl (f : spec_float) :
  f <> S754_nan -> SFcompare f f = Some Eq.
Proof.
  destruct f as [s | s | | s m e]; intros Hn; try congruence.
  - reflexivity.
  - destruct s; reflexivity.
  - simpl. rewrite Z.compare_refl, Pos.compare_cont_refl.
    destruct s; reflexivity.
Qed.

Lemma IsNaN_Prim2SF (x : float) :
  F64.IsNaN x = true -> Prim2SF x = S754_nan.
Proof.
  unfold F64.IsNaN, PrimFloat.is_nan. rewrite FloatAxioms.eqb_spec.
  unfold SFeqb. intros Hx.
  destruct (Prim2SF x) as [s | s | | s m e] eqn:Hf; [| | reflexivity |];
    rewrite SFcompare_refl in Hx by discriminate; discriminate.
Qed.

Lemma SFcompare_nan_r (f : spec_float) : SFcompare f S754_nan = None.
Proof. destruct f as [s | s | | s m e]; reflexivity. Qed.

Lemma NaN_ltb_l (x y : float) : F64.IsNaN x = true -> (x <? y)%float = false.
Proof.
  intros Hx. rewrite FloatAxioms.ltb_spec, (IsNaN_Prim2SF x Hx). reflexivity.
Qed.

Lemma NaN_ltb_r (x y : float) : F64.IsNaN x = true -> (y <? x)%float = false.
Proof.
  intros Hx. rewrite FloatAxioms.ltb_spec, (IsNaN_Prim2SF x Hx).
  unfold SFltb. rewrite SFcompare_nan_r. reflexivity.
Qed.

Lemma NaN_leb_l (x y : float) : F64.IsNaN x = true -> (x <=? y)%float = false.
Proof.
  intros Hx. rewrite FloatAxioms.leb_spec, (IsNaN_Prim2SF x Hx). reflexivity.
Qed.

Lemma NaN_leb_r (x y : float) : F64.IsNaN x = true -> (y <=? x)%float = false.
Proof.
  intros Hx. rewrite FloatAxioms.leb_spec, (IsNaN_Prim2SF x Hx).
  unfold SFleb. rewrite SFcompare_nan_r. reflexivity.
Qed.

(** ** Validation of the hyperparameters *)

(** X5: every float check of [validateHyperparameters] is a comparison,
    and a comparison with NaN is false: a perceptron whose [Alpha],
    [LearningRateInit], [Momentum], [ValidationFraction], [Beta1], [Beta2]
    and [Epsilon] are all NaN passes, when its two counts are positive and
    its three names are known. *)
Theorem validateHyperparameters_accepts_NaN (M64 : Externals)
    (mlp : BaseMultilayerPerceptron64) :
  (0 < MaxIter mlp)%Z -> (0 < NIterNoChange mlp)%Z ->
  F64.IsNaN (Alpha mlp) = true ->
  F64.IsNaN (LearningRateInit mlp) = true ->
  F64.IsNaN (Momentum mlp) = true ->
  F64.IsNaN (ValidationFraction mlp) = true ->
  F64.IsNaN (Beta1 mlp) = true -> F64.IsNaN (Beta2 mlp) = true ->
  F64.IsNaN (Epsilon mlp) = true ->
  is_Some (Activations64 M64 (Activation mlp)) ->
  LearningRate mlp ∈ ["constant"; "invscaling"; "adaptive"] ->
  Solver mlp ∈ ["sgd"; "adam"; "lbfgs"] ->
  validateHyperparameters M64 mlp = Ok tt.
Proof.
  intros HM HN Ha Hl Hm Hv H1 H2 He HA HL HS.
  unfold validateHyperparameters, F64.gtb, F64.geb.
  rewrite (proj2 (Z.leb_gt _ _) HM), (proj2 (Z.leb_gt _ _) HN).
  rewrite (NaN_ltb_l _ _ Ha), (NaN_leb_l _ _ Hl), (NaN_ltb_r _ _ Hm),
    (NaN_ltb_l _ _ Hm), (NaN_ltb_l _ _ Hv), (NaN_leb_r _ _ Hv),
    (NaN_ltb_l _ _ H1), (NaN_leb_r _ _ H1), (NaN_ltb_l _ _ H2),
    (NaN_leb_r _ _ H2), (NaN_leb_l _ _ He).
  destruct HA as (f & ->).
  rewrite !elem_of_cons in HL, HS.
  destruct HL as [-> | [-> | [-> | HL]]]; [| | | inversion HL];
    (destruct HS as [-> | [-> | [-> | HS]]]; [| | | inversion HS]);
    reflexivity.
Qed.

Lemma validateHyperparameters_Ok (M64 : Externals)
    (mlp : BaseMultilayerPerceptron64) :
  validateHyperparameters M64 mlp = Ok tt ->
  (0 < MaxIter mlp)%Z /\ (0 < NIterNoChange mlp)%Z /\
  is_Some (Activations64 M64 (Activation mlp)) /\
  LearningRate mlp ∈ ["constant"; "invscaling"; "adaptive"] /\
  Solver mlp ∈ ["sgd"; "adam"; "lbfgs"].
Proof.
  unfold validateHyperparameters. intros H.
  destruct (MaxIter mlp <=? 0)%Z eqn:HM; [discriminate |].
  destruct (Alpha mlp <? 0)%float; [discriminate |].
  destruct (LearningRateInit mlp <=? 0)%float; [discriminate |].
  destruct (F64.gtb (Momentum mlp) 1 || (Momentum mlp <? 0)%float);
    [discriminate |].
  destruct ((ValidationFraction mlp <? 0)%float
            || F64.geb (ValidationFraction mlp) 1); [discriminate |].
  destruct ((Beta1 mlp <? 0)%float || F64.geb (Beta1 mlp) 1);
    [discriminate |].
  destruct ((Beta2 mlp <? 0)%float || F64.geb (Beta2 mlp) 1);
    [discriminate |].
  destruct (Epsilon mlp <=? 0)%float; [discriminate |].
  destruct (NIterNoChange mlp <=? 0)%Z eqn:HN; [discriminate |].
  destruct (Activations64 M64 (Activation mlp)) as [f|]; [| discriminate].
  apply Z.leb_gt in HM, HN.
  split; [exact HM | split; [exact HN | split; [eexists; reflexivity |]]].
  rewrite !elem_of_cons.
  destruct (String.eqb_spec (LearningRate mlp) "constant") as [-> | _];
    [| destruct (String.eqb_spec (LearningRate mlp) "invscaling") as [-> | _];
       [| destruct (String.eqb_spec (LearningRate mlp) "adaptive")
            as [-> | _]; [| discriminate]]];
    (destruct (String.eqb_spec (Solver mlp) "sgd") as [-> | _];
     [| destruct (String.eqb_spec (Solver mlp) "adam") as [-> | _];
        [| destruct (String.eqb_spec (Solver mlp) "lbfgs") as [-> | _];
           [| discriminate]]]);
    split; auto.
Qed.

(** X6: when [validateHyperparameters] has passed and the solver is not
    lbfgs, the [switch] of [fitStochastic] builds an optimizer: SGD or Adam
    as the solver says, with the learning rate at [LearningRateInit] and
    no velocities or moments from an earlier fit. *)
Theorem validated_solver_gets_a_fresh_optimizer (M64 : Externals)
    (mlp : BaseMultilayerPerceptron64) :
  validateHyperparameters M64 mlp = Ok tt ->
  EqualFold (Solver mlp) "lbfgs" = false ->
  exists o, new_optimizer mlp = Some o /\
    match o with
    | OptSGD s =>
        Solver mlp = "sgd" /\
        SGDOptimizer64.LearningRate s = LearningRateInit mlp /\
        SGDOptimizer64.velocities s = None
    | OptAdam a =>
        Solver mlp = "adam" /\
        AdamOptimizer64.LearningRate a = LearningRateInit mlp /\
        AdamOptimizer64.t a = 0%float
    end.
Proof.
  intros Hv Hl. apply validateHyperparameters_Ok in Hv as (_ & _ & _ & _ & HS).
  rewrite !elem_of_cons in HS. unfold new_optimizer.
  destruct HS as [HS | [HS | [HS | HS]]]; [| | | inversion HS];
    rewrite HS in *.
  - eexists. split; [reflexivity |]. repeat split; reflexivity.
  - eexists. split; [reflexivity |]. repeat split; reflexivity.
  - discriminate.
Qed.

(** ** A hidden activation without a derivative *)

Lemma backprop_forward_keeps_activation (M64 : Externals)
    (mlp mlp' : BaseMultilayerPerceptron64) (b : Buffers)
    (acts : list blas64General) :
  backprop_forward M64 mlp b = Ok (mlp', acts) ->
  Activation mlp' = Activation mlp /\ NLayers mlp' = NLayers mlp.
Proof.
  unfold backprop_forward. intros Hrun.
  apply bind_Ok in Hrun as (acts0 & _ & Hrun).
  assert (Activation (decay mlp) = Activation mlp /\
          NLayers (decay mlp) = NLayers mlp) as [Ha Hn].
  { unfold decay. destruct (F64.gtb (WeightDecay mlp) 0); split; reflexivity. }
  destruct (BatchNormalize (decay mlp)).
  - apply bind_Ok in Hrun as ([bn acts1] & _ & Hrun).
    injection Hrun as <- <-. split; assumption.
  - injection Hrun as <- <-. split; assumption.
Qed.

(** X7: softmax is an entry of [Activations64], which is what
    [validateHyperparameters] asks of the hidden activation, but
    [Derivatives64] has no entry of that name: with at least one hidden
    layer, [backprop] calls the nil function and never returns a loss. *)
Theorem softmax_hidden_activation_has_no_derivative (M64 : Externals)
    (mlp : BaseMultilayerPerceptron64) (X y : blas64General) (b : Buffers) :
  Activation mlp = "softmax" -> 3 <= NLayers mlp ->
  is_Some (Activations64 M64 (Activation mlp)) /\
  Derivatives64 (Activation mlp) = None /\
  forall r, backprop M64 mlp X y b <> Ok r.
Proof.
  intros HA HN. rewrite HA.
  split; [eexists; reflexivity | split; [reflexivity |]].
  intros [[loss mlp2] b2] Hrun. unfold backprop in Hrun.
  apply bind_Ok in Hrun as ([mlp1 acts] & Hfwd & Hrun).
  apply backprop_forward_keeps_activation in Hfwd as [HA1 HN1].
  apply bind_Ok in Hrun as (H & _ & Hrun).
  apply bind_Ok in Hrun as (l & _ & Hrun).
  apply bind_Ok in Hrun as (s & _ & Hrun).
  apply bind_Ok in Hrun as (b1 & Hback & _).
  unfold backprop_backward in Hback.
  destruct (NLayers mlp1 <? 2) eqn:Hlt; [discriminate |].
  apply bind_Ok in Hback as (H' & _ & Hback).
  apply bind_Ok in Hback as (D & _ & Hback).
  apply bind_Ok in Hback as (D' & _ & Hback).
  apply bind_Ok in Hback as (dls & _ & Hback).
  apply bind_Ok in Hback as (grads & _ & Hback).
  destruct (NLayers mlp1 - 2) as [|k] eqn:Hk; [lia |].
  cbn [for_down] in Hback.
  apply bind_Ok in Hback as (b3 & Hbody & _).
  apply bind_Ok in Hbody as (di & _ & Hbody).
  apply bind_Ok in Hbody as (cv & _ & Hbody).
  apply bind_Ok in Hbody as (coef & _ & Hbody).
  apply bind_Ok in Hbody as (dprev & _ & Hbody).
  apply bind_Ok in Hbody as (d & _ & Hbody).
  apply bind_Ok in Hbody as (ai & _ & Hbody).
  apply bind_Ok in Hbody as (dprev' & Hder & _).
  rewrite HA1, HA in Hder. discriminate.
Qed.

(** ** The activation named relu *)

(** X4: on a matrix whose rows do not overlap and whose slice reaches its
    last cell, the entry named relu returns; afterwards no cell within the
    columns is below zero, and a cell that was not below zero (a NaN
    included) holds what it held. *)
Theorem relu_entry_leaves_no_negative_cell (M64 : Externals)
    (z : blas64General) :
  Cols z <= Stride z -> holds (Rows z) (Cols z) z ->
  exists f d,
    Activations64 M64 "relu" = Some f /\ f z = Ok d /\
    length d = length (Data z) /\
    forall row col, row < Rows z -> col < Cols z ->
      exists v w,
        Data z !! (row * Stride z + col) = Some v /\
        d !! (row * Stride z + col) = Some w /\
        (w <? 0)%float = false /\
        ((v <? 0)%float = false -> w = v).
Proof.
  intros Hcs Hfit.
  destruct (apply_inplace_spec (fun v => if (v <? 0)%float then 0%float else v)
              z Hcs Hfit) as (d & Hrun & Hlen & Hcells & _).
  eexists _, d. split; [reflexivity | split; [exact Hrun |]].
  split; [exact Hlen |]. intros row col Hr Hc.
  destruct (lookup_lt_is_Some_2 (Data z) (row * Stride z + col)) as (v & Hv).
  { destruct Hfit as [H0 | Hfit]; [lia |]. eapply cell_in_range; eauto. }
  exists v. eexists. split; [exact Hv |].
  rewrite (Hcells row col Hr Hc), Hv. split; [reflexivity |].
  destruct (v <? 0)%float eqn:Hneg.
  - split; [reflexivity | discriminate].
  - split; [exact Hneg | reflexivity].
Qed.

(** ** The parameters [initialize] allocates *)

Lemma packed_size_cons (fanIn fanOut : nat) (rest : list nat) :
  packed_size (fanIn :: fanOut :: rest)
  = (1 + fanIn) * fanOut + packed_size (fanOut :: rest).
Proof. reflexivity. Qed.

Lemma initial_parameters_cons (rnd : nat -> float) (factor : float)
    (fanIn fanOut : nat) (rest : list nat) (pos : nat) :
  initial_parameters rnd factor (fanIn :: fanOut :: rest) pos
  = map (fun k => (rnd k * F64.Sqrt (factor / F64.of_nat (fanIn + fanOut)))%float)
        (seq pos (fanOut + fanIn * fanOut))
    ++ initial_parameters rnd factor (fanOut :: rest)
         (pos + (fanOut + fanIn * fanOut)).
Proof. reflexivity. Qed.

Lemma length_initial_parameters (rnd : nat -> float) (factor : float)
    (units : list nat) (pos : nat) :
  length (initial_parameters rnd factor units pos) = packed_size units.
Proof.
  revert pos. induction units as [|fanIn rest IH]; intros pos; [reflexivity |].
  destruct rest as [|fanOut rest]; [reflexivity |].
  rewrite initial_parameters_cons, packed_size_cons, length_app, length_map,
    length_seq, IH. lia.
Qed.

(** The part of [packedParameters] before the block of layer [i] holds the
    blocks of the layers before it. *)
Lemma packed_size_step (units : list nat) (i fanIn fanOut : nat) :
  units !! i = Some fanIn -> units !! (S i) = Some fanOut ->
  packed_size (take (S (S i)) units)
  = packed_size (take (S i) units) + (1 + fanIn) * fanOut.
Proof.
  revert i. induction units as [|u0 rest IH]; intros i Hi Hi'; [discriminate |].
  destruct rest as [|u1 rest]; [discriminate |].
  destruct i as [|i].
  - simpl in Hi, Hi'. injection Hi as ->. injection Hi' as ->.
    destruct rest; simpl; lia.
  - change (take (S (S (S i))) (u0 :: u1 :: rest))
      with (u0 :: u1 :: take (S i) rest).
    change (take (S (S i)) (u0 :: u1 :: rest)) with (u0 :: u1 :: take i rest).
    rewrite !packed_size_cons.
    change (u1 :: take (S i) rest) with (take (S (S i)) (u1 :: rest)).
    change (u1 :: take i rest) with (take (S i) (u1 :: rest)).
    rewrite (IH i Hi Hi'). lia.
Qed.

Lemma packed_size_take (units : list nat) (k : nat) :
  packed_size (take k units) <= packed_size units.
Proof.
  revert k. induction units as [|u0 rest IH]; intros k.
  - rewrite take_nil. lia.
  - destruct k as [|k]; [simpl; lia |].
    destruct rest as [|u1 rest]; [destruct k; simpl; lia |].
    destruct k as [|k]; [simpl; lia |].
    change (take (S (S k)) (u0 :: u1 :: rest)) with (u0 :: u1 :: take k rest).
    rewrite !packed_size_cons.
    change (u1 :: take k rest) with (take (S k) (u1 :: rest)).
    specialize (IH (S k)). lia.
Qed.

Lemma layout_blocks (units : list nat) (off : nat)
    (spans : list Span) (views : list View) :
  layout units off = (spans, views) ->
  length spans = length units - 1 /\ length views = length units - 1 /\
  forall i fanIn fanOut,
    units !! i = Some fanIn -> units !! (S i) = Some fanOut ->
    spans !! i
    = Some {| sOff := off + packed_size (take (S i) units);
              sLen := fanOut |} /\
    views !! i
    = Some {| vRows := fanIn; vCols := fanOut; vStride := fanOut;
              vOff := off + packed_size (take (S i) units) + fanOut;
              vLen := fanIn * fanOut |}.
Proof.
  revert off spans views.
  induction units as [|u0 rest IH]; intros off spans views Hl.
  - simpl in Hl. injection Hl as <- <-.
    split; [reflexivity | split; [reflexivity |]]. intros i ? ? Hi. discriminate.
  - destruct rest as [|u1 rest].
    + simpl in Hl. injection Hl as <- <-.
      split; [reflexivity | split; [reflexivity |]].
      intros i ? ? _ Hi. discriminate.
    + rewrite layout_cons in Hl.
      destruct (layout (u1 :: rest) (off + u1 + u0 * u1))
        as [spans' views'] eqn:Hrest.
      injection Hl as <- <-.
      destruct (IH _ _ _ Hrest) as (Hls & Hlv & Hblocks).
      split; [simpl in *; lia | split; [simpl in *; lia |]].
      intros i fanIn fanOut Hi Hi'. destruct i as [|i].
      * simpl in Hi, Hi'. injection Hi as ->. injection Hi' as ->.
        simpl. rewrite !Nat.add_0_r. split; reflexivity.
      * change ((u0 :: u1 :: rest) !! S i) with ((u1 :: rest) !! i) in Hi.
        change ((u0 :: u1 :: rest) !! S (S i))
          with ((u1 :: rest) !! S i) in Hi'.
        destruct (Hblocks i fanIn fanOut Hi Hi') as [Hs Hv].
        change (take (S (S i)) (u0 :: u1 :: rest))
          with (u0 :: u1 :: take i rest).
        rewrite packed_size_cons.
        change (u1 :: take i rest) with (take (S i) (u1 :: rest)).
        rewrite !lookup_cons, Hs, Hv.
        split; do 2 f_equal; lia.
Qed.

Lemma initialize_Ok (rnd : nat -> float) (mlp mlp' : BaseMultilayerPerceptron64)
    (yCols : nat) (units : list nat) (isClassifier isMultiClass : bool) :
  initialize rnd mlp yCols units isClassifier isMultiClass = Ok mlp' ->
  exists factor,
    NLayers mlp' = length units /\ NOutputs mlp' = yCols /\
    NIter mlp' = 0 /\ t mlp' = 0 /\ BestLoss mlp' = F64.Inf /\
    (Intercepts mlp', Coefs mlp') = layout units 0 /\
    packedParameters mlp' = initial_parameters rnd factor units 0 /\
    (OutActivation mlp', LossFuncName mlp')
    = (if negb isClassifier then ("identity", "square_loss")
       else if isMultiClass then ("softmax", "log_loss")
       else ("logistic", "binary_log_loss")).
Proof.
  unfold initialize. intros H.
  destruct (if negb isClassifier then _ else _) as [oa lf] eqn:Hnames.
  destruct (length units =? 0); [discriminate |].
  destruct (BatchNormalize mlp && (length units <? 2)); [discriminate |].
  destruct (layout units 0) as [spans views] eqn:Hl.
  injection H as <-. eexists.
  cbn [NLayers NOutputs NIter t BestLoss Intercepts Coefs packedParameters
       OutActivation LossFuncName].
  repeat split; reflexivity.
Qed.

(** X8: after [initialize], [packedParameters] has
    [(1 + layerUnits[i]) * layerUnits[i+1]] entries for every layer; the
    bias vector of layer [i] starts where the blocks of the layers before
    it end, its weight block of [layerUnits[i]] rows and [layerUnits[i+1]]
    columns follows it, and the next layer starts where that block ends.
    Both slices lie inside [packedParameters]. *)
Theorem initialize_blocks_tile_the_parameters (rnd : nat -> float)
    (mlp mlp' : BaseMultilayerPerceptron64) (yCols : nat) (units : list nat)
    (isClassifier isMultiClass : bool) :
  initialize rnd mlp yCols units isClassifier isMultiClass = Ok mlp' ->
  NLayers mlp' = length units /\
  length (packedParameters mlp') = packed_size units /\
  length (Intercepts mlp') = length units - 1 /\
  length (Coefs mlp') = length units - 1 /\
  forall i fanIn fanOut,
    units !! i = Some fanIn -> units !! (S i) = Some fanOut ->
    exists sp cv bias W,
      Intercepts mlp' !! i = Some sp /\ Coefs mlp' !! i = Some cv /\
      sOff sp = packed_size (take (S i) units) /\
      vOff cv = sOff sp + fanOut /\
      vOff cv + vLen cv = packed_size (take (S (S i)) units) /\
      span_slice (packedParameters mlp') sp = Ok bias /\
      length bias = fanOut /\
      view_matrix (packedParameters mlp') cv = Ok W /\
      Rows W = fanIn /\ Cols W = fanOut /\ Stride W = fanOut /\
      length (Data W) = fanIn * fanOut.
Proof.
  intros H. apply initialize_Ok in H
    as (factor & HN & _ & _ & _ & _ & Hl & Hp & _).
  symmetry in Hl. apply layout_blocks in Hl as (Hls & Hlv & Hblocks).
  assert (length (packedParameters mlp') = packed_size units) as Hlen.
  { rewrite Hp. apply length_initial_parameters. }
  split; [exact HN | split; [exact Hlen | split; [exact Hls |]]].
  split; [exact Hlv |]. intros i fanIn fanOut Hi Hi'.
  destruct (Hblocks i fanIn fanOut Hi Hi') as [Hs Hv].
  pose proof (packed_size_step units i fanIn fanOut Hi Hi') as Hstep.
  pose proof (packed_size_take units (S (S i))) as Hle.
  assert (packed_size (take (S i) units) + fanOut + fanIn * fanOut
          <= length (packedParameters mlp')) as Hin.
  { rewrite Hlen. lia. }
  set (off := packed_size (take (S i) units)) in *.
  exists {| sOff := 0 + off; sLen := fanOut |},
         {| vRows := fanIn; vCols := fanOut; vStride := fanOut;
            vOff := 0 + off + fanOut; vLen := fanIn * fanOut |},
         (take fanOut (drop off (packedParameters mlp'))),
         {| Rows := fanIn; Cols := fanOut; Stride := fanOut;
            Data := take (fanIn * fanOut)
                      (drop (off + fanOut) (packedParameters mlp')) |}.
  split; [exact Hs | split; [exact Hv |]].
  split; [reflexivity | split; [reflexivity |]].
  split; [simpl; lia |].
  split.
  { unfold span_slice, slice. simpl.
    rewrite decide_True by lia. do 2 f_equal. lia. }
  split; [rewrite length_take, length_drop; lia |].
  split.
  { unfold view_matrix, slice. simpl.
    rewrite decide_True by lia. simpl. do 3 f_equal. lia. }
  simpl. rewrite length_take, length_drop.
  repeat split; lia.
Qed.


(** ** One step of SGD *)

(** X10: one step of SGD, for gradients no longer than the parameters and
    the velocities.  Entry [i] of the velocities becomes
    [Momentum * v - LearningRate * g]; parameter [i] grows by that update,
    or under Nesterov by [Momentum * update - LearningRate * g]; each from
    the values before the step.  The entries past the gradients are left
    alone, and fresh velocities start at zero. *)
Theorem sgd_step_is_elementwise (o : SGDOptimizer64.opt)
    (grads Params vel0 : list float) :
  vel0 = match SGDOptimizer64.velocities o with
         | Some v => v
         | None => make (length grads)
         end ->
  length grads <= length vel0 -> length grads <= length Params ->
  exists vel Params',
    SGDOptimizer64.updateParams o grads Params
    = Ok (SGDOptimizer64.set_velocities o vel, Params') /\
    length vel = length vel0 /\ length Params' = length Params /\
    (forall i g, grads !! i = Some g ->
       exists v p,
         vel0 !! i = Some v /\ Params !! i = Some p /\
         let update := (SGDOptimizer64.Momentum o * v
                        - SGDOptimizer64.LearningRate o * g)%float in
         vel !! i = Some update /\
         Params' !! i
         = Some (p + (if SGDOptimizer64.Nesterov o
                      then SGDOptimizer64.Momentum o * update
                           - SGDOptimizer64.LearningRate o * g
                      else update))%float) /\
    (forall i, length grads <= i ->
       vel !! i = vel0 !! i /\ Params' !! i = Params !! i).
Proof.
  intros Hvel Hlv Hlp. unfold SGDOptimizer64.updateParams. rewrite <- Hvel.
  match goal with |- context [for_range ?n ?body ?s] =>
    destruct (for_range_inv
      (fun k (st : list float * list float) =>
         length st.1 = length vel0 /\ length st.2 = length Params /\
         (forall i g, i < k -> grads !! i = Some g ->
            exists v p,
              vel0 !! i = Some v /\ Params !! i = Some p /\
              st.1 !! i
              = Some (SGDOptimizer64.Momentum o * v
                      - SGDOptimizer64.LearningRate o * g)%float /\
              st.2 !! i
              = Some (p + (if SGDOptimizer64.Nesterov o
                           then SGDOptimizer64.Momentum o
                                * (SGDOptimizer64.Momentum o * v
                                   - SGDOptimizer64.LearningRate o * g)
                                - SGDOptimizer64.LearningRate o * g
                           else SGDOptimizer64.Momentum o * v
                                - SGDOptimizer64.LearningRate o * g))%float) /\
         (forall i, k <= i -> st.1 !! i = vel0 !! i /\ st.2 !! i = Params !! i))
      body n s) as ([vel P] & Hrun & Hl1 & Hl2 & Hdone & Hrest)
  end.
  - simpl. repeat split; try reflexivity. intros i g Hi. lia.
  - intros k [vel P] Hk (Hl1 & Hl2 & Hdone & Hrest). cbn [fst snd] in *.
    destruct (lookup_lt_is_Some_2 grads k Hk) as (g & Hg).
    destruct (lookup_lt_is_Some_2 vel0 k) as (v & Hv); [lia |].
    destruct (lookup_lt_is_Some_2 Params k) as (p & Hp); [lia |].
    destruct (Hrest k ltac:(lia)) as [Hvk Hpk]. rewrite Hv in Hvk.
    rewrite Hp in Hpk.
    rewrite (proj2 (load_Ok _ _ _) Hvk), (proj2 (load_Ok _ _ _) Hg).
    cbn [bind]. rewrite store_Ok by lia. cbn [bind].
    assert (forall f, update_at f k P = Ok (<[k := f p]> P)) as Hupd.
    { intros f. apply update_at_Ok. exact Hpk. }
    exists (<[k := (SGDOptimizer64.Momentum o * v
                    - SGDOptimizer64.LearningRate o * g)%float]> vel,
            <[k := (p + (if SGDOptimizer64.Nesterov o
                         then SGDOptimizer64.Momentum o
                              * (SGDOptimizer64.Momentum o * v
                                 - SGDOptimizer64.LearningRate o * g)
                              - SGDOptimizer64.LearningRate o * g
                         else SGDOptimizer64.Momentum o * v
                              - SGDOptimizer64.LearningRate o * g))%float]> P).
    split.
    { destruct (SGDOptimizer64.Nesterov o); rewrite Hupd; reflexivity. }
    cbn [fst snd]. rewrite !length_insert.
    split; [exact Hl1 | split; [exact Hl2 |]].
    split.
    + intros i g' Hi Hg'. destruct (decide (i = k)) as [-> | Hne].
      * rewrite Hg in Hg'. injection Hg' as <-. exists v, p.
        split; [exact Hv | split; [exact Hp |]].
        split; apply list_lookup_insert_eq; lia.
      * destruct (Hdone i g') as (v' & p' & Hv' & Hp' & H1 & H2);
          [lia | exact Hg' |].
        exists v', p'. split; [exact Hv' | split; [exact Hp' |]].
        split; rewrite list_lookup_insert_ne by congruence; assumption.
    + intros i Hi. destruct (Hrest i) as [H1 H2]; [lia |].
      split; rewrite list_lookup_insert_ne by lia; assumption.
  - cbn [fst snd] in *. exists vel, P. rewrite Hrun. cbn [bind].
    split; [reflexivity | split; [exact Hl1 | split; [exact Hl2 |]]].
    split.
    + intros i g Hg. apply (Hdone i g); [| exact Hg].
      eapply lookup_lt_Some. exact Hg.
    + exact Hrest.
Qed.

Lemma sgd_step_witness :
  exists vel Params',
    SGDOptimizer64.updateParams
      (SGDOptimizer64.mkOpt 1 0.5 0.5 "constant" 0.5 true None)
      [2; 4]%float [1; 1; 1]%float
    = Ok (SGDOptimizer64.set_velocities
            (SGDOptimizer64.mkOpt 1 0.5 0.5 "constant" 0.5 true None) vel,
          Params') /\
    vel = [-1; -2]%float /\ Params' = [-0.5; -2; 1]%float.
Proof.
  destruct (sgd_step_is_elementwise
              (SGDOptimizer64.mkOpt 1 0.5 0.5 "constant" 0.5 true None)
              [2; 4]%float [1; 1; 1]%float (make 2) eq_refl)
    as (vel & Params' & Hrun & _); [simpl; lia | simpl; lia |].
  vm_compute in Hrun. injection Hrun as <- <-.
  eexists _, _. split; [vm_compute; reflexivity | split; reflexivity].
Defined.

(** ** One step of Adam *)

(** X11: one step of Adam, for gradients no longer than the parameters and
    the moments (which start at zero, and the two products at 1, when [t]
    is 0).  The moments of entry [i] become
    [Beta1 * m + (1 - Beta1) * g] and [Beta2 * v + (1 - Beta2) * g * g];
    parameter [i] moves by [- rate * m' / (Sqrt v' + Epsilon)], the rate
    being [LearningRateInit * Sqrt (1 - b2) / (1 - b1)] with the two
    products multiplied [i + 1] times by [Beta2] and [Beta1] since the
    step began; [t] grows by one, and the parameters past the gradients
    are left alone. *)
Theorem adam_step_is_elementwise (o : AdamOptimizer64.opt)
    (grads Params ms0 vs0 : list float) (b1 b2 : float) :
  let first := (AdamOptimizer64.t o =? 0)%float in
  ms0 = (if first then make (length grads) else AdamOptimizer64.ms o) ->
  vs0 = (if first then make (length grads) else AdamOptimizer64.vs o) ->
  b1 = (if first then 1%float else AdamOptimizer64.beta1t o) ->
  b2 = (if first then 1%float else AdamOptimizer64.beta2t o) ->
  length grads <= length ms0 -> length grads <= length vs0 ->
  length grads <= length Params ->
  exists o' Params',
    AdamOptimizer64.updateParams o grads Params = Ok (o', Params') /\
    AdamOptimizer64.t o' = (AdamOptimizer64.t o + 1)%float /\
    length Params' = length Params /\
    (forall i g, grads !! i = Some g ->
       exists m v p,
         ms0 !! i = Some m /\ vs0 !! i = Some v /\ Params !! i = Some p /\
         let m' := (AdamOptimizer64.Beta1 o * m
                    + (1 - AdamOptimizer64.Beta1 o) * g)%float in
         let v' := (AdamOptimizer64.Beta2 o * v
                    + (1 - AdamOptimizer64.Beta2 o) * g * g)%float in
         let rate :=
           (AdamOptimizer64.LearningRateInit o
            * F64.Sqrt (1 - Nat.iter (S i)
                               (fun p => p * AdamOptimizer64.Beta2 o) b2)
            / (1 - Nat.iter (S i)
                     (fun p => p * AdamOptimizer64.Beta1 o) b1))%float in
         AdamOptimizer64.ms o' !! i = Some m' /\
         AdamOptimizer64.vs o' !! i = Some v' /\
         Params' !! i
         = Some (p + - rate * m' / (F64.Sqrt v' + AdamOptimizer64.Epsilon o))%float) /\
    (forall i, length grads <= i -> Params' !! i = Params !! i).
Proof.
  intros first Hms Hvs Hb1 Hb2 Hlm Hlv Hlp.
  unfold AdamOptimizer64.updateParams. fold first.
  rewrite <- Hms, <- Hvs, <- Hb1, <- Hb2.
  match goal with |- context [for_range ?n ?body ?s] =>
    destruct (for_range_inv
      (fun k (u : AdamOptimizer64.loop_state) =>
         length (AdamOptimizer64.l_ms u) = length ms0 /\
         length (AdamOptimizer64.l_vs u) = length vs0 /\
         length (AdamOptimizer64.l_Params u) = length Params /\
         AdamOptimizer64.l_beta1t u
         = Nat.iter k (fun p => p * AdamOptimizer64.Beta1 o)%float b1 /\
         AdamOptimizer64.l_beta2t u
         = Nat.iter k (fun p => p * AdamOptimizer64.Beta2 o)%float b2 /\
         (forall i g, i < k -> grads !! i = Some g ->
            exists m v p,
              ms0 !! i = Some m /\ vs0 !! i = Some v /\
              Params !! i = Some p /\
              AdamOptimizer64.l_ms u !! i
              = Some (AdamOptimizer64.Beta1 o * m
                      + (1 - AdamOptimizer64.Beta1 o) * g)%float /\
              AdamOptimizer64.l_vs u !! i
              = Some (AdamOptimizer64.Beta2 o * v
                      + (1 - AdamOptimizer64.Beta2 o) * g * g)%float /\
              AdamOptimizer64.l_Params u !! i
              = Some (p + - (AdamOptimizer64.LearningRateInit o
                             * F64.Sqrt
                                 (1 - Nat.iter (S i)
                                        (fun p => p * AdamOptimizer64.Beta2 o)
                                        b2)
                             / (1 - Nat.iter (S i)
                                      (fun p => p * AdamOptimizer64.Beta1 o)
                                      b1))
                          * (AdamOptimizer64.Beta1 o * m
                             + (1 - AdamOptimizer64.Beta1 o) * g)
                          / (F64.Sqrt (AdamOptimizer64.Beta2 o * v
                                       + (1 - AdamOptimizer64.Beta2 o) * g * g)
                             + AdamOptimizer64.Epsilon o))%float) /\
         (forall i, k <= i ->
            AdamOptimizer64.l_ms u !! i = ms0 !! i /\
            AdamOptimizer64.l_vs u !! i = vs0 !! i /\
            AdamOptimizer64.l_Params u !! i = Params !! i))
      body n s) as (s' & Hrun & _ & _ & Hl3 & _ & _ & Hdone & Hrest)
  end.
  - simpl. repeat split; try reflexivity. intros i g Hi. lia.
  - intros k s Hk (Hl1 & Hl2 & Hl3 & Hp1 & Hp2 & Hdone & Hrest).
    destruct (lookup_lt_is_Some_2 grads k Hk) as (g & Hg).
    destruct (lookup_lt_is_Some_2 ms0 k) as (m & Hm); [lia |].
    destruct (lookup_lt_is_Some_2 vs0 k) as (v & Hv); [lia |].
    destruct (lookup_lt_is_Some_2 Params k) as (p & Hp); [lia |].
    destruct (Hrest k ltac:(lia)) as (Hmk & Hvk & Hpk).
    rewrite Hm in Hmk. rewrite Hv in Hvk. rewrite Hp in Hpk.
    rewrite (proj2 (load_Ok _ _ _) Hg). cbn [bind].
    unfold AdamOptimizer64.update_one.
    rewrite (proj2 (load_Ok _ _ _) Hmk). cbn [bind].
    rewrite store_Ok by lia. cbn [bind].
    rewrite (proj2 (load_Ok _ _ _) Hvk). cbn [bind].
    rewrite store_Ok by lia. cbn [bind].
    unfold load at 1. rewrite list_lookup_insert_eq by lia. cbn [bind].
    unfold load at 1. rewrite list_lookup_insert_eq by lia. cbn [bind].
    rewrite (update_at_Ok _ _ _ p Hpk). cbn [bind].
    eexists. split; [reflexivity |].
    cbn [AdamOptimizer64.l_ms AdamOptimizer64.l_vs AdamOptimizer64.l_Params
         AdamOptimizer64.l_beta1t AdamOptimizer64.l_beta2t].
    rewrite !length_insert, Hp1, Hp2.
    split; [exact Hl1 | split; [exact Hl2 | split; [exact Hl3 |]]].
    split; [reflexivity | split; [reflexivity |]].
    split.
    + intros i g' Hi Hg'. destruct (decide (i = k)) as [-> | Hne].
      * rewrite Hg in Hg'. injection Hg' as <-. exists m, v, p.
        split; [exact Hm | split; [exact Hv | split; [exact Hp |]]].
        repeat split; apply list_lookup_insert_eq; lia.
      * destruct (Hdone i g') as (m' & v' & p' & Hm' & Hv' & Hp' & H1 & H2 & H3);
          [lia | exact Hg' |].
        exists m', v', p'.
        split; [exact Hm' | split; [exact Hv' | split; [exact Hp' |]]].
        repeat split; rewrite list_lookup_insert_ne by congruence; assumption.
    + intros i Hi. destruct (Hrest i) as (H1 & H2 & H3); [lia |].
      repeat split; rewrite list_lookup_insert_ne by lia; assumption.
  - eexists _, (AdamOptimizer64.l_Params s'). rewrite Hrun. cbn [bind].
    split; [reflexivity | split; [reflexivity | split; [exact Hl3 |]]].
    split.
    + intros i g Hg.
      destruct (Hdone i g) as (m & v & p & Hm & Hv & Hp & H1 & H2 & H3);
        [eapply lookup_lt_Some; exact Hg | exact Hg |].
      exists m, v, p. cbn zeta.
      repeat split; assumption.
    + intros i Hi. apply Hrest. exact Hi.
Qed.

(** ** The order of float64 *)

Ltac compare_cases :=
  repeat match goal with
         | H : context [(?a ?= ?b)%Z] |- _ =>
             destruct (Z.compare_spec a b); simpl in H; try discriminate
         | |- context [(?a ?= ?b)%Z] =>
             destruct (Z.compare_spec a b); simpl; try lia
         | H : context [Pos.compare_cont Eq ?a ?b] |- _ =>
             change (Pos.compare_cont Eq a b) with (Pos.compare a b) in H;
             destruct (Pos.compare_spec a b); simpl in H; try discriminate
         | |- context [Pos.compare_cont Eq ?a ?b] =>
             change (Pos.compare_cont Eq a b) with (Pos.compare a b);
             destruct (Pos.compare_spec a b); simpl; try lia
         end.

Lemma SFcompare_Lt_trans (x y z : spec_float) :
  SFcompare x y = Some Lt -> SFcompare y z = Some Lt ->
  SFcompare x z = Some Lt.
Proof.
  destruct x as [sx | sx | | sx mx ex], y as [sy | sy | | sy my ey],
    z as [sz | sz | | sz mz ez]; simpl; intros Hxy Hyz;
    try discriminate; try reflexivity;
    repeat match goal with s : bool |- _ => destruct s end;
    simpl in *; try discriminate; try reflexivity;
    compare_cases; subst; try reflexivity; try lia.
Qed.

Lemma float_ltb_trans (x y z : float) :
  (x <? y)%float = true -> (y <? z)%float = true -> (x <? z)%float = true.
Proof.
  rewrite !FloatAxioms.ltb_spec. unfold SFltb.
  destruct (SFcompare (Prim2SF x) (Prim2SF y)) as [[]|] eqn:Hxy;
    try discriminate.
  destruct (SFcompare (Prim2SF y) (Prim2SF z)) as [[]|] eqn:Hyz;
    try discriminate.
  rewrite (SFcompare_Lt_trans _ _ _ Hxy Hyz). reflexivity.
Qed.

Lemma float_ltb_irrefl (x : float) : (x <? x)%float = false.
Proof.
  destruct (x <? x)%float eqn:H; [| reflexivity].
  pose proof (float_ltb_asym x x H). congruence.
Qed.

(** ** The counters of a fit *)

Section StoppingFrame.
Context {A : Type} (f : BaseMultilayerPerceptron64 -> A).
Hypothesis f_optimizer : forall m v, f (set_optimizer m v) = f m.
Hypothesis f_NoImprovementCount :
  forall m v, f (set_NoImprovementCount m v) = f m.

Lemma check_stopping_frame (mlp mlp' : BaseMultilayerPerceptron64)
    (earlyStopping stop : bool) :
  check_stopping mlp earlyStopping = Ok (mlp', stop) -> f mlp' = f mlp.
Proof using f_optimizer f_NoImprovementCount.
  unfold check_stopping. intros Hrun.
  destruct (NIterNoChange mlp <? Z.of_nat (NoImprovementCount mlp))%Z.
  - apply bind_Ok in Hrun as (o & _ & Hrun).
    destruct (triggerStopping o _ (Verbose mlp)) as [isStopping o'].
    destruct isStopping; injection Hrun as <- _;
      rewrite ?f_NoImprovementCount, ?f_optimizer; reflexivity.
  - injection Hrun as <- _. reflexivity.
Qed.
End StoppingFrame.

Lemma updateNoImprovementCount_BestLoss (M64 : Externals)
    (mlp mlp' : BaseMultilayerPerceptron64) (earlyStopping : bool)
    (XVal yVal : blas64General) (dXVal : list float) :
  updateNoImprovementCount M64 mlp earlyStopping XVal yVal
  = Ok (mlp', dXVal) ->
  exists lastLoss,
    last (LossCurve mlp) = Some lastLoss /\
    BestLoss mlp'
    = if (lastLoss <? BestLoss mlp)%float then lastLoss else BestLoss mlp.
Proof.
  unfold updateNoImprovementCount. intros Hrun.
  apply bind_Ok in Hrun as ([m1 d1] & H1 & Hrun).
  apply bind_Ok in Hrun as (lastLoss & Hlast & Hrun).
  assert (LossCurve m1 = LossCurve mlp /\ BestLoss m1 = BestLoss mlp)
    as [HL HB].
  { destruct earlyStopping.
    - apply bind_Ok in H1 as ([sc dX] & _ & H1).
      break_ifs H1; injection H1 as <- _; split; reflexivity.
    - injection H1 as <- _. split; reflexivity. }
  apply load_Ok in Hlast. rewrite HL in Hlast.
  exists lastLoss. split.
  { rewrite last_lookup. rewrite <- Hlast. f_equal. lia. }
  injection Hrun as <- _. rewrite <- HB.
  destruct (negb earlyStopping);
    [destruct (F64.gtb lastLoss (BestLoss m1 - Tol m1)) |];
    cbn [BestLoss set_NoImprovementCount];
    destruct (lastLoss <? BestLoss m1)%float; reflexivity.
Qed.

(** What one epoch does to the counters. *)
Lemma epoch_counts (M64 : Externals) (rnd : RandomState)
    (earlyStopping incremental stop : bool) (nSamples testSize it : nat)
    (u u' : fit_state) :
  epoch M64 rnd earlyStopping incremental nSamples testSize it u
  = Ok (u', stop) ->
  NIter (f_mlp u') = S (NIter (f_mlp u)) /\
  t (f_mlp u') = t (f_mlp u) + nSamples /\
  LossCurve (f_mlp u') = LossCurve (f_mlp u) ++ [Loss (f_mlp u')] /\
  BestLoss (f_mlp u')
  = (if (Loss (f_mlp u') <? BestLoss (f_mlp u))%float then Loss (f_mlp u')
     else BestLoss (f_mlp u)) /\
  (incremental = true -> stop = true).
Proof.
  unfold epoch. intros Hrun.
  apply bind_Ok in Hrun as (data & _ & Hrun).
  apply bind_Ok in Hrun as ([acc st1] & Hsweep & Hrun).
  apply bind_Ok in Hrun as (XVal & _ & Hrun).
  apply bind_Ok in Hrun as (yVal & _ & Hrun).
  apply bind_Ok in Hrun as ([mlp1 dXVal] & Hupd & Hrun).
  apply bind_Ok in Hrun as (o & _ & Hrun).
  apply bind_Ok in Hrun as ([mlp2 stop'] & Hcheck & Hrun).
  injection Hrun as <- <-. cbn [f_mlp].
  pose proof (fun A (f : BaseMultilayerPerceptron64 -> A) H1 H2 H3 =>
                minibatch_sweep_frame f H1 H2 H3 _ _ _ _ _ _ Hsweep) as Hsw.
  cbn [f_mlp] in Hsw.
  pose proof (fun A (f : BaseMultilayerPerceptron64 -> A) H1 H2 H3 H4 H5 =>
                updateNoImprovementCount_frame f H1 H2 H3 H4 H5
                  _ _ _ _ _ _ _ Hupd) as Hup.
  pose proof (fun A (f : BaseMultilayerPerceptron64 -> A) H1 H2 =>
                check_stopping_frame f H1 H2 _ _ _ _ Hcheck) as Hch.
  apply updateNoImprovementCount_BestLoss in Hupd
    as (lastLoss & Hlast & HBest).
  cbn [LossCurve BestLoss set_LossCurve set_t set_Loss set_NIter] in Hlast,
    HBest.
  rewrite last_snoc in Hlast. injection Hlast as <-.
  cbn [Loss set_t set_Loss set_NIter] in HBest.
  assert (Loss mlp2 = (acc / F64.of_nat nSamples)%float) as HLoss.
  { rewrite (Hch _ Loss) by reflexivity. cbn [Loss set_optimizer].
    rewrite (Hup _ Loss) by reflexivity. reflexivity. }
  rewrite HLoss.
  split.
  { rewrite (Hch _ NIter) by reflexivity. cbn [NIter set_optimizer].
    rewrite (Hup _ NIter) by reflexivity. cbn.
    rewrite (Hsw _ NIter) by reflexivity. lia. }
  split.
  { rewrite (Hch _ t) by reflexivity. cbn [t set_optimizer].
    rewrite (Hup _ t) by reflexivity. cbn.
    rewrite (Hsw _ t) by reflexivity. reflexivity. }
  split.
  { rewrite (Hch _ LossCurve) by reflexivity. cbn [LossCurve set_optimizer].
    rewrite (Hup _ LossCurve) by reflexivity. cbn.
    rewrite (Hsw _ LossCurve) by reflexivity. reflexivity. }
  split.
  { rewrite (Hch _ BestLoss) by reflexivity. cbn [BestLoss set_optimizer].
    rewrite HBest. rewrite (Hsw _ BestLoss) by reflexivity. reflexivity. }
  intros ->. apply orb_true_r.
Qed.

Lemma for_break_counted {St : Type} (Q : nat -> St -> Prop)
    (body : nat -> St -> result (St * bool)) (once : bool)
    (start count : nat) (s s' : St) :
  (forall i k u u' stop, Q k u -> body i u = Ok (u', stop) ->
     Q (S k) u' /\ (once = true -> stop = true)) ->
  Q 0 s -> for_break body start count s = Ok s' ->
  exists k, k <= count /\ (once = true -> k <= 1) /\ Q k s'.
Proof.
  intros Hbody. revert start s Q Hbody.
  induction count as [|c IH]; intros start s Q Hbody Hs Hrun.
  - simpl in Hrun. injection Hrun as <-. exists 0.
    split; [lia | split; [lia | exact Hs]].
  - simpl in Hrun. apply bind_Ok in Hrun as ([u stop] & Hstep & Hrun).
    destruct (Hbody _ _ _ _ _ Hs Hstep) as [Hu Honce]. destruct stop.
    + injection Hrun as <-. exists 1.
      split; [lia | split; [lia | exact Hu]].
    + destruct (IH (S start) u (fun k => Q (S k))) as (k & Hk & _ & Hq).
      * intros i k v v' stop Hv Hb. apply (Hbody i (S k) v v' stop Hv Hb).
      * exact Hu.
      * exact Hrun.
      * exists (S k). split; [lia | split; [| exact Hq]].
        intros Ho. specialize (Honce Ho). discriminate.
Qed.

(** The state of the counters after [k] epochs of a fit that started with
    the perceptron [m0] on [n] rows. *)
Lemma fit_loop_counts (M64 : Externals) (rnd : RandomState)
    (earlyStopping incremental : bool) (n testSize count : nat)
    (first st1 : fit_state) :
  for_break (epoch M64 rnd earlyStopping incremental n testSize) 0 count first
  = Ok st1 ->
  exists losses,
    length losses <= count /\ (incremental = true -> length losses <= 1) /\
    NIter (f_mlp st1) = NIter (f_mlp first) + length losses /\
    t (f_mlp st1) = t (f_mlp first) + length losses * n /\
    LossCurve (f_mlp st1) = LossCurve (f_mlp first) ++ losses /\
    (losses <> [] -> last losses = Some (Loss (f_mlp st1))) /\
    (forall l, l ∈ losses -> (l <? BestLoss (f_mlp st1))%float = false) /\
    (BestLoss (f_mlp first) <? BestLoss (f_mlp st1))%float = false.
Proof.
  intros Hloop.
  apply (for_break_counted
           (fun k u => exists losses,
              length losses = k /\
              NIter (f_mlp u) = NIter (f_mlp first) + k /\
              t (f_mlp u) = t (f_mlp first) + k * n /\
              LossCurve (f_mlp u) = LossCurve (f_mlp first) ++ losses /\
              (losses <> [] -> last losses = Some (Loss (f_mlp u))) /\
              (forall l, l ∈ losses ->
                 (l <? BestLoss (f_mlp u))%float = false) /\
              (BestLoss (f_mlp first) <? BestLoss (f_mlp u))%float = false)
           _ incremental) in Hloop.
  - destruct Hloop as (k & Hk & Honce & losses & Hlen & H1 & H2 & H3 & H4 & H5).
    exists losses. rewrite Hlen.
    repeat split; try assumption; apply H5.
  - intros i k u u' stop (losses & Hlen & HI & Ht & HL & Hlast & Hlow & Hbest)
      Hstep.
    apply epoch_counts in Hstep as (HI' & Ht' & HL' & HB' & Honce).
    split; [| exact Honce].
    exists (losses ++ [Loss (f_mlp u')]).
    split; [rewrite length_app; simpl; lia |].
    split; [lia | split; [lia |]].
    split; [rewrite HL', HL, app_assoc; reflexivity |].
    split; [intros _; apply last_snoc |].
    assert (forall l, (l <? BestLoss (f_mlp u))%float = false ->
              (l <? BestLoss (f_mlp u'))%float = false) as Hkeep.
    { intros l Hl. rewrite HB'.
      destruct (Loss (f_mlp u') <? BestLoss (f_mlp u))%float eqn:Hlt;
        [| exact Hl].
      destruct (l <? Loss (f_mlp u'))%float eqn:Hll; [| reflexivity].
      rewrite (float_ltb_trans _ _ _ Hll Hlt) in Hl. discriminate. }
    split; [| apply Hkeep; exact Hbest].
    intros l Hl. apply elem_of_app in Hl as [Hl | Hl].
    + apply Hkeep, Hlow, Hl.
    + apply list_elem_of_singleton in Hl as ->. rewrite HB'.
      destruct (Loss (f_mlp u') <? BestLoss (f_mlp u))%float eqn:Hlt;
        [apply float_ltb_irrefl | exact Hlt].
  - exists []. simpl. rewrite app_nil_r.
    repeat split; try reflexivity; try lia.
    + intros H. congruence.
    + intros l Hl. inversion Hl.
    + apply float_ltb_irrefl.
Qed.

Lemma fitStochastic_loop (M64 : Externals) (rnd : RandomState)
    (mlp : BaseMultilayerPerceptron64) (X y : blas64General) (b : Buffers)
    (incremental : bool) (st : fit_state) :
  fitStochastic M64 rnd mlp X y b incremental = Ok st ->
  exists earlyStopping testSize first st1,
    for_break (epoch M64 rnd earlyStopping incremental (Rows X) testSize)
      0 (Z.to_nat (MaxIter mlp)) first = Ok st1 /\
    NIter (f_mlp first) = NIter mlp /\ t (f_mlp first) = t mlp /\
    LossCurve (f_mlp first) = LossCurve mlp /\
    BestLoss (f_mlp first) = BestLoss mlp /\
    NIter (f_mlp st) = NIter (f_mlp st1) /\ t (f_mlp st) = t (f_mlp st1) /\
    LossCurve (f_mlp st) = LossCurve (f_mlp st1) /\
    BestLoss (f_mlp st) = BestLoss (f_mlp st1) /\
    Loss (f_mlp st) = Loss (f_mlp st1).
Proof.
  unfold fitStochastic. intros Hrun.
  set (mlp0 := if negb incremental
                  || negb (bool_decide (is_Some (optimizer mlp)))
               then set_optimizer mlp (new_optimizer mlp) else mlp) in Hrun.
  assert (NIter mlp0 = NIter mlp /\ t mlp0 = t mlp /\
          LossCurve mlp0 = LossCurve mlp /\ BestLoss mlp0 = BestLoss mlp /\
          MaxIter mlp0 = MaxIter mlp) as (H1 & H2 & H3 & H4 & H5).
  { unfold mlp0. destruct (_ || _); repeat split. }
  apply bind_Ok in Hrun as ([testSize mlp1] & Hsize & Hrun).
  assert (NIter mlp1 = NIter mlp /\ t mlp1 = t mlp /\
          LossCurve mlp1 = LossCurve mlp /\ BestLoss mlp1 = BestLoss mlp /\
          MaxIter mlp1 = MaxIter mlp) as (G1 & G2 & G3 & G4 & G5).
  { break_ifs Hsize; try discriminate; injection Hsize as _ <-;
      repeat split; assumption. }
  apply bind_Ok in Hrun as (st1 & Hloop & Hrun).
  apply bind_Ok in Hrun as (data & _ & Hrun). injection Hrun as <-.
  rewrite G5 in Hloop.
  eexists _, testSize, _, st1. split; [exact Hloop |].
  cbn [f_mlp]. do 4 (split; [assumption |]).
  destruct (EarlyStopping mlp0 && negb incremental); repeat split.
Qed.

(** X12: a fit that returns has run at most [MaxIter] epochs, at most one
    when it is incremental.  Every epoch raised [NIter] by one and [t] by
    the number of rows and appended its loss to [LossCurve]; [Loss] is the
    last of them. *)
Theorem fit_records_one_loss_per_epoch (M64 : Externals) (rnd : RandomState)
    (mlp : BaseMultilayerPerceptron64) (X y : blas64General) (b : Buffers)
    (incremental : bool) (st : fit_state) :
  fitStochastic M64 rnd mlp X y b incremental = Ok st ->
  exists losses,
    length losses <= Z.to_nat (MaxIter mlp) /\
    (incremental = true -> length losses <= 1) /\
    NIter (f_mlp st) = NIter mlp + length losses /\
    t (f_mlp st) = t mlp + length losses * Rows X /\
    LossCurve (f_mlp st) = LossCurve mlp ++ losses /\
    (losses <> [] -> last losses = Some (Loss (f_mlp st))).
Proof.
  intros Hrun. apply fitStochastic_loop in Hrun
    as (es & testSize & first & st1 & Hloop & H1 & H2 & H3 & H4
        & G1 & G2 & G3 & G4 & G5).
  apply fit_loop_counts in Hloop
    as (losses & Hlen & Honce & HI & Ht & HL & Hlast & _).
  exists losses. rewrite G1, G2, G3, G5, <- H1, <- H2, <- H3.
  repeat split; assumption.
Qed.

(** X13: [BestLoss] after a fit that returns is not above any loss the
    fit recorded, and not above what it was before the fit. *)
Theorem fit_keeps_BestLoss_below_the_recorded_losses (M64 : Externals)
    (rnd : RandomState) (mlp : BaseMultilayerPerceptron64)
    (X y : blas64General) (b : Buffers) (incremental : bool)
    (st : fit_state) :
  fitStochastic M64 rnd mlp X y b incremental = Ok st ->
  exists losses,
    LossCurve (f_mlp st) = LossCurve mlp ++ losses /\
    (forall l, l ∈ losses -> (l <? BestLoss (f_mlp st))%float = false) /\
    (BestLoss mlp <? BestLoss (f_mlp st))%float = false.
Proof.
  intros Hrun. apply fitStochastic_loop in Hrun
    as (es & testSize & first & st1 & Hloop & H1 & H2 & H3 & H4
        & G1 & G2 & G3 & G4 & G5).
  apply fit_loop_counts in Hloop
    as (losses & _ & _ & _ & _ & HL & _ & Hlow & Hbest).
  exists losses. rewrite G3, G4, <- H3, <- H4.
  repeat split; assumption.
Qed.

Lemma SFcompare_Lt_Eq_trans (x y z : spec_float) :
  SFcompare x y = Some Lt -> SFcompare y z = Some Eq ->
  SFcompare x z = Some Lt.
Proof.
  destruct x as [sx | sx | | sx mx ex], y as [sy | sy | | sy my ey],
    z as [sz | sz | | sz mz ez]; simpl; intros Hxy Hyz;
    try discriminate; try reflexivity;
    repeat match goal with s : bool |- _ => destruct s end;
    simpl in *; try discriminate; try reflexivity;
    compare_cases; subst; try reflexivity; try lia.
Qed.

Lemma number_Prim2SF (x : float) :
  F64.IsNaN x = false -> Prim2SF x <> S754_nan.
Proof.
  unfold F64.IsNaN, PrimFloat.is_nan. rewrite FloatAxioms.eqb_spec.
  unfold SFeqb. intros Hx Hn. rewrite Hn in Hx. discriminate.
Qed.

Lemma SFcompare_total (x y : spec_float) :
  x <> S754_nan -> y <> S754_nan -> exists c, SFcompare x y = Some c.
Proof.
  destruct x as [sx | sx | | sx mx ex], y as [sy | sy | | sy my ey];
    intros Hx Hy; try congruence; simpl; eexists; reflexivity.
Qed.

(** Among numbers, what is not above is below or equal. *)
Lemma float_lt_le_trans (x y z : float) :
  (x <? y)%float = true -> not_above y z -> F64.IsNaN z = false ->
  (x <? z)%float = true.
Proof.
  unfold not_above. rewrite !FloatAxioms.ltb_spec. unfold SFltb.
  intros Hxy Hzy Hz.
  destruct (SFcompare (Prim2SF x) (Prim2SF y)) as [[]|] eqn:Hc;
    try discriminate.
  assert (Prim2SF y <> S754_nan) as Hy.
  { intros Hn. rewrite Hn, SFcompare_nan_r in Hc. discriminate. }
  destruct (SFcompare_total _ _ Hy (number_Prim2SF z Hz)) as (c & Hyz).
  rewrite (SFcompare_antisym (Prim2SF y) (Prim2SF z)), Hyz in Hzy.
  destruct c; simpl in Hzy; try discriminate.
  - rewrite (SFcompare_Lt_Eq_trans _ _ _ Hc Hyz). reflexivity.
  - rewrite (SFcompare_Lt_trans _ _ _ Hc Hyz). reflexivity.
Qed.

Lemma float_total (x y : float) :
  F64.IsNaN x = false -> F64.IsNaN y = false ->
  not_above x y -> (x =? y)%float = false -> (x <? y)%float = true.
Proof.
  unfold not_above.
  rewrite !FloatAxioms.ltb_spec, FloatAxioms.eqb_spec.
  unfold SFltb, SFeqb. intros Hx Hy Hyx Heq.
  destruct (SFcompare_total _ _ (number_Prim2SF x Hx) (number_Prim2SF y Hy))
    as (c & Hc).
  rewrite (SFcompare_antisym (Prim2SF x) (Prim2SF y)), Hc in Hyx.
  rewrite Hc in *. destruct c; simpl in *; congruence.
Qed.

(** ** Sorting the classes *)

Lemma Float64Slice_Less_inv (p : list float) (i j : nat) (lt : bool) :
  numbers p -> Float64Slice_Less p i j = Ok lt ->
  exists x y, p !! i = Some x /\ p !! j = Some y /\ lt = (x <? y)%float /\
              F64.IsNaN x = false /\ F64.IsNaN y = false.
Proof.
  unfold Float64Slice_Less, numbers. rewrite Forall_lookup. intros Hp Hrun.
  apply bind_Ok in Hrun as (x & Hx & Hrun).
  apply bind_Ok in Hrun as (y & Hy & Hrun).
  injection Hrun as <-. apply load_Ok in Hx, Hy.
  exists x, y. rewrite (Hp i x Hx), (Hp j y Hy).
  rewrite orb_false_r. repeat split; assumption.
Qed.

Lemma sift_ascends (i j : nat) (s s' : list float) :
  j <= i -> numbers s ->
  sift Float64Slice_Less swap_entries j s = Ok s' ->
  insert_ready_by not_above i j s -> ordered_by not_above i s'.
Proof.
  revert s. induction j as [|j IH]; intros s Hji Hnum Hrun [Hrest Hat].
  - simpl in Hrun. injection Hrun as <-.
    intros a b x y Hab Hb Ha Hb'.
    destruct (decide (a = 0)) as [-> | Ha0].
    + eapply Hat; [exact Hab | exact Hb | exact Ha | exact Hb'].
    + eapply (Hrest a b); [lia.. | exact Ha | exact Hb'].
  - simpl in Hrun. apply bind_Ok in Hrun as (lt & Hless & Hrun).
    apply Float64Slice_Less_inv in Hless
      as (x & y & Hx & Hy & -> & Hnx & Hny); [| exact Hnum].
    destruct (x <? y)%float eqn:Hlt.
    + apply bind_Ok in Hrun as (s1 & Hswap & Hrun).
      apply swap_entries_inv in Hswap as (vi & vj & Hvi & Hvj & ->).
      assert (vi = x) as -> by congruence.
      assert (vj = y) as -> by congruence.
      apply (IH _ ltac:(lia)) in Hrun; [exact Hrun | |].
      { unfold numbers. rewrite (swapped_Permutation s (S j) j x y Hx Hy).
        exact Hnum. }
      split.
      * intros a b xa xb Hab Hb Haj Hbj Ha Hb'.
        rewrite lookup_swapped in Ha, Hb' by assumption.
        rewrite decide_False in Ha by exact Haj.
        rewrite decide_False in Hb' by exact Hbj.
        destruct (decide (a = S j)) as [-> | Ha'];
          destruct (decide (b = S j)) as [-> | Hb'']; simpl in *.
        -- lia.
        -- injection Ha as <-.
           eapply (Hrest j b); [lia.. | exact Hy | exact Hb'].
        -- injection Hb' as <-.
           eapply (Hrest a j); [lia.. | exact Ha | exact Hy].
        -- eapply (Hrest a b); [lia.. | exact Ha | exact Hb'].
      * intros b xa xb Hjb Hb Ha Hb'.
        rewrite lookup_swapped in Ha, Hb' by assumption.
        rewrite decide_True in Ha by reflexivity. injection Ha as <-.
        rewrite decide_False in Hb' by lia.
        destruct (decide (b = S j)) as [-> | Hb'']; simpl in *.
        -- injection Hb' as <-. apply float_ltb_asym. exact Hlt.
        -- eapply (Hat b); [lia | lia | exact Hx | exact Hb'].
    + injection Hrun as <-.
      intros a b xa xb Hab Hb Ha Hb'.
      destruct (decide (b = S j)) as [-> | Hbj].
      * assert (xb = x) as -> by congruence.
        destruct (decide (a = j)) as [-> | Haj].
        -- assert (xa = y) as -> by congruence. exact Hlt.
        -- assert (not_above xa y) as Hay.
           { eapply (Hrest a j); [lia.. | exact Ha | exact Hy]. }
           unfold not_above. destruct (x <? xa)%float eqn:Hxa; [| reflexivity].
           rewrite (float_lt_le_trans x xa y Hxa Hay Hny) in Hlt.
           discriminate.
      * destruct (decide (a = S j)) as [-> | Haj].
        -- eapply (Hat b); [lia | lia | exact Ha | exact Hb'].
        -- eapply (Hrest a b); [lia.. | exact Ha | exact Hb'].
Qed.

Lemma sort_Sort_ascends (n : nat) (s s' : list float) :
  numbers s ->
  sort_Sort Float64Slice_Less swap_entries n s = Ok s' ->
  ordered_by not_above (n - 1) s'.
Proof.
  unfold sort_Sort, insertionSort. intros Hnum Hrun.
  pose proof (for_loop_ok_inv
                (fun i u => numbers u /\ ordered_by not_above (i - 1) u)
                _ 1 (n - 1) s s' Hrun) as Hinv.
  assert (ordered_by not_above (1 + (n - 1) - 1) s') as Hord.
  { apply Hinv.
    - split; [exact Hnum |]. intros a b x y Hab Hb. lia.
    - intros i u u' Hi [Hnu Hu] Hbody. split.
      + apply (sift_preserves Float64Slice_Less swap_entries numbers)
          in Hbody; [exact Hbody | | exact Hnu].
        intros p a b p' Hswap Hp.
        apply swap_entries_inv in Hswap as (vi & vj & Hvi & Hvj & ->).
        unfold numbers. rewrite swapped_Permutation by eassumption. exact Hp.
      + replace (S i - 1) with i by lia.
        apply (sift_ascends i i u u'); [lia | exact Hnu | exact Hbody |].
        split.
        * intros a b x y Hab Hb Hai Hbi. apply Hu; lia.
        * intros b x y Hib Hb. lia. }
  replace (1 + (n - 1) - 1) with (n - 1) in Hord by lia. exact Hord.
Qed.

Lemma column_classes_values (Y : blas64General) (j : nat)
    (classes : list float) :
  LabelBinarizer64.column_classes Y j = Ok classes ->
  forall k, k ∈ classes ->
    exists i, i < Rows Y /\ Data Y !! (i * Stride Y + j) = Some k.
Proof.
  unfold LabelBinarizer64.column_classes. intros Hrun.
  apply bind_Ok in Hrun as ([cmap cl] & Hloop & Hrun). injection Hrun as <-.
  unfold for_range in Hloop.
  apply (for_loop_ok_inv
           (fun n (st : GoMap bool * list float) =>
              forall k, k ∈ st.2 ->
                exists i, i < n /\ Data Y !! (i * Stride Y + j) = Some k)
           _ _ _ _ _ Hloop).
  - intros k Hk. inversion Hk.
  - intros i [cm c0] [cm' c'] _ Hinv Hbody. cbn [snd] in *.
    apply bind_Ok in Hbody as (yval & Hy & Hbody). apply load_Ok in Hy.
    assert (forall k, k ∈ c0 ->
              exists i0, i0 < S i /\ Data Y !! (i0 * Stride Y + j) = Some k)
      as Hold.
    { intros k Hk. destruct (Hinv k Hk) as (i0 & Hi0 & Hv).
      exists i0. split; [lia | exact Hv]. }
    destruct (map_lookup cm yval); injection Hbody as _ <-; [exact Hold |].
    intros k Hk. apply elem_of_app in Hk as [Hk | Hk]; [auto |].
    apply list_elem_of_singleton in Hk as ->.
    exists i. split; [lia | exact Hy].
Qed.

(** X14: [Fit] on labels none of which is NaN registers, for every column,
    its classes in strictly ascending order: every label of the column is
    equal ([==]) to one of them, and each of them is a label of the
    column. *)
Theorem Fit_registers_the_classes_in_ascending_order
    (m : LabelBinarizer64.lb) (Y : blas64General) :
  (forall i j, i < Rows Y -> j < Cols Y -> exists v,
     Data Y !! (i * Stride Y + j) = Some v /\ F64.IsNaN v = false) ->
  exists m',
    LabelBinarizer64.Fit m Y = Ok m' /\
    length (LabelBinarizer64.Classes m') = Cols Y /\
    forall j, j < Cols Y -> exists classes,
      LabelBinarizer64.Classes m' !! j = Some classes /\
      (forall a b x y, a < b -> classes !! a = Some x ->
         classes !! b = Some y -> (x <? y)%float = true) /\
      (forall i, i < Rows Y -> exists v k,
         Data Y !! (i * Stride Y + j) = Some v /\ k ∈ classes /\
         (k =? v)%float = true) /\
      (forall k, k ∈ classes -> exists i,
         i < Rows Y /\ Data Y !! (i * Stride Y + j) = Some k).
Proof.
  intros HY. unfold LabelBinarizer64.Fit.
  match goal with |- context [for_range ?n ?body ?s] =>
    destruct (for_range_inv
      (fun j (Cl : list (list float)) =>
         length Cl = Cols Y /\
         forall j', j' < j -> exists classes,
           Cl !! j' = Some classes /\
           (forall a b x y, a < b -> classes !! a = Some x ->
              classes !! b = Some y -> (x <? y)%float = true) /\
           (forall i, i < Rows Y -> exists v k,
              Data Y !! (i * Stride Y + j') = Some v /\ k ∈ classes /\
              (k =? v)%float = true) /\
           (forall k, k ∈ classes -> exists i,
              i < Rows Y /\ Data Y !! (i * Stride Y + j') = Some k))
      body n s) as (Cl & Hrun & Hlen & Hcols)
  end.
  - split; [apply length_replicate |]. intros j' Hj'. lia.
  - intros j Cl Hj (Hlen & Hcols).
    destruct (column_classes_spec Y j) as (classes & Hcl & Hd & Hcov).
    { intros i Hi. apply HY; assumption. }
    pose proof (column_classes_values Y j classes Hcl) as Hval.
    destruct (sort_labels_total classes) as (sorted & Hsort & Hperm).
    rewrite Hcl. cbn [bind]. rewrite Hsort. cbn [bind].
    rewrite store_Ok by lia. eexists. split; [reflexivity |].
    split; [rewrite length_insert; exact Hlen |].
    intros j' Hj'. destruct (decide (j' = j)) as [-> | Hne].
    + exists sorted. split; [apply list_lookup_insert_eq; lia |].
      assert (numbers classes) as Hnum.
      { apply Forall_forall. intros k Hk.
        destruct (Hval k Hk) as (i & Hi & Hv).
        destruct (HY i j Hi Hj) as (v & Hv' & Hn). congruence. }
      assert (numbers sorted) as Hnums.
      { unfold numbers. rewrite Hperm. exact Hnum. }
      apply sort_Sort_ascends in Hsort; [| exact Hnum].
      pose proof (distinct_labels_Permutation _ _ Hperm Hd) as Hds.
      split; [| split].
      * intros a b x y Hab Ha Hb.
        unfold numbers in Hnums. rewrite Forall_lookup in Hnums.
        apply float_total; [eapply Hnums; exact Ha | eapply Hnums; exact Hb
                           | | apply (Hds a b); [lia | assumption..]].
        apply (Hsort a b); [exact Hab | | exact Ha | exact Hb].
        apply lookup_lt_Some in Hb.
        rewrite <- (Permutation_length Hperm). lia.
      * intros i Hi. destruct (Hcov i Hi) as (v & k & Hv & Hk & Hkv).
        exists v, k. rewrite Hperm. repeat split; assumption.
      * intros k Hk. apply Hval. rewrite <- Hperm. exact Hk.
    + destruct (Hcols j') as (classes' & Hc' & Hrest); [lia |].
      exists classes'. split; [| exact Hrest].
      rewrite list_lookup_insert_ne by congruence. exact Hc'.
  - eexists. rewrite Hrun. cbn [bind]. split; [reflexivity |].
    cbn [LabelBinarizer64.Classes]. split; [exact Hlen | exact Hcols].
Qed.

(** ** Shuffling samples *)

Lemma swap_entries_Ok {A} (p : list A) (i j : nat) :
  i < length p -> j < length p ->
  exists vi vj, p !! i = Some vi /\ p !! j = Some vj /\
                swap_entries p i j = Ok (<[j:=vi]> (<[i:=vj]> p)).
Proof.
  intros Hi Hj.
  destruct (lookup_lt_is_Some_2 p i Hi) as (vi & Hvi).
  destruct (lookup_lt_is_Some_2 p j Hj) as (vj & Hvj).
  exists vi, vj. split; [exact Hvi | split; [exact Hvj |]].
  unfold swap_entries.
  rewrite (proj2 (load_Ok _ _ _) Hvi), (proj2 (load_Ok _ _ _) Hvj).
  cbn [bind]. rewrite store_Ok by exact Hi. cbn [bind].
  apply store_Ok. rewrite length_insert. exact Hj.
Qed.

Lemma insert_zip {A B} (l : list A) (k : list B) (i : nat) (x : A) (y : B) :
  <[i:=(x, y)]> (zip l k) = zip (<[i:=x]> l) (<[i:=y]> k).
Proof.
  revert k i. induction l as [|a l IH]; intros k i; [reflexivity |].
  destruct k as [|b k]; [destruct i; reflexivity |].
  destruct i as [|i]; simpl; [reflexivity |]. f_equal. apply IH.
Qed.

(** X15: when [rand.Intn(n)] keeps below [n], [Shuffle] returns and has
    permuted the samples: with targets as many as the rows, the pairs of a
    row and its target are the pairs it was given, in another order;
    without targets the rows are. *)
Theorem base_Shuffle_keeps_rows_with_their_targets
    (Intn : nat -> nat -> nat) (X : list (list float)) (y : list float) :
  (forall k n, 0 < n -> Intn k n < n) ->
  (length y = length X ->
   exists X' y',
     base.Shuffle Intn X (Some y) = Ok (X', Some y') /\
     zip X' y' ≡ₚ zip X y /\
     length X' = length X /\ length y' = length y) /\
  exists X', base.Shuffle Intn X None = Ok (X', None) /\ X' ≡ₚ X.
Proof.
  intros HIntn. unfold base.Shuffle. split.
  - intros Hlen.
    match goal with |- context [for_range ?n ?body ?s] =>
      destruct (for_range_inv
        (fun (k : nat) (st : list (list float) * option (list float)) =>
           exists y', st.2 = Some y' /\ length st.1 = length X /\
                      length y' = length y /\ zip st.1 y' ≡ₚ zip X y)
        body n s) as ([X' oy] & Hrun & y' & Hy' & HlX & Hly & Hperm)
    end.
    + exists y. repeat split; reflexivity.
    + intros i [X1 oy] Hi (y1 & Hy1 & HlX & Hly & Hperm). cbn [fst snd] in *.
      subst oy.
      assert (i + Intn i (length X - i) < length X) as Hj.
      { specialize (HIntn i (length X - i)). lia. }
      destruct (swap_entries_Ok X1 i (i + Intn i (length X - i)))
        as (xi & xj & Hxi & Hxj & ->); [lia.. |].
      destruct (swap_entries_Ok y1 i (i + Intn i (length X - i)))
        as (yi & yj & Hyi & Hyj & ->); [lia.. |].
      cbn [bind]. eexists (_, _). split; [reflexivity |]. cbn [fst snd].
      eexists. split; [reflexivity |]. rewrite !length_insert.
      split; [exact HlX | split; [exact Hly |]].
      rewrite <- !insert_zip. etrans; [| exact Hperm].
      apply swapped_Permutation.
      * rewrite lookup_zip_with, Hxi, Hyi. reflexivity.
      * rewrite lookup_zip_with, Hxj, Hyj. reflexivity.
    + cbn [fst snd] in *. subst oy. exists X', y'.
      split; [exact Hrun | split; [exact Hperm | split; assumption]].
  - match goal with |- context [for_range ?n ?body ?s] =>
      destruct (for_range_inv
        (fun (k : nat) (st : list (list float) * option (list float)) =>
           st.2 = None /\ st.1 ≡ₚ X)
        body n s) as ([X' oy] & Hrun & Hy' & Hperm)
    end.
    + split; reflexivity.
    + intros i [X1 oy] Hi (Hy1 & Hperm). cbn [fst snd] in *. subst oy.
      pose proof (Permutation_length Hperm) as HlX.
      assert (i + Intn i (length X - i) < length X) as Hj.
      { specialize (HIntn i (length X - i)). lia. }
      destruct (swap_entries_Ok X1 i (i + Intn i (length X - i)))
        as (xi & xj & Hxi & Hxj & ->); [lia.. |].
      cbn [bind]. eexists (_, _). split; [reflexivity |]. cbn [fst snd].
      split; [reflexivity |]. etrans; [| exact Hperm].
      apply swapped_Permutation; assumption.
    + cbn [fst snd] in *. subst oy. exists X'. split; assumption.
Qed.

(** ** Bounds and empty inputs *)

Lemma for_loop_ran {St : Type} (body : nat -> St -> result St)
    (start count : nat) (s s' : St) (i : nat) :
  for_loop body start count s = Ok s' -> start <= i < start + count ->
  exists u u', body i u = Ok u'.
Proof.
  revert start s. induction count as [|k IH]; intros start s Hrun Hi; [lia |].
  simpl in Hrun. apply bind_Ok in Hrun as (u & Hb & Hrest).
  destruct (decide (i = start)) as [-> | Hne].
  - exists s, u. exact Hb.
  - apply (IH (S start) u Hrest). lia.
Qed.

(** X16: [Transform] reads [m.Classes[j]] for every column [j] of [Y]: on
    a binarizer with fewer class lists than [Y] has columns, as before any
    [Fit], it does not return. *)
Theorem Transform_needs_the_classes_of_every_column
    (m : LabelBinarizer64.lb) (Y : blas64General) :
  length (LabelBinarizer64.Classes m) < Cols Y ->
  forall Yout, LabelBinarizer64.Transform m Y <> Ok Yout.
Proof.
  intros Hlen Yout Hrun. unfold LabelBinarizer64.Transform in Hrun.
  apply bind_Ok in Hrun as ([baseCol d] & Hloop & _).
  unfold for_range in Hloop.
  destruct (for_loop_ran _ _ _ _ _ (length (LabelBinarizer64.Classes m)) Hloop)
    as ([bc u] & u' & Hbody); [lia |].
  apply bind_Ok in Hbody as (classes & Hload & _).
  apply load_Ok, lookup_lt_Some in Hload. lia.
Qed.

Lemma Transform_needs_classes_witness :
  length (LabelBinarizer64.Classes (LabelBinarizer64.NewLabelBinarizer64 0 1))
  < Cols (mkGeneral 1 1 1 [3]%float) /\
  forall Yout,
    LabelBinarizer64.Transform (LabelBinarizer64.NewLabelBinarizer64 0 1)
      (mkGeneral 1 1 1 [3]%float) <> Ok Yout.
Proof.
  split; [simpl; lia |].
  apply (Transform_needs_the_classes_of_every_column
           (LabelBinarizer64.NewLabelBinarizer64 0 1)
           (mkGeneral 1 1 1 [3]%float)).
  simpl. lia.
Defined.

(** X17: the scores of no row at all.  [accuracyScore64] divides zero by
    zero and returns NaN; [r2Score64] finds the denominator of its first
    column at zero and panics. *)
Theorem scores_of_an_empty_matrix (Y H : blas64General) :
  Rows Y = 0 ->
  (exists v, accuracyScore64 Y H = Ok v /\ F64.IsNaN v = true) /\
  (0 < Cols Y -> r2Score64 Y H = Panic "yDen=0").
Proof.
  intros HR. split.
  - unfold accuracyScore64. rewrite HR. eexists. split; reflexivity.
  - intros HC. unfold r2Score64. rewrite HR.
    destruct (Cols Y) as [|c]; [lia |]. reflexivity.
Qed.

Lemma scores_of_an_empty_matrix_witness :
  (exists v, accuracyScore64 (mkGeneral 0 1 1 []) (mkGeneral 0 1 1 [])
             = Ok v /\ F64.IsNaN v = true) /\
  (0 < 1 -> r2Score64 (mkGeneral 0 1 1 []) (mkGeneral 0 1 1 [])
            = Panic "yDen=0").
Proof.
  apply (scores_of_an_empty_matrix (mkGeneral 0 1 1 []) (mkGeneral 0 1 1 [])).
  reflexivity.
Defined.

(** ** Adding the intercepts *)

(** X18: on a matrix whose rows do not overlap and whose slice reaches its
    last cell, with an intercept for every column, [addIntercepts64]
    returns: it has added [b[c]] to every cell of column [c] and left the
    rest of the slice alone. *)
Theorem addIntercepts64_adds_to_every_row (a : blas64General)
    (b : list float) :
  Cols a <= Stride a -> holds (Rows a) (Cols a) a -> Cols a <= length b ->
  exists a',
    addIntercepts64 a b = Ok a' /\
    Rows a' = Rows a /\ Cols a' = Cols a /\ Stride a' = Stride a /\
    length (Data a') = length (Data a) /\
    (forall r c, r < Rows a -> c < Cols a ->
       exists v bc,
         Data a !! (r * Stride a + c) = Some v /\ b !! c = Some bc /\
         Data a' !! (r * Stride a + c) = Some (v + bc)%float) /\
    (forall p, (forall r c, r < Rows a -> c < Cols a ->
                  p <> r * Stride a + c) ->
       Data a' !! p = Data a !! p).
Proof.
  intros Hcs Hfit Hb. unfold addIntercepts64.
  destruct (nested_update_spec (Rows a) (Cols a) (Stride a)
              (fun _ c v => (v + default 0%float (b !! c))%float)
              (fun arow c d =>
                 let* bc := load b c in
                 update_at (fun v => (v + bc)%float) (arow * Stride a + c) d)
              (Data a)) as (d' & Hrun & Hlen & Hcells & Hrest).
  - intros r c d Hr Hc.
    destruct (lookup_lt_is_Some_2 b c) as (bc & Hbc); [lia |].
    rewrite Hbc. rewrite (proj2 (load_Ok _ _ _) Hbc). reflexivity.
  - exact Hcs.
  - exact Hfit.
  - exists (with_Data a d'). rewrite Hrun. cbn [bind].
    split; [reflexivity |]. do 3 (split; [reflexivity |]).
    cbn [Data with_Data]. split; [exact Hlen | split; [| exact Hrest]].
    intros r c Hr Hc.
    destruct (lookup_lt_is_Some_2 b c) as (bc & Hbc); [lia |].
    destruct (lookup_lt_is_Some_2 (Data a) (r * Stride a + c)) as (v & Hv).
    { destruct Hfit as [H0 | Hfit]; [lia |]. eapply cell_in_range; eauto. }
    exists v, bc. split; [exact Hv | split; [exact Hbc |]].
    rewrite (Hcells r c Hr Hc), Hv, Hbc. reflexivity.
Qed.

(** ** Samples: the properties above on concrete inputs *)

Lemma round_trip_one_column_witness :
  exists m' Yb Yr,
    LabelBinarizer64.FitTransform (LabelBinarizer64.NewLabelBinarizer64 0 1)
      (mkGeneral 3 1 1 [3; 1; 2]%float) = Ok (m', Yb) /\
    LabelBinarizer64.InverseTransform m' Yb = Ok Yr /\
    Rows Yr = 3 /\ Cols Yr = 1 /\
    forall i, i < 3 -> exists v w,
      [3; 1; 2]%float !! (i * 1) = Some v /\ Data Yr !! i = Some w /\
      (w =? v)%float = true.
Proof.
  apply (round_trip_one_column (LabelBinarizer64.NewLabelBinarizer64 0 1)
           (mkGeneral 3 1 1 [3; 1; 2]%float)).
  - reflexivity.
  - reflexivity.
  - reflexivity.
  - intros i Hi. simpl in Hi.
    destruct i as [|[|[|i]]]; [| | | lia]; eexists; split; reflexivity.
Defined.

Lemma toLogits64_binarized_witness :
  exists d,
    toLogits64 (mkGeneral 2 2 3 [0.25; 0.75; 9; 0.5; 0.5]%float) = Ok d /\
    length d = 5 /\
    isBinarized64 (mkGeneral 2 2 3 d) = Ok true.
Proof.
  apply (toLogits64_output_is_binarized
           (mkGeneral 2 2 3 [0.25; 0.75; 9; 0.5; 0.5]%float)).
  - simpl. lia.
  - right. simpl. lia.
Defined.

Lemma relu_entry_witness :
  exists f d,
    Activations64 reference "relu" = Some f /\
    f (mkGeneral 2 1 1 [-2; 3]%float) = Ok d /\
    length d = 2 /\
    forall row col, row < 2 -> col < 1 ->
      exists v w,
        [-2; 3]%float !! (row * 1 + col) = Some v /\
        d !! (row * 1 + col) = Some w /\
        (w <? 0)%float = false /\
        ((v <? 0)%float = false -> w = v).
Proof.
  apply (relu_entry_leaves_no_negative_cell reference
           (mkGeneral 2 1 1 [-2; 3]%float)).
  - simpl. lia.
  - right. simpl. lia.
Defined.

Lemma validateHyperparameters_NaN_witness :
  validateHyperparameters reference nan_hyperparameters = Ok tt.
Proof.
  apply (validateHyperparameters_accepts_NaN reference nan_hyperparameters);
    try reflexivity.
  - eexists. reflexivity.
  - simpl. repeat constructor.
  - simpl. repeat constructor.
Defined.

Lemma validated_solver_witness :
  exists o, new_optimizer NewBaseMultilayerPerceptron64 = Some o /\
    match o with
    | OptSGD s =>
        Solver NewBaseMultilayerPerceptron64 = "sgd" /\
        SGDOptimizer64.LearningRate s
        = LearningRateInit NewBaseMultilayerPerceptron64 /\
        SGDOptimizer64.velocities s = None
    | OptAdam a =>
        Solver NewBaseMultilayerPerceptron64 = "adam" /\
        AdamOptimizer64.LearningRate a
        = LearningRateInit NewBaseMultilayerPerceptron64 /\
        AdamOptimizer64.t a = 0%float
    end.
Proof.
  apply (validated_solver_gets_a_fresh_optimizer reference
           NewBaseMultilayerPerceptron64).
  - vm_compute. reflexivity.
  - reflexivity.
Defined.

Lemma softmax_hidden_witness :
  is_Some (Activations64 reference (Activation softmax_hidden)) /\
  Derivatives64 (Activation softmax_hidden) = None /\
  forall r,
    backprop reference softmax_hidden sample_X sample_y
      (fit_buffers sample_X 2 [1; 1; 1]) <> Ok r.
Proof.
  apply (softmax_hidden_activation_has_no_derivative reference softmax_hidden
           sample_X sample_y (fit_buffers sample_X 2 [1; 1; 1])).
  - reflexivity.
  - simpl. lia.
Defined.

Lemma initialize_blocks_witness :
  exists mlp',
    initialize (fun _ => 0.5%float) NewBaseMultilayerPerceptron64 1
      [2; 3; 1] false false = Ok mlp' /\
    NLayers mlp' = 3 /\ length (packedParameters mlp') = 13 /\
    Intercepts mlp' = [mkSpan 0 3; mkSpan 9 1] /\
    Coefs mlp' = [mkView 2 3 3 3 6; mkView 3 1 1 10 3].
Proof.
  eexists. split; [vm_compute; reflexivity |].
  destruct (initialize_blocks_tile_the_parameters (fun _ => 0.5%float)
              NewBaseMultilayerPerceptron64 _ 1 [2; 3; 1] false false
              ltac:(vm_compute; reflexivity)) as (HN & HL & _).
  split; [exact HN | split; [exact HL |]].
  split; reflexivity.
Defined.


Lemma adam_step_witness :
  exists o' Params',
    AdamOptimizer64.updateParams
      (AdamOptimizer64.mkOpt 0.5 0.5 0.5 0.5 0.5 0 [] [] 0 0)
      [2; 4]%float [1; 1; 1]%float = Ok (o', Params') /\
    AdamOptimizer64.t o' = 1%float /\
    AdamOptimizer64.ms o' = [1; 2]%float /\
    AdamOptimizer64.vs o' = [2; 8]%float /\
    Params' !! 2 = Some 1%float.
Proof.
  destruct (adam_step_is_elementwise
              (AdamOptimizer64.mkOpt 0.5 0.5 0.5 0.5 0.5 0 [] [] 0 0)
              [2; 4]%float [1; 1; 1]%float (make 2) (make 2) 1%float 1%float
              eq_refl eq_refl eq_refl eq_refl)
    as (o' & Params' & Hrun & _); [simpl; lia | simpl; lia | simpl; lia |].
  vm_compute in Hrun. injection Hrun as <- <-.
  eexists _, _. split; [vm_compute; reflexivity |].
  repeat split; reflexivity.
Defined.

Lemma fit_records_witness :
  exists st losses,
    fitStochastic reference sample_shuffle
      (sample_regressor "adam" false true 10 30 2)
      sample_X sample_y sample_buffers false = Ok st /\
    length losses = 4 /\
    NIter (f_mlp st) = 4 /\ t (f_mlp st) = 16 /\
    LossCurve (f_mlp st) = losses /\
    last losses = Some (Loss (f_mlp st)).
Proof.
  destruct (fit_records_one_loss_per_epoch reference sample_shuffle
              (sample_regressor "adam" false true 10 30 2)
              sample_X sample_y sample_buffers false _
              ltac:(vm_compute; reflexivity))
    as (losses & _ & _ & _ & _ & Hcurve & _).
  eexists _, losses. split; [vm_compute; reflexivity |].
  vm_compute in Hcurve. subst losses.
  repeat split; reflexivity.
Defined.

Lemma fit_keeps_BestLoss_witness :
  exists st losses,
    fitStochastic reference sample_shuffle
      (sample_regressor "adam" false true 10 30 2)
      sample_X sample_y sample_buffers false = Ok st /\
    LossCurve (f_mlp st) = losses /\
    (forall l, l ∈ losses -> (l <? BestLoss (f_mlp st))%float = false) /\
    (F64.Inf <? BestLoss (f_mlp st))%float = false.
Proof.
  destruct (fit_keeps_BestLoss_below_the_recorded_losses reference
              sample_shuffle (sample_regressor "adam" false true 10 30 2)
              sample_X sample_y sample_buffers false _
              ltac:(vm_compute; reflexivity))
    as (losses & Hcurve & Hall & Hbest).
  eexists _, losses. split; [vm_compute; reflexivity |].
  split; [exact Hcurve | split; [exact Hall | exact Hbest]].
Defined.

Lemma Fit_registers_witness :
  exists m',
    LabelBinarizer64.Fit (LabelBinarizer64.NewLabelBinarizer64 0 1)
      (mkGeneral 4 1 1 [3; 1; 3; 2]%float) = Ok m' /\
    LabelBinarizer64.Classes m' = [[1; 2; 3]%float].
Proof.
  destruct (Fit_registers_the_classes_in_ascending_order
              (LabelBinarizer64.NewLabelBinarizer64 0 1)
              (mkGeneral 4 1 1 [3; 1; 3; 2]%float)) as (m' & Hfit & _).
  - intros i j Hi Hj. simpl in Hi, Hj.
    destruct j as [|j]; [| lia].
    destruct i as [|[|[|[|i]]]]; [| | | | lia]; eexists; split; reflexivity.
  - vm_compute in Hfit. injection Hfit as <-.
    eexists. split; [vm_compute; reflexivity | reflexivity].
Defined.

Lemma base_Shuffle_witness :
  (length [7; 8; 9]%float = length [[1]; [2]; [3]]%float ->
   exists X' y',
     base.Shuffle (fun _ n => n - 1) [[1]; [2]; [3]]%float
       (Some [7; 8; 9]%float) = Ok (X', Some y') /\
     zip X' y' ≡ₚ zip [[1]; [2]; [3]]%float [7; 8; 9]%float /\
     length X' = length [[1]; [2]; [3]]%float /\
     length y' = length [7; 8; 9]%float) /\
  exists X',
    base.Shuffle (fun _ n => n - 1) [[1]; [2]; [3]]%float None
    = Ok (X', None) /\
    X' ≡ₚ [[1]; [2]; [3]]%float.
Proof.
  apply (base_Shuffle_keeps_rows_with_their_targets (fun _ n => n - 1)
           [[1]; [2]; [3]]%float [7; 8; 9]%float).
  intros k n Hn. lia.
Defined.

Lemma addIntercepts64_witness :
  exists a',
    addIntercepts64 (mkGeneral 2 2 3 [1; 2; 9; 3; 4]%float) [10; 20]%float
    = Ok a' /\
    Data a' = [11; 22; 9; 13; 24]%float.
Proof.
  destruct (addIntercepts64_adds_to_every_row
              (mkGeneral 2 2 3 [1; 2; 9; 3; 4]%float) [10; 20]%float)
    as (a' & Hrun & _).
  - simpl. lia.
  - right. simpl. lia.
  - simpl. lia.
  - vm_compute in Hrun. injection Hrun as <-.
    eexists. split; [vm_compute; reflexivity | reflexivity].
Defined.
